(** * Iowa election results ingestion: a shallow embedding

    The development follows two scripts of the repository:

    - [iowa_election_processor.py] (module [Processor]): the race
      classifier [is_race_we_want], the column resolver
      [get_columns_to_keep], the flat parser [process_election_file] and
      the positional county merge [merge_county_files] with its
      verification pass and problem report;
    - [team_a/process_iowa_election_data.py] (module [TeamA]): the race
      filter [filter_races], the multi-sheet parser
      [process_2018_2020_file] and the key-aligned [merge_county_files];
      (module [TeamA2016]): the single-sheet parser [process_2016_file].

    Spreadsheet cells are the values openpyxl / pandas hand to the
    scripts: blank ([None], NaN), text, or a whole number.  Python
    exceptions are explicit: a function that can raise returns a
    [result] (an [outcome] in [TeamA2016]). *)

From Stdlib Require Import String Ascii ZArith List Lia Permutation Sorted.
From stdpp Require Import base list strings.
From Equations Require Import Equations.
Import ListNotations.

(** ** Python strings

    A [str] is modelled as a [string] whose characters are the code
    points 0..255.  The functions below are the built-in methods the
    scripts call. *)

Module Py.

(** [str.isspace] on one character: TAB..CR, FS..US, space, NEL, NBSP. *)
Definition is_space (c : ascii) : bool :=
  let n := nat_of_ascii c in
  ((9 <=? n) && (n <=? 13)) || ((28 <=? n) && (n <=? 32))
  || (n =? 133) || (n =? 160).

(** [str.lower] on one character: A..Z and the Latin-1 capitals
    (0xC0..0xDE except the multiplication sign 0xD7) move up by 32. *)
Definition lower_char (c : ascii) : ascii :=
  let n := nat_of_ascii c in
  if ((65 <=? n) && (n <=? 90))
     || ((192 <=? n) && (n <=? 222) && negb (n =? 215))
  then ascii_of_nat (n + 32) else c.

Fixpoint lower (s : string) : string :=
  match s with
  | EmptyString => EmptyString
  | String c r => String (lower_char c) (lower r)
  end.

Fixpoint lstrip (s : string) : string :=
  match s with
  | EmptyString => EmptyString
  | String c r => if is_space c then lstrip r else s
  end.

Fixpoint rstrip (s : string) : string :=
  match s with
  | EmptyString => EmptyString
  | String c r =>
      match rstrip r with
      | EmptyString => if is_space c then EmptyString else String c EmptyString
      | r' => String c r'
      end
  end.

(** [s.strip()] *)
Definition strip (s : string) : string := rstrip (lstrip s).

(** [sub in s] *)
Fixpoint contains (sub s : string) : bool :=
  String.prefix sub s ||
  match s with
  | EmptyString => false
  | String _ r => contains sub r
  end.

(** [s.endswith(suf)] *)
Definition endswith (s suf : string) : bool :=
  let n := String.length s in
  let m := String.length suf in
  (m <=? n) && String.eqb (substring (n - m) m s) suf.

(** [s[:-k]] for a positive [k]: everything but the last [k] characters,
    the empty string when [s] is shorter. *)
Definition drop_last (k : nat) (s : string) : string :=
  substring 0 (String.length s - k) s.

(** [x in l] for a list of strings. *)
Definition in_list (x : string) (l : list string) : bool :=
  existsb (String.eqb x) l.

Definition is_digit (c : ascii) : bool :=
  let n := nat_of_ascii c in (48 <=? n) && (n <=? 57).

Definition digit_value (c : ascii) : Z := Z.of_nat (nat_of_ascii c - 48).

(** The digits of an [int(...)] literal in base 10: decimal digits, with
    single underscores allowed between two digits only. *)
Fixpoint parse_digits (s : string) (acc : Z) (after_digit : bool) : option Z :=
  match s with
  | EmptyString => if after_digit then Some acc else None
  | String c r =>
      if is_digit c then parse_digits r (10 * acc + digit_value c)%Z true
      else if Ascii.eqb c "_"%char
           then (if after_digit then parse_digits r acc false else None)
           else None
  end.

(** [int(s)] on a string: surrounding white space is dropped, one sign is
    allowed, anything else is a [ValueError] ([None]). *)
Definition int_of_str (s : string) : option Z :=
  match strip s with
  | String "+"%char r => parse_digits r 0%Z false
  | String "-"%char r => Z.opp <$> parse_digits r 0%Z false
  | t => parse_digits t 0%Z false
  end.

End Py.

(** ** Cells, exceptions *)

(** A cell value: blank ([None] from openpyxl, NaN in a pandas frame),
    text, or a whole number. *)
Inductive cell : Type :=
| CNone
| CStr (s : string)
| CInt (n : Z).

#[global] Instance cell_eq_dec : EqDecision cell.
Proof. solve_decision. Defined.

(** [c1 != c2] on cell values. *)
Definition cell_neqb (c1 c2 : cell) : bool := negb (bool_decide (c1 = c2)).

(** Truth value of a cell in a condition ([if h], [v and ...]). *)
Definition truthy (c : cell) : bool :=
  match c with
  | CNone => false
  | CStr s => negb (String.eqb s EmptyString)
  | CInt n => negb (n =? 0)%Z
  end.

(** [pd.isna(v)] *)
Definition isna (c : cell) : bool :=
  match c with CNone => true | _ => false end.

Inductive exn : Type :=
| IndexError
| AttributeError
| KeyError
| ValueError
| MergeError.

Inductive result (A : Type) : Type :=
| Ok (a : A)
| Raise (e : exn).
Arguments Ok {A} a.
Arguments Raise {A} e.

#[global] Instance result_ret : MRet result := fun A a => Ok a.

#[global] Instance result_bind : MBind result := fun A B k r =>
  match r with
  | Ok a => k a
  | Raise e => Raise e
  end.

(** [l[i]] for a non-negative index. *)
Definition index {A} (l : list A) (i : nat) : result A :=
  match l !! i with
  | Some a => Ok a
  | None => Raise IndexError
  end.

(** A [for] loop that threads an accumulator and stops at the first
    exception. *)
Fixpoint for_each {A S} (body : S -> A -> result S) (l : list A) (s : S)
  : result S :=
  match l with
  | [] => Ok s
  | a :: l' => s' ← body s a; for_each body l' s'
  end.

(** [[f(x) for x in l]] where [f] may raise. *)
Fixpoint comprehension {A B} (f : A -> result B) (l : list A)
  : result (list B) :=
  match l with
  | [] => Ok []
  | a :: l' => b ← f a; bs ← comprehension f l'; Ok (b :: bs)
  end.

(** [enumerate(l)], counting from [n]. *)
Fixpoint enumerate_from {A} (n : nat) (l : list A) : list (nat * A) :=
  match l with
  | [] => []
  | a :: l' => (n, a) :: enumerate_from (S n) l'
  end.

Definition enumerate {A} (l : list A) : list (nat * A) := enumerate_from 0 l.

(** A header or race-title cell on which [.strip()] / [.lower()] can be
    called once the script's own guard has let it through: blank or text. *)
Definition text_or_blank (c : cell) : Prop :=
  match c with CInt _ => False | _ => True end.

(** A worksheet as openpyxl presents it: row 1 ([ws[1]]) and the rows from
    row 2 on ([iter_rows(min_row=2, values_only=True)]). *)
Record worksheet : Type := {
  header : list cell;
  rows : list (list cell);
}.

(** openpyxl pads every row to the sheet's width. *)
Definition rectangular (ws : worksheet) : Prop :=
  Forall (fun r => length r = length (header ws)) (rows ws).

(** ** iowa_election_processor.py *)

Module Processor.

(** *** Step 1: which races to keep *)

Definition races_to_keep : list string :=
  ["president"; "governor"; "u.s. senator"; "us senator";
   "u.s. rep"; "us rep"; "state senator"; "state rep"].

(** [is_race_we_want(race_name)]: the two guards ([None], not a [str])
    return [False]; no branch raises. *)
Definition is_race_we_want (race_name : cell) : bool :=
  match race_name with
  | CNone => false
  | CInt _ => false
  | CStr s =>
      let race_lower := Py.lower s in
      existsb (fun keyword => Py.contains keyword race_lower) races_to_keep
  end.

(** *** Step 2: which columns to keep *)

Definition metadata_columns : list string :=
  ["RaceTitle"; "CandidateName"; "PoliticalPartyName"].

(** One turn of the loop over [enumerate(header_row)].  [header.strip()]
    on a number raises [AttributeError]. *)
Definition keep_column (columns_to_keep : list (nat * string))
    (ih : nat * cell) : result (list (nat * string)) :=
  let '(column_index, header) := ih in
  match header with
  | CNone => Ok columns_to_keep
  | CInt _ => Raise AttributeError
  | CStr h =>
      let header_clean := Py.strip h in
      if Py.in_list header_clean metadata_columns
      then Ok (columns_to_keep ++ [(column_index, header_clean)])
      else if Py.endswith header_clean " Total"
      then
        let precinct_name := Py.drop_last 6 header_clean in
        if Py.contains "-" precinct_name
        then Ok (columns_to_keep ++ [(column_index, precinct_name)])
        else Ok columns_to_keep
      else Ok columns_to_keep
  end.

Definition get_columns_to_keep (header_row : list cell)
  : result (list (nat * string)) :=
  for_each keep_column (enumerate header_row) [].

(** *** Step 3: the flat parser *)

Record cleaned_sheet : Type := {
  new_headers : list string;
  new_rows : list (list cell);
  rows_kept : nat;
  rows_removed : nat;
}.

(** One data row: kept rows are projected on the kept columns. *)
Definition process_row (columns_to_keep : list (nat * string))
    (st : list (list cell) * nat * nat) (row : list cell)
  : result (list (list cell) * nat * nat) :=
  let '(new_sheet, kept, removed) := st in
  race_name ← index row 0;
  if is_race_we_want race_name
  then
    new_row ← comprehension (fun c => index row c.1) columns_to_keep;
    Ok (new_sheet ++ [new_row], S kept, removed)
  else Ok (new_sheet, kept, S removed).

Definition process_election_file (source_sheet : worksheet)
  : result cleaned_sheet :=
  columns_to_keep ← get_columns_to_keep (header source_sheet);
  let new_headers := map snd columns_to_keep in
  st ← for_each (process_row columns_to_keep) (rows source_sheet) ([], 0, 0);
  Ok {| new_headers := new_headers;
        new_rows := st.1.1;
        rows_kept := st.1.2;
        rows_removed := st.2 |}.

(** *** Step 4: the positional county merge *)

(** The entries of [problems_found].  The script formats them as text;
    the fields are the values it interpolates. *)
Inductive finding : Type :=
| RowMismatch (county_name : string)
    (expected_race expected_candidate race_title candidate : cell)
| ColumnCount (row_number n_columns expected_cols : nat)
| Suspicious (race_title : string) (candidate : cell).

(** A county file: the name taken from its path, and its active sheet.
    The list a run works on is [sorted(glob.glob(pattern))]. *)
Record county_file : Type := {
  county_name : string;
  sheet : worksheet;
}.

Record merge_state : Type := {
  merged_headers : list string;
  merged_data : list (list cell);
  total_precincts : nat;
  problems_found : list finding;
}.

Definition metadata_cols : list string :=
  ["RaceTitle"; "CandidateName"; "PoliticalPartyName"].

(** [iter_rows(min_row=2, max_col=2, values_only=True)] always yields two
    cells per row, padding with [None]. *)
Definition base_rows_of (first_ws : worksheet) : list (cell * cell) :=
  map (fun row => (nth 0 row CNone, nth 1 row CNone)) (rows first_ws).

(** [merged_data.append([row[0], row[1]])] over the first file. *)
Definition initial_merged_data (first_ws : worksheet)
  : result (list (list cell)) :=
  comprehension
    (fun row => r0 ← index row 0; r1 ← index row 1; Ok [r0; r1])
    (rows first_ws).

(** One turn of the loop that finds precinct columns:
    [if h and h.strip() not in metadata_cols]. *)
Definition add_precinct_column (acc : list nat * list string)
    (ih : nat * cell) : result (list nat * list string) :=
  let '(precinct_indices, merged_headers) := acc in
  let '(i, h) := ih in
  if truthy h
  then
    match h with
    | CStr s =>
        if Py.in_list (Py.strip s) metadata_cols
        then Ok acc
        else Ok (precinct_indices ++ [i], merged_headers ++ [Py.strip s])
    | _ => Raise AttributeError
    end
  else Ok acc.

(** One data row of a county file: compare with the base structure, then
    extend [merged_data[row_index]]. *)
Definition add_row (county : string) (base_rows : list (cell * cell))
    (precinct_indices : list nat)
    (st : nat * list (list cell) * list finding) (row : list cell)
  : result (nat * list (list cell) * list finding) :=
  let '(row_index, merged_data, problems_found) := st in
  race_title ← index row 0;
  candidate ← index row 1;
  let problems_found :=
    match base_rows !! row_index with
    | Some (expected_race, expected_candidate) =>
        if cell_neqb race_title expected_race
           || cell_neqb candidate expected_candidate
        then problems_found ++
             [RowMismatch county expected_race expected_candidate
                          race_title candidate]
        else problems_found
    | None => problems_found
    end in
  precinct_votes ← comprehension (index row) precinct_indices;
  merged_row ← index merged_data row_index;
  Ok (S row_index,
      <[row_index := merged_row ++ precinct_votes]> merged_data,
      problems_found).

(** One county file of the main loop. *)
Definition add_county (base_rows : list (cell * cell)) (st : merge_state)
    (f : county_file) : result merge_state :=
  cols ← for_each add_precinct_column (enumerate (header (sheet f)))
                  ([], merged_headers st);
  let precinct_indices := cols.1 in
  st' ← for_each (add_row (county_name f) base_rows precinct_indices)
                 (rows (sheet f)) (0, merged_data st, problems_found st);
  Ok {| merged_headers := cols.2;
        merged_data := st'.1.2;
        total_precincts := total_precincts st + length precinct_indices;
        problems_found := st'.2 |}.

(** Check 1: every row has [2 + total_precincts] columns. *)
Definition check_columns (expected_cols : nat) (problems_found : list finding)
    (ir : nat * list cell) : list finding :=
  let '(i, row) := ir in
  if bool_decide (length row = expected_cols)
  then problems_found
  else problems_found ++ [ColumnCount (i + 2) (length row) expected_cols].

Definition statewide_races : list string :=
  ["president"; "governor"; "u.s. senator"; "us senator"].

(** [int(v)] inside the [try]: [None] stands for the swallowed
    [ValueError] / [TypeError]. *)
Definition int_of_cell (v : cell) : option Z :=
  match v with
  | CNone => None
  | CStr s => Py.int_of_str s
  | CInt n => Some n
  end.

(** [v and int(v) > 0], exceptions swallowed by [except: pass]. *)
Definition has_votes (v : cell) : bool :=
  truthy v &&
  match int_of_cell v with
  | Some n => (0 <? n)%Z
  | None => false
  end.

Definition count_precincts_with_votes (precinct_votes : list cell) : nat :=
  foldl (fun n v => if has_votes v then S n else n) 0 precinct_votes.

Definition is_statewide (race_title : string) : bool :=
  existsb (fun pattern => Py.contains pattern race_title) statewide_races.

(** [row[0].lower() if row[0] else ""] *)
Definition lowered_title (r0 : cell) : result string :=
  if truthy r0
  then match r0 with
       | CStr s => Ok (Py.lower s)
       | _ => Raise AttributeError
       end
  else Ok EmptyString.

(** Check 2, one row.  The statewide coverage test is evaluated and its
    branch is [pass]; [total_precincts * 0.5] is compared exactly. *)
Definition check_vote_pattern (total_precincts : nat)
    (problems_found : list finding) (row : list cell)
  : result (list finding) :=
  r0 ← index row 0;
  race_title ← lowered_title r0;
  candidate ← index row 1;
  let precinct_votes := drop 2 row in
  let precincts_with_votes := count_precincts_with_votes precinct_votes in
  let statewide := is_statewide race_title in
  let problems_found :=
    if statewide && (2 * precincts_with_votes <? total_precincts)
    then problems_found
    else problems_found in
  if negb statewide && (precincts_with_votes =? total_precincts)
  then Ok (problems_found ++ [Suspicious race_title candidate])
  else Ok problems_found.

(** The verification pass over the merged table. *)
Definition verify (merged_data : list (list cell)) (total_precincts : nat)
    (problems_found : list finding) : result (list finding) :=
  let expected_cols := 2 + total_precincts in
  let problems_found :=
    foldl (check_columns expected_cols) problems_found (enumerate merged_data) in
  for_each (check_vote_pattern total_precincts) merged_data problems_found.

(** What the run prints about its problems. *)
Inductive report_line : Type :=
| FoundProblems (n : nat)
| Problem (p : finding)
| AndMore (n : nat)
| NoProblems.

Definition report_problems (problems_found : list finding) : list report_line :=
  match problems_found with
  | [] => [NoProblems]
  | _ =>
      FoundProblems (length problems_found)
      :: map Problem (take 10 problems_found)
      ++ (if 10 <? length problems_found
          then [AndMore (length problems_found - 10)]
          else [])
  end.

(** What a completed run leaves: the saved sheet (header row and data
    rows), the problems it found and the report it printed. *)
Record merged_file : Type := {
  saved_headers : list string;
  saved_rows : list (list cell);
  all_problems : list finding;
  printed_report : list report_line;
}.

Definition merge_files_from (first : county_file)
    (county_files : list county_file) : result merged_file :=
  let base_rows := base_rows_of (sheet first) in
  merged_data ← initial_merged_data (sheet first);
  st ← for_each (add_county base_rows) county_files
         {| merged_headers := ["RaceTitle"; "CandidateName"];
            merged_data := merged_data;
            total_precincts := 0;
            problems_found := [] |};
  problems ← verify (Processor.merged_data st) (Processor.total_precincts st)
                    (Processor.problems_found st);
  Ok {| saved_headers := Processor.merged_headers st;
        saved_rows := Processor.merged_data st;
        all_problems := problems;
        printed_report := report_problems problems |}.

(** [merge_county_files]: with no file the run prints an error and
    returns without output ([None]). *)
Definition merge_county_files (county_files : list county_file)
  : result (option merged_file) :=
  match county_files with
  | [] => Ok None
  | first :: _ => out ← merge_files_from first county_files; Ok (Some out)
  end.

End Processor.

(** ** team_a/process_iowa_election_data.py *)

Module TeamA.

Definition race_patterns : list string :=
  ["President"; "US Senator"; "United States Senator"; "US Rep";
   "United States Representative"; "State Rep"; "Governor"].

(** One entry of the mask
    [str.contains('|'.join(race_patterns), case=False, na=False)]: the
    patterns hold no regular-expression operator, so the search is for one
    of them as a substring, letter case ignored; an entry that is not text
    gives NaN, which [na=False] turns into [False]. *)
Definition race_matches (race_title : cell) : bool :=
  match race_title with
  | CStr s =>
      existsb (fun p => Py.contains (Py.lower p) (Py.lower s)) race_patterns
  | _ => false
  end.

(** One sheet read with [pd.read_excel(..., header=None)]. *)
Record frame : Type := {
  ncols : nat;
  cells : list (list cell);
}.

Definition rectangular_frame (df : frame) : Prop :=
  Forall (fun r => length r = ncols df) (cells df).

(** [df.iloc[r, c]] *)
Definition iloc (df : frame) (r c : nat) : result cell :=
  row ← index (cells df) r; index row c.

Record vote_record : Type := {
  RaceTitle : cell;
  CandidateName : cell;
  PrecinctName : string * cell;
  Votes : cell;
}.

(** [filter_races] on the frame [pd.DataFrame(all_races)].  A frame made
    of no record has no column, so [df['RaceTitle']] raises [KeyError];
    a title column without any text is a column of numbers (a sheet
    with a blank title gives no record), on which [.str] raises
    [AttributeError]. *)
Definition filter_races (df : list vote_record) : result (list vote_record) :=
  match df with
  | [] => Raise KeyError
  | _ =>
      if existsb (fun r => match RaceTitle r with CStr _ => true | _ => false end)
                 df
      then Ok (filter (fun r => race_matches (RaceTitle r) = true) df)
      else Raise AttributeError
  end.

(** The scan of column 0 from row [start] on: it stops at ["Total:"] or at
    the first blank cell. *)
Fixpoint collect_precincts (start : nat) (col0 : list cell)
  : list (cell * nat) :=
  match col0 with
  | [] => []
  | val :: rest =>
      if bool_decide (val = CStr "Total:") || isna val
      then []
      else (val, start) :: collect_precincts (S start) rest
  end.

Definition is_total (header : cell) : bool :=
  bool_decide (header = CStr "Total Votes") || bool_decide (header = CStr "Total").

(** [for offset in range(5)]: the first column of the window whose row-2
    label is a total. *)
Fixpoint find_total_votes (df : frame) (col_idx : nat) (offsets : list nat)
  : result (option nat) :=
  match offsets with
  | [] => Ok None
  | offset :: rest =>
      if col_idx + offset <? ncols df
      then
        header ← iloc df 2 (col_idx + offset);
        if is_total header
        then Ok (Some (col_idx + offset))
        else find_total_votes df col_idx rest
      else find_total_votes df col_idx rest
  end.

Definition lookahead : list nat := seq 0 5.

Definition inspect {A} (a : A) : {b : A | a = b} := exist _ a eq_refl.

(** The [while col_idx < len(df.columns)] loop over the candidate row. *)
Equations? parse_candidates (df : frame) (col_idx : nat)
    (candidates : list (cell * nat)) : result (list (cell * nat))
    by wf (ncols df - col_idx) lt :=
  parse_candidates df col_idx candidates with lt_dec col_idx (ncols df) := {
    | right _ := Ok candidates
    | left _ with iloc df 1 col_idx := {
      | Raise e := Raise e
      | Ok candidate_name with isna candidate_name := {
        | true := parse_candidates df (S col_idx) candidates
        | false with inspect (find_total_votes df col_idx lookahead) := {
          | exist _ (Raise e) _ := Raise e
          | exist _ (Ok None) _ := parse_candidates df (S col_idx) candidates
          | exist _ (Ok (Some total_col_idx)) _ :=
              parse_candidates df (S total_col_idx)
                (candidates ++ [(candidate_name, total_col_idx)]) } } } }.
Proof.
  all: try lia.
  assert (Hfound : forall offsets t,
            find_total_votes df col_idx offsets = Ok (Some t) -> col_idx <= t).
  { induction offsets as [|o rest IH]; intros t; simpl; [discriminate|].
    destruct (col_idx + o <? ncols df); [|apply IH].
    destruct (iloc df 2 (col_idx + o)) as [h|err]; simpl; [|discriminate].
    destruct (is_total h); [|apply IH].
    intros [= <-]. lia. }
  match goal with H : _ = Ok (Some ?t) |- _ =>
    apply (Hfound lookahead t) in H end.
  lia.
Qed.

(** [votes if not pd.isna(votes) else 0] *)
Definition votes_or_zero (votes : cell) : cell :=
  if negb (isna votes) then votes else CInt 0.

(** The double loop that emits one record per candidate and precinct. *)
Definition emit_records (county : string) (df : frame) (race_title : cell)
    (precincts : list (cell * nat)) (all_races : list vote_record)
    (cc : cell * nat) : result (list vote_record) :=
  for_each
    (fun all_races (pr : cell * nat) =>
       votes ← iloc df pr.2 cc.2;
       Ok (all_races ++
           [{| RaceTitle := race_title;
               CandidateName := cc.1;
               PrecinctName := (county, pr.1);
               Votes := votes_or_zero votes |}]))
    precincts all_races.

(** One data sheet. *)
Definition process_sheet (county : string) (all_races : list vote_record)
    (df : frame) : result (list vote_record) :=
  race_title ← iloc df 0 0;
  if isna race_title then Ok all_races else
  col0 ← comprehension (fun row => index row 0) (drop 3 (cells df));
  let precincts := collect_precincts 3 col0 in
  if bool_decide (length precincts = 0) then Ok all_races else
  candidates ← parse_candidates df 1 [];
  for_each (emit_records county df race_title precincts) candidates all_races.

Definition skipped_sheets : list string :=
  ["Table of Contents"; "Registered Voters"].

(** [process_2018_2020_file], up to the filtered records; the closing
    [pivot_table] call reshapes them into one row per (race, candidate)
    and one column per precinct. *)
Definition process_2018_2020_file (county : string)
    (workbook : list (string * frame)) : result (option (list vote_record)) :=
  let data_sheets :=
    filter (fun s => Py.in_list s.1 skipped_sheets = false) workbook in
  all_races ← for_each (process_sheet county) (map snd data_sheets) [];
  if bool_decide (length all_races = 0) then Ok None else
  races_df ← filter_races all_races;
  if bool_decide (length races_df = 0) then Ok None else Ok (Some races_df).

(** A per-county frame as [merge_county_files] receives it,
    [df[['RaceTitle', 'CandidateName'] + precinct_cols]]: the labels of
    the columns other than the two key columns, and the key and the
    precinct values of each row. *)
Record county_frame : Type := {
  precinct_cols : list string;
  frame_rows : list ((cell * cell) * list cell);
}.

Definition keys_of (df : county_frame) : list (cell * cell) :=
  map fst (frame_rows df).

(** [drop_duplicates()]: the first occurrence of each key stays. *)
Definition drop_duplicates (keys : list (cell * cell)) : list (cell * cell) :=
  foldl (fun seen k => if bool_decide (k ∈ seen) then seen else seen ++ [k])
        [] keys.

(** [merged_df.merge(df, on=[keys], how='left')] on one left row: the
    matching right rows in their order, or one row of NaN. *)
Definition left_join_row (df : county_frame)
    (left : (cell * cell) * list cell) : list ((cell * cell) * list cell) :=
  match filter (fun r => r.1 = left.1) (frame_rows df) with
  | [] => [(left.1, left.2 ++ replicate (length (precinct_cols df)) CNone)]
  | matches => map (fun r => (left.1, left.2 ++ r.2)) matches
  end.

Definition left_join (merged_df : list ((cell * cell) * list cell))
    (df : county_frame) : list ((cell * cell) * list cell) :=
  mjoin (map (left_join_row df) merged_df).

(** The labels of a merge.  A label that both sides have gets the
    suffix ["_x"] on the left and ["_y"] on the right. *)
Definition add_suffix (to_rename : list string) (suffix x : string) : string :=
  if Py.in_list x to_rename then x +:+ suffix else x.

(** [Index.duplicated()]: true at every occurrence of a label after its
    first. *)
Fixpoint duplicated_from (seen labels : list string) : list bool :=
  match labels with
  | [] => []
  | x :: rest => Py.in_list x seen :: duplicated_from (x :: seen) rest
  end.

Definition duplicated (labels : list string) : list bool :=
  duplicated_from [] labels.

(** [llabels[llabels.duplicated() & ~left.duplicated()]]: the labels that
    the suffixes have made duplicates. *)
Definition suffix_duplicates (labels renamed : list string) : list string :=
  map fst
      (filter (fun x : string * (bool * bool) => x.2.1 && negb x.2.2 = true)
              (zip renamed (zip (duplicated renamed) (duplicated labels)))).

(** The column labels of [left.merge(right)], the key columns of the
    right side apart: [MergeError] when a suffix makes a duplicate
    (pandas 2; older versions warn and keep the duplicate). *)
Definition items_overlap_with_suffix (left right : list string)
  : result (list string * list string) :=
  let to_rename := List.filter (fun x => Py.in_list x right) left in
  let llabels := map (add_suffix to_rename "_x") left in
  let rlabels := map (add_suffix to_rename "_y") right in
  match suffix_duplicates left llabels ++ suffix_duplicates right rlabels with
  | [] => Ok (llabels, rlabels)
  | _ => Raise MergeError
  end.

(** A row of the saved table: race title, candidate name, party, votes. *)
Record merged_row : Type := {
  row_key : cell * cell;
  party : string;
  row_votes : list cell;
}.

Record merged_table : Type := {
  columns : list string;
  table_rows : list merged_row;
}.

Section Merge.

(** [sort_values(['RaceTitle', 'CandidateName'])] is pandas'; the model
    takes it as a function that reorders the rows. *)
Variable sort_values : list merged_row -> list merged_row.

(** Before it joins, [merge] compares the kinds of values of each key
    column on the two sides and raises [ValueError] on kinds it does not
    join (text against numbers and blanks).  The check is pandas';
    [merge_keys_ok left right] stands for its verdict on one key column,
    given the values on the left and on the right. *)
Variable merge_keys_ok : list cell -> list cell -> bool.

(** One turn of the loop over [all_data]: the check of the two key
    columns, the labels, the rows. *)
Definition merge_frame
    (merged_df : list string * list ((cell * cell) * list cell))
    (df : county_frame)
  : result (list string * list ((cell * cell) * list cell)) :=
  if merge_keys_ok (map (fun r => r.1.1) merged_df.2)
                   (map (fun r => r.1.1) (frame_rows df))
     && merge_keys_ok (map (fun r => r.1.2) merged_df.2)
                      (map (fun r => r.1.2) (frame_rows df))
  then
    labels ← items_overlap_with_suffix merged_df.1 (precinct_cols df);
    Ok (labels.1 ++ labels.2, left_join merged_df.2 df)
  else Raise ValueError.

(** [merge_county_files] from the list [all_data] of extracted frames on;
    with no frame the run returns without output.
    [insert(2, 'PoliticalPartyName', '')] raises [ValueError] when the
    frame has a column of that name. *)
Definition merge_county_files (all_data : list county_frame)
  : result (option merged_table) :=
  match all_data with
  | [] => Ok None
  | _ =>
      let all_races_candidates :=
        drop_duplicates (mjoin (map keys_of all_data)) in
      let merged_df :=
        (["RaceTitle"; "CandidateName"],
         map (fun k => (k, [])) all_races_candidates) in
      merged_df ← for_each merge_frame all_data merged_df;
      if Py.in_list "PoliticalPartyName" merged_df.1 then Raise ValueError
      else
        let rows :=
          map (fun r => {| row_key := r.1; party := EmptyString;
                           row_votes := r.2 |}) merged_df.2 in
        Ok (Some {| columns := take 2 merged_df.1 ++ ["PoliticalPartyName"]
                               ++ drop 2 merged_df.1;
                    table_rows := sort_values rows |})
  end.

End Merge.

End TeamA.

(** ** [team_a/process_iowa_election_data.py], the 2016 parser *)

Module TeamA2016.

(** [s.replace(old, new)] for a non-empty [old]: every occurrence from
    left to right, without overlap; [skip] counts the characters of a
    match that are still to drop. *)
Fixpoint replace_from (skip : nat) (old new s : string) : string :=
  match s with
  | EmptyString => EmptyString
  | String c r =>
      match skip with
      | S k => replace_from k old new r
      | 0 =>
          if String.prefix old s
          then new +:+ replace_from (String.length old - 1) old new r
          else String c (replace_from 0 old new r)
      end
  end.

Definition replace (s old new : string) : string := replace_from 0 old new s.

(** The exceptions of this parser. *)
Inductive error : Type := KeyError | AttributeError | TypeError.

Inductive outcome (A : Type) : Type :=
| Return (a : A)
| Throw (e : error).
Arguments Return {A} a.
Arguments Throw {A} e.

#[global] Instance outcome_ret : MRet outcome := fun A a => Return a.

#[global] Instance outcome_bind : MBind outcome := fun A B k r =>
  match r with
  | Return a => k a
  | Throw e => Throw e
  end.

(** A [for] loop with an accumulator, stopped by the first exception. *)
Fixpoint loop {A St} (body : St -> A -> outcome St) (l : list A) (s : St)
  : outcome St :=
  match l with
  | [] => Return s
  | a :: l' => s' ← body s a; loop body l' s'
  end.

(** [[x for x in l if p(x)]] where [p] may raise. *)
Fixpoint select {A} (p : A -> outcome bool) (l : list A) : outcome (list A) :=
  match l with
  | [] => Return []
  | a :: l' =>
      b ← p a; rest ← select p l';
      Return (if b : bool then a :: rest else rest)
  end.

(** [d[k] = v] on a dict, which keeps its keys in insertion order, and
    [df[k] = v] on the columns of a frame: a key that is there keeps its
    place and takes the new value, a new key goes last. *)
Fixpoint assign {V} (k : string) (v : V) (d : list (string * V))
  : list (string * V) :=
  match d with
  | [] => [(k, v)]
  | (k', v') :: d' =>
      if String.eqb k' k then (k', v) :: d' else (k', v') :: assign k v d'
  end.

(** The frame of [pd.read_excel(filepath)]: the labels of the header row
    (text, or a number where the header cell holds one; pandas makes
    repeated labels distinct) and the rows under it. *)
Record table : Type := {
  labels : list cell;
  body : list (list cell);
}.

(** [df[label]]: the values of a column, [KeyError] without the label. *)
Definition column (df : table) (label : string) : outcome (list cell) :=
  match list_find (fun l => l = CStr label) (labels df) with
  | Some (i, _) => Return (map (fun row => nth i row CNone) (body df))
  | None => Throw KeyError
  end.

(** The [.str] accessor of a column: pandas gives it to a column that
    holds text (or no value at all) and raises [AttributeError] on a
    column of numbers and blanks only. *)
Definition has_str_accessor (values : list cell) : bool :=
  bool_decide (values = [])
  || existsb (fun v => match v with CStr _ => true | _ => false end) values.

(** The rows [filter_races] keeps, with their index. *)
Definition filter_races (race_candidate_party : list (nat * (cell * cell)))
  : outcome (list (nat * (cell * cell))) :=
  if has_str_accessor (map (fun r : nat * (cell * cell) => r.2.1)
                           race_candidate_party)
  then Return (filter (fun r : nat * (cell * cell) =>
                         TeamA.race_matches r.2.1 = true)
                      race_candidate_party)
  else Throw AttributeError.

(** The comprehension of line 53; [x in col] raises [TypeError] on a
    label that is not text. *)
Definition precinct_cols (df : table) : outcome (list cell) :=
  select (fun col =>
            match col with
            | CStr s =>
                Return (negb (existsb (fun x => Py.contains x s)
                                ["Total"; "Absentee"; "Polling"; "RaceTitle";
                                 "CandidateName"]))
            | _ => Throw TypeError
            end) (labels df).

(** The comprehension of line 56; [col.strip()] raises [AttributeError]
    on a label that is not text. *)
Definition total_cols (df : table) : outcome (list cell) :=
  select (fun col =>
            match col with
            | CStr s =>
                Return (Py.endswith (Py.strip s) "Total"
                        && negb (Py.endswith (Py.strip s) "Adair Total"))
            | _ => Throw AttributeError
            end) (labels df).

(** [col.strip().replace(' Total', '').strip()] *)
Definition precinct_name (col : string) : string :=
  Py.strip (replace (Py.strip col) " Total" "").

(** One turn of the loop that fills [precinct_data]. *)
Definition add_precinct (df : table) (filtered_indices : list nat)
    (precinct_data : list (string * list cell)) (col : cell)
  : outcome (list (string * list cell)) :=
  match col with
  | CStr s =>
      values ← column df s;
      Return (assign (precinct_name s)
                     (map (fun i => nth i values CNone) filtered_indices)
                     precinct_data)
  | _ => Throw AttributeError
  end.

(** [process_2016_file]: [None] without a row of a wanted race, else the
    columns of the result frame in their order. *)
Definition process_2016_file (df : table)
  : outcome (option (list (string * list cell))) :=
  let candidate_col :=
    if bool_decide (CStr " CandidateName" ∈ labels df)
    then " CandidateName" else "CandidateName" in
  titles ← column df "RaceTitle";
  names ← column df candidate_col;
  race_candidate_party ← filter_races (enumerate (zip titles names));
  if bool_decide (length race_candidate_party = 0) then Return None else
  let filtered_indices := map fst race_candidate_party in
  _ ← precinct_cols df;
  total_cols ← total_cols df;
  precinct_data ← loop (add_precinct df filtered_indices) total_cols [];
  let result_df :=
    [("RaceTitle",
      map (fun r : nat * (cell * cell) => r.2.1) race_candidate_party);
     ("CandidateName",
      map (fun r : nat * (cell * cell) => r.2.2) race_candidate_party)] in
  Return (Some (foldl (fun result_df pv => assign pv.1 pv.2 result_df)
                      result_df precinct_data)).

End TeamA2016.

(** * Closed forms, preconditions and sample inputs

    The definitions the properties below are stated with: what the loops
    of the scripts compute when nothing raises, the conditions under which
    nothing raises, and the concrete sheets used as instances. *)

Import Processor.
Import TeamA.

(** The office names of the tracked set, as the specification lists
    them. *)
Definition tracked_offices : list string :=
  ["president"; "governor"; "u.s. senator"; "u.s. representative";
   "state senator"; "state representative"].

(** The name a trimmed header is kept under, if it is kept. *)
Definition resolved_name (header_clean : string) : option string :=
  if Py.in_list header_clean Processor.metadata_columns then Some header_clean
  else if Py.endswith header_clean " Total"
            && Py.contains "-" (Py.drop_last 6 header_clean)
       then Some (Py.drop_last 6 header_clean)
       else None.

(** The kept columns of a header row, counting positions from [n]. *)
Fixpoint resolved_from (n : nat) (header_row : list cell) : list (nat * string) :=
  match header_row with
  | [] => []
  | CStr h :: rest =>
      match resolved_name (Py.strip h) with
      | Some name => (n, name) :: resolved_from (S n) rest
      | None => resolved_from (S n) rest
      end
  | _ :: rest => resolved_from (S n) rest
  end.

(** A header row with metadata, a precinct total, a county total and an
    absentee column. *)
Definition sample_header : list cell :=
  [CStr "RaceTitle"; CStr " CandidateName"; CNone; CStr "Polk-1 Total";
   CStr "Polk Total"; CStr "Polk-1 Absentee"].

(** Position and trimmed name of each precinct column of a header row. *)
Fixpoint precinct_columns_from (n : nat) (headers : list cell)
  : list (nat * string) :=
  match headers with
  | [] => []
  | h :: rest =>
      match h with
      | CStr s =>
          if truthy h && negb (Py.in_list (Py.strip s) metadata_cols)
          then (n, Py.strip s) :: precinct_columns_from (S n) rest
          else precinct_columns_from (S n) rest
      | _ => precinct_columns_from (S n) rest
      end
  end.

(** The precinct columns of a county file. *)
Definition precinct_columns (f : county_file) : list (nat * string) :=
  precinct_columns_from 0 (header (sheet f)).

(** The cells of a row under the given column positions. *)
Definition cells_at (indices : list nat) (row : list cell) : list cell :=
  map (fun i => nth i row CNone) indices.

(** The precinct votes of one data row of a county file. *)
Definition precinct_votes (f : county_file) (row : list cell) : list cell :=
  cells_at (map fst (precinct_columns f)) row.

(** What file [f] contributes to merged row [k]: the precinct votes of its
    own row [k], nothing when it has no such row. *)
Definition votes_at (f : county_file) (k : nat) : list cell :=
  match rows (sheet f) !! k with
  | Some row => precinct_votes f row
  | None => []
  end.

(** The finding of the base-structure check for data row [kr.1], if
    any. *)
Definition mismatch_at (county : string) (base_rows : list (cell * cell))
    (kr : nat * list cell) : list finding :=
  let race_title := nth 0 kr.2 CNone in
  let candidate := nth 1 kr.2 CNone in
  match base_rows !! kr.1 with
  | Some (expected_race, expected_candidate) =>
      if cell_neqb race_title expected_race
         || cell_neqb candidate expected_candidate
      then [RowMismatch county expected_race expected_candidate
                        race_title candidate]
      else []
  | None => []
  end.

(** The row mismatches of a county file, in row order. *)
Definition mismatches (base_rows : list (cell * cell)) (f : county_file)
  : list finding :=
  flat_map (mismatch_at (county_name f) base_rows) (enumerate (rows (sheet f))).

(** A county file the merge reads without an exception: text or blank
    headers, rows as wide as the header, both key columns present. *)
Definition well_formed_file (f : county_file) : Prop :=
  Forall text_or_blank (header (sheet f))
  /\ rectangular (sheet f)
  /\ 2 <= length (header (sheet f)).

(** What the row loop started at row index [k] on the rows [rs] appends
    to merged row [j]. *)
Definition extra_cells (indices : list nat) (k : nat) (rs : list (list cell))
    (j : nat) : list cell :=
  if decide (k <= j)
  then match rs !! (j - k) with
       | Some row => cells_at indices row
       | None => []
       end
  else [].

(** The finding of check 1 for one enumerated row, if any. *)
Definition column_finding (expected_cols : nat) (ir : nat * list cell)
  : list finding :=
  if bool_decide (length ir.2 = expected_cols)
  then []
  else [ColumnCount (ir.1 + 2) (length ir.2) expected_cols].

(** The race title the pattern check works on. *)
Definition title_of (r0 : cell) : string :=
  match r0 with
  | CStr s => Py.lower s
  | _ => EmptyString
  end.

(** The finding of check 2 for one row, if any. *)
Definition pattern_finding (total : nat) (row : list cell) : list finding :=
  let title := title_of (nth 0 row CNone) in
  if negb (is_statewide title)
     && (count_precincts_with_votes (drop 2 row) =? total)
  then [Suspicious title (nth 1 row CNone)]
  else [].

(** A table on which check 2 does not raise: both key cells in every
    row, race titles text or blank. *)
Definition checkable (data : list (list cell)) : Prop :=
  Forall (fun row => 2 <= length row /\ text_or_blank (nth 0 row CNone)) data.

(** The data rows a completed run saves: the key of each row of the
    first file, then what each file contributes to that row, in file
    order. *)
Definition merged_rows (first : county_file) (files : list county_file)
  : list (list cell) :=
  imap (fun k row => [nth 0 row CNone; nth 1 row CNone]
                     ++ flat_map (fun f => votes_at f k) files)
       (rows (sheet first)).

(** [total_precincts] at the end of the main loop. *)
Definition merged_total (files : list county_file) : nat :=
  length (flat_map precinct_columns files).

(** [problems_found] at the end of a completed run: row mismatches, then
    column-count findings, then suspicious vote patterns. *)
Definition merge_problems (first : county_file) (files : list county_file)
  : list finding :=
  flat_map (mismatches (base_rows_of (sheet first))) files
  ++ flat_map (column_finding (2 + merged_total files))
              (enumerate (merged_rows first files))
  ++ flat_map (pattern_finding (merged_total files)) (merged_rows first files).

(** A run on which nothing raises: every file is well formed, no file has
    more data rows than the first, and the first file's race titles are
    text or blank. *)
Definition well_formed_run (first : county_file) (rest : list county_file)
  : Prop :=
  Forall well_formed_file (first :: rest)
  /\ Forall (fun f => length (rows (sheet f)) <= length (rows (sheet first))) rest
  /\ Forall (fun row => text_or_blank (nth 0 row CNone)) (rows (sheet first)).

(** Two county files with the same two candidates, the second with its
    rows swapped; a third with one row more than the first. *)
Definition adair : county_file :=
  {| county_name := "Adair";
     sheet := {| header := [CStr "RaceTitle"; CStr "CandidateName";
                            CStr "PoliticalPartyName"; CStr "Adair-1"];
                 rows := [[CStr "President"; CStr "A"; CStr "REP"; CInt 5];
                          [CStr "State Rep 1"; CStr "B"; CStr "DEM"; CInt 3]] |} |}.

Definition polk_swapped : county_file :=
  {| county_name := "Polk";
     sheet := {| header := [CStr "RaceTitle"; CStr "CandidateName";
                            CStr "Polk-1"; CStr "Polk-2"];
                 rows := [[CStr "State Rep 1"; CStr "B"; CInt 7; CInt 1];
                          [CStr "President"; CStr "A"; CInt 9; CNone]] |} |}.

Definition polk_longer : county_file :=
  {| county_name := "Polk";
     sheet := {| header := [CStr "RaceTitle"; CStr "CandidateName"; CStr "Polk-1"];
                 rows := [[CStr "President"; CStr "A"; CInt 7];
                          [CStr "State Rep 1"; CStr "B"; CInt 9];
                          [CStr "State Rep 2"; CStr "C"; CInt 4]] |} |}.

(** A precinct cell that holds a vote count above zero. *)
Definition positive_count (c : cell) : Prop :=
  exists n, c = CInt n /\ (0 < n)%Z.

(** The findings a report displays. *)
Definition shown_problems (report : list report_line) : list finding :=
  flat_map (fun line => match line with Problem p => [p] | _ => [] end) report.

(** A merged table with a district race voted in both precincts and a
    statewide race. *)
Definition district_table : list (list cell) :=
  [[CStr "State Rep 1"; CStr "B"; CInt 3; CInt 9];
   [CStr "President"; CStr "A"; CInt 5; CInt 0]].


(** What a frame contributes to the row of a key: one of its rows with
    that key, or missing values under each of its precinct columns when
    it has none. *)
Definition segment_of (key : cell * cell) (df : TeamA.county_frame)
    (seg : list cell) : Prop :=
  ((key ∉ TeamA.keys_of df)
   /\ seg = replicate (length (TeamA.precinct_cols df)) CNone)
  \/ (exists r, r ∈ TeamA.frame_rows df /\ r.1 = key /\ seg = r.2).

(** One [sort_values]: rows in the order of their keys, text by code
    point, numbers before text, blanks last. *)
Definition cell_leb (c1 c2 : cell) : bool :=
  match c1, c2 with
  | _, CNone => true
  | CNone, _ => false
  | CInt n1, CInt n2 => (n1 <=? n2)%Z
  | CInt _, CStr _ => true
  | CStr _, CInt _ => false
  | CStr s1, CStr s2 => String.leb s1 s2
  end.

(** Keys in the order of race title, then candidate name. *)
Definition key_leb (k1 k2 : cell * cell) : bool :=
  if bool_decide (k1.1 = k2.1) then cell_leb k1.2 k2.2 else cell_leb k1.1 k2.1.

(** Insertion sort on the keys. *)
Fixpoint insert_row (r : TeamA.merged_row) (l : list TeamA.merged_row)
  : list TeamA.merged_row :=
  match l with
  | [] => [r]
  | r' :: l' =>
      if key_leb (TeamA.row_key r) (TeamA.row_key r')
      then r :: l
      else r' :: insert_row r l'
  end.

Definition sort_by_key (l : list TeamA.merged_row) : list TeamA.merged_row :=
  foldr insert_row [] l.

(** Two extracted frames with one candidate each and no candidate in
    common. *)
Definition adair_frame : TeamA.county_frame :=
  {| TeamA.precinct_cols := ["Adair-1"];
     TeamA.frame_rows := [((CStr "President", CStr "A"), [CInt 5])] |}.

Definition polk_frame : TeamA.county_frame :=
  {| TeamA.precinct_cols := ["Polk-1"; "Polk-2"];
     TeamA.frame_rows := [((CStr "President", CStr "Z"), [CInt 1; CInt 2])] |}.

(** The cell of a frame at a row and a column. *)
Definition cell_at (df : frame) (r c : nat) : cell :=
  nth c (nth r (cells df) []) CNone.

(** A frame with the three header rows, as wide as it says. *)
Definition readable_frame (df : frame) : Prop :=
  rectangular_frame df /\ 3 <= length (cells df).

(** The first offset of the window whose column is inside the sheet and
    labelled as a total. *)
Fixpoint first_total (df : frame) (col_idx : nat) (offsets : list nat)
  : option nat :=
  match offsets with
  | [] => None
  | offset :: rest =>
      if (col_idx + offset <? ncols df)
         && is_total (cell_at df 2 (col_idx + offset))
      then Some (col_idx + offset)
      else first_total df col_idx rest
  end.

(** A race sheet with three candidates and two precincts; the last
    candidate has no total column, one total is blank and one is text. *)
Definition ballot_sheet : frame :=
  {| ncols := 8;
     cells :=
       [[CStr "Governor"; CNone; CNone; CNone; CNone; CNone; CNone; CNone];
        [CNone; CStr "Alice"; CNone; CNone; CStr "Bob"; CNone; CNone; CStr "Carl"];
        [CNone; CStr "Election Day"; CStr "Absentee"; CStr "Total Votes";
         CStr "Election Day"; CStr "Absentee"; CStr "Total Votes";
         CStr "Election Day"];
        [CStr "P1"; CInt 1; CInt 2; CInt 3; CInt 4; CInt 5; CNone; CInt 1];
        [CStr "P2"; CInt 1; CInt 2; CStr "x"; CInt 4; CInt 5; CInt 9; CInt 1];
        [CStr "Total:"; CInt 2; CInt 4; CInt 6; CInt 8; CInt 10; CInt 9; CInt 2]] |}.

(** The record of one candidate at one precinct row. *)
Definition record_of (county : string) (df : frame) (race_title : cell)
    (cc pr : cell * nat) : vote_record :=
  {| RaceTitle := race_title;
     CandidateName := cc.1;
     PrecinctName := (county, pr.1);
     Votes := votes_or_zero (cell_at df pr.2 cc.2) |}.

(** A sheet that can be read at all: rectangular, with a first cell. *)
Definition sheet_frame (df : frame) : Prop :=
  rectangular_frame df /\ 0 < ncols df /\ 0 < length (cells df).

(** A data row the flat parser keeps. *)
Definition wanted (row : list cell) : bool :=
  is_race_we_want (nth 0 row CNone).

(** A kept row on the kept columns. *)
Definition projected (columns_to_keep : list (nat * string)) (row : list cell)
  : list cell :=
  map (fun c => nth c.1 row CNone) columns_to_keep.

(** A flat sheet with two kept races, a dropped one, a blank vote cell
    and a text vote cell. *)
Definition flat_sheet : worksheet :=
  {| header := [CStr "RaceTitle"; CStr "CandidateName"; CStr "Polk-1 Total";
                CStr "Polk-1 Absentee"; CStr "Polk-2 Total"];
     rows := [[CStr "Governor"; CStr "A"; CInt 5; CInt 1; CNone];
              [CStr "Judge"; CStr "J"; CInt 8; CInt 2; CInt 3];
              [CStr "Governor"; CStr "B"; CStr "n/a"; CInt 0; CInt 7]] |}.

(** A county file with one data row fewer than [adair], and one with the
    same rows as [adair] in the same order. *)
Definition polk_short : county_file :=
  {| county_name := "Polk";
     sheet := {| header := [CStr "RaceTitle"; CStr "CandidateName"; CStr "Polk-1"];
                 rows := [[CStr "President"; CStr "A"; CInt 7]] |} |}.

Definition polk_aligned : county_file :=
  {| county_name := "Polk";
     sheet := {| header := [CStr "RaceTitle"; CStr "CandidateName";
                            CStr "Polk-1"; CStr "Polk-2"];
                 rows := [[CStr "President"; CStr "A"; CInt 9; CNone];
                          [CStr "State Rep 1"; CStr "B"; CInt 7; CInt 1]] |} |}.

(** A county file whose first race title is a number. *)
Definition year_titled : county_file :=
  {| county_name := "Story";
     sheet := {| header := [CStr "RaceTitle"; CStr "CandidateName"; CStr "Story-1"];
                 rows := [[CInt 2016; CStr "A"; CInt 7]] |} |}.
(** A cell that check 2 counts as a precinct with votes: a number above
    zero, or text that [int] reads as one. *)
Definition counts_as_votes (v : cell) : Prop :=
  exists n, (0 < n)%Z
            /\ (v = CInt n \/ exists s, v = CStr s /\ Py.int_of_str s = Some n).

(** A merged table of a run whose files have no precinct column. *)
Definition keys_only_table : list (list cell) :=
  [[CStr "State Rep 1"; CStr "B"]; [CStr "Governor"; CStr "G"];
   [CNone; CStr "C"]].
(** A candidate found by the scan from column [col] on: a non-blank name
    cell of row 1 at or after [col], and the first total label of row 2
    at or after the name, fewer than five columns away. *)
Definition found_candidate (df : frame) (col : nat) (cc : cell * nat) : Prop :=
  isna cc.1 = false
  /\ exists c, col <= c /\ c <= cc.2 < c + 5 /\ cc.2 < ncols df
               /\ cell_at df 1 c = cc.1
               /\ is_total (cell_at df 2 cc.2) = true.


(** The precinct rows of a sheet: the labels of column 0 from row 3 on,
    up to the first blank or total label, with their row numbers. *)
Definition precinct_rows (df : frame) : list (cell * nat) :=
  collect_precincts 3 (map (fun row => nth 0 row CNone) (drop 3 (cells df))).

(** The candidates of a sheet, none when the scan raises. *)
Definition candidates_of (df : frame) : list (cell * nat) :=
  match parse_candidates df 1 [] with
  | Ok candidates => candidates
  | Raise _ => []
  end.

(** The records of one sheet: none under a blank title, else one per
    candidate and precinct row, candidate by candidate. *)
Definition sheet_records (county : string) (df : frame) : list vote_record :=
  if isna (cell_at df 0 0) then []
  else flat_map (fun cc => map (record_of county df (cell_at df 0 0) cc)
                               (precinct_rows df))
                (candidates_of df).

(** The sheets of a workbook that are read. *)
Definition data_sheets (workbook : list (string * frame))
  : list (string * frame) :=
  filter (fun s => Py.in_list s.1 skipped_sheets = false) workbook.

(** A sheet with no cell. *)
Definition empty_frame (df : frame) : Prop :=
  cells df = [] \/ ncols df = 0.

(** The lower-case keywords that one of the two race filters has and the
    other has not. *)
Definition unshared_keywords : list string :=
  ["united states senator"; "united states representative";
   "u.s. senator"; "u.s. rep"; "state senator"].

(** How many rows of a frame carry a key. *)
Definition occurrences (key : cell * cell) (df : county_frame) : nat :=
  length (filter (fun r : (cell * cell) * list cell => r.1 = key)
                 (frame_rows df)).

(** How many rows the merged table has for a key that some frame
    carries: one per combination of the rows that carry it, a frame
    without the key counting once. *)
Definition row_copies (key : cell * cell) (all_data : list county_frame)
  : nat :=
  foldr (fun df n => Nat.max 1 (occurrences key df) * n) 1 all_data.

(** A frame whose rows have one value under each precinct column. *)
Definition rectangular_county_frame (df : county_frame) : Prop :=
  Forall (fun r : (cell * cell) * list cell =>
            length r.2 = length (precinct_cols df)) (frame_rows df).

(** A frame that lists one candidate twice. *)
Definition polk_twice : county_frame :=
  {| precinct_cols := ["Polk-1"];
     frame_rows := [((CStr "President", CStr "A"), [CInt 1]);
                    ((CStr "President", CStr "A"), [CInt 2])] |}.

(** The 2016 parser: the frame has the two key columns. *)
Definition has_key_columns (df : TeamA2016.table) : Prop :=
  CStr "RaceTitle" ∈ TeamA2016.labels df
  /\ (CStr " CandidateName" ∈ TeamA2016.labels df
      \/ CStr "CandidateName" ∈ TeamA2016.labels df).

(** The values under a label, none when the label is missing. *)
Definition values_of (df : TeamA2016.table) (label : string) : list cell :=
  match TeamA2016.column df label with
  | TeamA2016.Return values => values
  | TeamA2016.Throw _ => []
  end.

Definition is_text (c : cell) : bool :=
  match c with CStr _ => true | _ => false end.

(** The label the candidate names are read from. *)
Definition candidate_label (df : TeamA2016.table) : string :=
  if bool_decide (CStr " CandidateName" ∈ TeamA2016.labels df)
  then " CandidateName" else "CandidateName".

(** The rows of a wanted race, with their index, title and candidate. *)
Definition kept_rows (df : TeamA2016.table) : list (nat * (cell * cell)) :=
  filter (fun r : nat * (cell * cell) => race_matches r.2.1 = true)
         (enumerate (zip (values_of df "RaceTitle")
                         (values_of df (candidate_label df)))).

(** A label that names a precinct total. *)
Definition is_total_label (s : string) : bool :=
  Py.endswith (Py.strip s) "Total"
  && negb (Py.endswith (Py.strip s) "Adair Total").

(** The text of the labels, in order. *)
Definition texts (l : list cell) : list string :=
  omap (fun c => match c with CStr s => Some s | _ => None end) l.

Definition total_labels (df : TeamA2016.table) : list string :=
  List.filter is_total_label (texts (TeamA2016.labels df)).

(** The precinct column a total column gives: its cleaned name and its
    values at the kept rows. *)
Definition precinct_column (df : TeamA2016.table) (s : string)
  : string * list cell :=
  (TeamA2016.precinct_name s,
   map (fun r : nat * (cell * cell) => nth r.1 (values_of df s) CNone)
       (kept_rows df)).

(** A 2016 county sheet: a county total, two precinct totals with their
    parts, one race that is not wanted. *)
Definition adair_2016 : TeamA2016.table :=
  {| TeamA2016.labels :=
       [CStr "RaceTitle"; CStr " CandidateName"; CStr " Adair-1NW Polling";
        CStr " Adair-1NW Total"; CStr " Adair-2NE Total"; CStr " Adair Total"];
     TeamA2016.body :=
       [[CStr "President/Vice President"; CStr "A"; CInt 3; CInt 5; CNone; CInt 5];
        [CStr "County Sheriff"; CStr "S"; CInt 1; CInt 2; CInt 3; CInt 5];
        [CStr "US Rep Dist 3"; CStr "B"; CInt 4; CInt 6; CInt 1; CInt 7]] |}.

(** The same sheet with a year as a header cell. *)
Definition adair_2016_year : TeamA2016.table :=
  {| TeamA2016.labels := TeamA2016.labels adair_2016 ++ [CInt 2016];
     TeamA2016.body := map (fun row => row ++ [CNone]) (TeamA2016.body adair_2016) |}.

#[global] Instance has_key_columns_dec df : Decision (has_key_columns df).
Proof. unfold has_key_columns. apply _. Defined.

(** The frame the 2016 parser returns: the two key columns at the kept
    rows, then one assignment per total column, in label order, first
    into the dict of precinct data and from there into the frame. *)
Definition result_frame (df : TeamA2016.table) : list (string * list cell) :=
  foldl (fun result_df (pv : string * list cell) =>
           TeamA2016.assign pv.1 pv.2 result_df)
        [("RaceTitle",
          map (fun r : nat * (cell * cell) => r.2.1) (kept_rows df));
         ("CandidateName",
          map (fun r : nat * (cell * cell) => r.2.2) (kept_rows df))]
        (foldl (fun d s =>
                  TeamA2016.assign (TeamA2016.precinct_name s)
                    (map (fun i => nth i (values_of df s) CNone)
                         (map fst (kept_rows df))) d)
               [] (total_labels df)).

(** White space only. *)
Fixpoint all_space (s : string) : bool :=
  match s with
  | EmptyString => true
  | String c r => Py.is_space c && all_space r
  end.

(** The column under a label of a frame given by its columns. *)
Fixpoint column_of {V} (k : string) (d : list (string * V)) : option V :=
  match d with
  | [] => None
  | (k', v) :: d' => if String.eqb k' k then Some v else column_of k d'
  end.

(** The two key columns of the result frame. *)
Definition key_columns (df : TeamA2016.table) : list (string * list cell) :=
  [("RaceTitle", map (fun r : nat * (cell * cell) => r.2.1) (kept_rows df));
   ("CandidateName", map (fun r : nat * (cell * cell) => r.2.2) (kept_rows df))].

(** A sheet where two total labels are cleaned to the same name. *)
Definition adair_2016_twice : TeamA2016.table :=
  {| TeamA2016.labels :=
       [CStr "RaceTitle"; CStr "CandidateName"; CStr "Adair-1 Total";
        CStr " Adair-1 Total"];
     TeamA2016.body := [[CStr "Governor"; CStr "G"; CInt 1; CInt 2]] |}.

(** A key of text: race title and candidate name. *)
Definition text_key (k : cell * cell) : Prop :=
  is_text k.1 = true /\ is_text k.2 = true.

(** A frame with at least one row, whose keys are text: what the parsers
    give for sheets with text titles and text candidate names. *)
Definition text_keyed (df : county_frame) : Prop :=
  frame_rows df <> []
  /\ Forall (fun r : (cell * cell) * list cell => text_key r.1) (frame_rows df).

(** Precinct labels that differ from one another and from the three key
    labels of the saved table. *)
Definition distinct_labels (all_data : list county_frame) : Prop :=
  NoDup ("RaceTitle" :: "CandidateName" :: "PoliticalPartyName"
         :: mjoin (map precinct_cols all_data)).

(** What the properties take from pandas' check of the key columns: two
    columns that both hold text are joined. *)
Definition joins_text_keys (merge_keys_ok : list cell -> list cell -> bool)
  : Prop :=
  forall left right,
    Exists (fun c => is_text c = true) left ->
    Exists (fun c => is_text c = true) right ->
    merge_keys_ok left right = true.

(** One such check: both columns hold text, or neither does. *)
Definition keys_of_one_kind (left right : list cell) : bool :=
  Bool.eqb (existsb is_text left) (existsb is_text right).

(** A second frame that lists one candidate twice, under its own
    precinct. *)
Definition story_twice : county_frame :=
  {| precinct_cols := ["Story-1"];
     frame_rows := [((CStr "President", CStr "A"), [CInt 3]);
                    ((CStr "President", CStr "A"), [CInt 4])] |}.

(** A county file that names, in its first row, a candidate the first
    file does not have. *)
Definition polk_other : county_file :=
  {| county_name := "Polk";
     sheet := {| header := [CStr "RaceTitle"; CStr "CandidateName";
                            CStr "Polk-1"; CStr "Polk-2"];
                 rows := [[CStr "President"; CStr "Z"; CInt 7; CInt 1];
                          [CStr "State Rep 1"; CStr "B"; CInt 9; CNone]] |} |}.

(** A county file with the rows of [adair] in another order and one row
    more. *)
Definition polk_swapped_longer : county_file :=
  {| county_name := "Polk";
     sheet := {| header := [CStr "RaceTitle"; CStr "CandidateName";
                            CStr "Polk-1"; CStr "Polk-2"];
                 rows := [[CStr "State Rep 1"; CStr "B"; CInt 7; CInt 1];
                          [CStr "President"; CStr "A"; CInt 9; CNone];
                          [CStr "State Rep 2"; CStr "C"; CInt 4; CInt 2]] |} |}.


(** A workbook whose only race sheet has a year as its title. *)
Definition year_workbook : list (string * frame) :=
  [("Table of Contents", {| ncols := 0; cells := [] |});
   ("2016",
    {| ncols := 4;
       cells := [[CInt 2016; CNone; CNone; CNone];
                 [CNone; CStr "Alice"; CNone; CNone];
                 [CNone; CStr "Election Day"; CStr "Absentee"; CStr "Total Votes"];
                 [CStr "P1"; CInt 1; CInt 2; CInt 3]] |})].

(** A frame with a precinct column under the name of the party column. *)
Definition party_frame : county_frame :=
  {| precinct_cols := ["Polk-1"; "PoliticalPartyName"];
     frame_rows := [((CStr "President", CStr "Z"), [CInt 1; CStr "REP"])] |}.

(** A second Polk frame, with a precinct label that [polk_frame] has
    too. *)
Definition polk_late : county_frame :=
  {| precinct_cols := ["Polk-1"; "Polk-3"];
     frame_rows := [((CStr "President", CStr "Z"), [CInt 4; CInt 6])] |}.

(** The labels of the first of two frames that the second has too. *)
Definition shared_labels (df1 df2 : county_frame) : list string :=
  List.filter (fun x => Py.in_list x (precinct_cols df2)) (precinct_cols df1).

(** * Properties *)

(** ** Loops and indexing *)

Section Loops.
Context {A B St : Type}.

Lemma index_Some (l : list A) i a : l !! i = Some a -> index l i = Ok a.
Proof. unfold index. intros ->. reflexivity. Qed.

Lemma index_lt (l : list A) i :
  i < length l -> exists a, l !! i = Some a /\ index l i = Ok a.
Proof.
  intros Hi. destruct (proj2 (lookup_lt_is_Some l i) Hi) as [a Ha].
  exists a. split; [exact Ha | exact (index_Some _ _ _ Ha)].
Qed.

Lemma index_nth (l : list A) i d : i < length l -> index l i = Ok (nth i l d).
Proof.
  intros Hi. apply index_Some.
  destruct (nth_lookup_or_length l i d) as [H|H]; [exact H | lia].
Qed.

Lemma index_raises (l : list A) i e : index l i = Raise e -> e = IndexError.
Proof. unfold index. destruct (l !! i); [discriminate | congruence]. Qed.

Lemma index_ge (l : list A) i : length l <= i -> index l i = Raise IndexError.
Proof. intros Hi. unfold index. rewrite lookup_ge_None_2; [reflexivity | lia]. Qed.

Lemma for_each_app (body : St -> A -> result St) l1 l2 s :
  for_each body (l1 ++ l2) s = (s' ← for_each body l1 s; for_each body l2 s').
Proof.
  revert s. induction l1 as [|a l1 IH]; intros s; simpl; [reflexivity|].
  destruct (body s a) as [s'|e]; simpl; [apply IH | reflexivity].
Qed.

(** A loop whose body never raises is a left fold. *)
Lemma for_each_pure (body : St -> A -> result St) (step : St -> A -> St) l s :
  (forall s a, a ∈ l -> body s a = Ok (step s a)) ->
  for_each body l s = Ok (foldl step s l).
Proof.
  revert s. induction l as [|a l IH]; intros s Hb; simpl; [reflexivity|].
  rewrite Hb by left. simpl. apply IH. intros s' a' Ha'. apply Hb. now right.
Qed.

Lemma comprehension_pure (f : A -> result B) (g : A -> B) l :
  (forall a, a ∈ l -> f a = Ok (g a)) -> comprehension f l = Ok (map g l).
Proof.
  induction l as [|a l IH]; intros Hf; simpl; [reflexivity|].
  rewrite Hf by left. simpl. rewrite IH; [reflexivity|].
  intros a' Ha'. apply Hf. now right.
Qed.

Lemma comprehension_length (f : A -> result B) l bs :
  comprehension f l = Ok bs -> length bs = length l.
Proof.
  revert bs. induction l as [|a l IH]; intros bs; simpl.
  - intros [= <-]. reflexivity.
  - destruct (f a) as [b|e]; simpl; [|discriminate].
    destruct (comprehension f l) as [bs'|e]; simpl; [|discriminate].
    intros [= <-]. simpl. f_equal. now apply IH.
Qed.

Lemma comprehension_raises (f : A -> result B) l e e0 :
  (forall a e', f a = Raise e' -> e' = e0) ->
  comprehension f l = Raise e -> e = e0.
Proof.
  intros Hf. induction l as [|a l IH]; simpl; [discriminate|].
  destruct (f a) as [b|e1] eqn:Ha; simpl.
  - destruct (comprehension f l) as [bs|e2]; simpl; [discriminate|].
    intros [= <-]. now apply IH.
  - intros [= <-]. exact (Hf _ _ Ha).
Qed.

Lemma enumerate_from_lookup (l : list A) n i :
  enumerate_from n l !! i = (fun a => (n + i, a)) <$> l !! i.
Proof.
  revert n i. induction l as [|a l IH]; intros n [|i]; simpl; try reflexivity.
  - now rewrite Nat.add_0_r.
  - rewrite IH. now replace (S n + i) with (n + S i) by lia.
Qed.

Lemma elem_of_enumerate_from (l : list A) n i a :
  (i, a) ∈ enumerate_from n l <-> n <= i /\ l !! (i - n) = Some a.
Proof.
  rewrite list_elem_of_lookup. split.
  - intros [j Hj]. rewrite enumerate_from_lookup in Hj.
    destruct (l !! j) as [a'|] eqn:Hl; simpl in Hj; [|discriminate].
    injection Hj as <- <-. split; [lia|].
    now replace (n + j - n) with j by lia.
  - intros [Hle Hl]. exists (i - n). rewrite enumerate_from_lookup, Hl. simpl.
    now replace (n + (i - n)) with i by lia.
Qed.

Lemma enumerate_from_app (l1 l2 : list A) n :
  enumerate_from n (l1 ++ l2)
  = enumerate_from n l1 ++ enumerate_from (n + length l1) l2.
Proof.
  revert n. induction l1 as [|a l1 IH]; intros n; simpl.
  - now rewrite Nat.add_0_r.
  - rewrite IH. now replace (S n + length l1) with (n + S (length l1)) by lia.
Qed.

End Loops.

(** ** Strings *)

Lemma prefix_app s t : String.prefix s (s +:+ t) = true.
Proof.
  induction s as [|c s IH].
  - now destruct t.
  - change (String.prefix (String c s) (String c (s +:+ t)) = true).
    cbn [String.prefix]. destruct (ascii_dec c c); [exact IH | congruence].
Qed.

Lemma contains_prefix sub s :
  String.prefix sub s = true -> Py.contains sub s = true.
Proof. destruct s; simpl; intros ->; reflexivity. Qed.

Lemma contains_app sub pre post :
  Py.contains sub (pre +:+ sub +:+ post) = true.
Proof.
  induction pre as [|c pre IH].
  - change (Py.contains sub (sub +:+ post) = true).
    apply contains_prefix, prefix_app.
  - change (Py.contains sub (String c (pre +:+ sub +:+ post)) = true).
    cbn [Py.contains]. rewrite IH. apply orb_true_r.
Qed.

Lemma prefix_inv sub s :
  String.prefix sub s = true -> exists post, s = sub +:+ post.
Proof.
  revert s. induction sub as [|c sub IH]; intros s.
  - intros _. now exists s.
  - destruct s as [|c' s]; [discriminate|]. cbn [String.prefix].
    destruct (ascii_dec c c') as [->|]; [|discriminate].
    intros H. destruct (IH _ H) as [post ->]. now exists post.
Qed.

Lemma contains_inv sub s :
  Py.contains sub s = true -> exists pre post, s = pre +:+ sub +:+ post.
Proof.
  induction s as [|c s IH]; cbn [Py.contains].
  - rewrite orb_false_r. intros H. destruct (prefix_inv _ _ H) as [post ->].
    now exists EmptyString, post.
  - intros H. apply orb_true_iff in H as [H|H].
    + destruct (prefix_inv _ _ H) as [post ->]. now exists EmptyString, post.
    + destruct (IH H) as (pre & post & ->). now exists (String c pre), post.
Qed.

Lemma lower_app s t : Py.lower (s +:+ t) = Py.lower s +:+ Py.lower t.
Proof.
  induction s as [|c s IH]; [reflexivity|].
  change (Py.lower (String c (s +:+ t))
          = String (Py.lower_char c) (Py.lower s +:+ Py.lower t)).
  cbn [Py.lower]. now rewrite IH.
Qed.

#[global] Arguments Py.in_list : simpl never.
#[global] Arguments Py.strip : simpl never.
#[global] Arguments Py.lower : simpl never.
#[global] Arguments Py.contains : simpl never.
#[global] Arguments Py.endswith : simpl never.
#[global] Arguments Py.drop_last : simpl never.
#[global] Arguments Py.int_of_str : simpl never.

Lemma append_assoc s t u : (s +:+ t) +:+ u = s +:+ t +:+ u.
Proof.
  induction s as [|c s IH]; [reflexivity|].
  change (String c ((s +:+ t) +:+ u) = String c (s +:+ t +:+ u)).
  now rewrite IH.
Qed.

(** ** The race classifier *)

Lemma is_race_we_want_not_text c :
  (forall s, c <> CStr s) -> Processor.is_race_we_want c = false.
Proof. destruct c as [|s|n]; intros H; [reflexivity| |reflexivity]. now destruct (H s). Qed.

Lemma is_race_we_want_iff s :
  Processor.is_race_we_want (CStr s) = true <->
  exists keyword, keyword ∈ Processor.races_to_keep
                  /\ Py.contains keyword (Py.lower s) = true.
Proof.
  unfold Processor.is_race_we_want. rewrite existsb_exists.
  split; intros (k & Hk & Hc); exists k; split; try exact Hc.
  - now apply list_elem_of_In.
  - now apply list_elem_of_In.
Qed.

(** A title that holds a keyword in any letter case is kept. *)
Lemma is_race_we_want_keyword pre variant post keyword :
  keyword ∈ Processor.races_to_keep ->
  Py.lower variant = keyword ->
  Processor.is_race_we_want (CStr (pre +:+ variant +:+ post)) = true.
Proof.
  intros Hk Hv. apply is_race_we_want_iff. exists keyword. split; [exact Hk|].
  rewrite !lower_app, Hv. apply contains_app.
Qed.

Lemma tracked_office_kept office pre variant post :
  office ∈ tracked_offices ->
  Py.lower variant = office ->
  Processor.is_race_we_want (CStr (pre +:+ variant +:+ post)) = true.
Proof.
  intros Ho Hv. apply is_race_we_want_iff.
  assert (exists keyword, keyword ∈ Processor.races_to_keep
                          /\ Py.contains keyword office = true) as (k & Hk & Hc).
  { unfold tracked_offices in Ho.
    repeat (apply elem_of_cons in Ho as [->|Ho]);
      [ exists "president" | exists "governor" | exists "u.s. senator"
      | exists "u.s. rep" | exists "state senator" | exists "state rep" | ];
      try (split; [apply list_elem_of_In; simpl; auto 10 | reflexivity]).
    now apply elem_of_nil in Ho. }
  exists k. split; [exact Hk|].
  rewrite !lower_app, Hv.
  destruct (contains_inv _ _ Hc) as (a & b & ->).
  rewrite !append_assoc, <- (append_assoc (Py.lower pre) a).
  apply contains_app.
Qed.

(** C6: the flat classifier has no keyword for the spelling "United
    States Senator": it drops that title, which the multi-year filter
    [TeamA.race_matches] keeps, while it keeps "U.S. Senator" and "State
    Senator", for which the multi-year filter has no pattern. *)
Lemma united_states_senator_dropped :
  Processor.is_race_we_want (CStr "United States Senator") = false
  /\ TeamA.race_matches (CStr "United States Senator") = true
  /\ Processor.is_race_we_want (CStr "U.S. Senator") = true
  /\ TeamA.race_matches (CStr "U.S. Senator") = false
  /\ Processor.is_race_we_want (CStr "State Senator") = true
  /\ TeamA.race_matches (CStr "State Senator") = false.
Proof. repeat split; vm_compute; reflexivity. Qed.

(** ** The column resolver *)

Lemma keep_columns_from header_row : forall n acc,
  Forall text_or_blank header_row ->
  for_each Processor.keep_column (enumerate_from n header_row) acc
  = Ok (acc ++ resolved_from n header_row).
Proof.
  induction header_row as [|h rest IH]; intros n acc Hty; simpl.
  - now rewrite app_nil_r.
  - apply Forall_cons in Hty as [Hh Hrest].
    destruct h as [|s|z]; simpl in *; [now apply IH| |contradiction].
    unfold resolved_name.
    destruct (Py.in_list (Py.strip s) Processor.metadata_columns); simpl.
    + rewrite IH by assumption. now rewrite <- app_assoc.
    + destruct (Py.endswith (Py.strip s) " Total"); simpl; [|now apply IH].
      destruct (Py.contains "-" (Py.drop_last 6 (Py.strip s))); simpl;
        [|now apply IH].
      rewrite IH by assumption. now rewrite <- app_assoc.
Qed.

Lemma elem_of_resolved_from header_row : forall n i name,
  (i, name) ∈ resolved_from n header_row <->
  n <= i /\ exists h, header_row !! (i - n) = Some (CStr h)
                      /\ resolved_name (Py.strip h) = Some name.
Proof.
  induction header_row as [|c rest IH]; intros n i name; simpl.
  - split; [intros H; now apply elem_of_nil in H | intros (_ & h & H & _); discriminate].
  - assert (Hrest : (i, name) ∈ resolved_from (S n) rest <->
              S n <= i /\ exists h, (c :: rest) !! (i - n) = Some (CStr h)
                                    /\ resolved_name (Py.strip h) = Some name).
    { rewrite IH. split; intros (Hle & h & Hl & Hr); (split; [lia|]); exists h;
        (split; [|exact Hr]).
      - replace (i - n) with (S (i - S n)) by lia. exact Hl.
      - replace (i - n) with (S (i - S n)) in Hl by lia. exact Hl. }
    assert (Hhere : forall h, c = CStr h ->
              (n <= i /\ exists h', (c :: rest) !! (i - n) = Some (CStr h')
                                   /\ resolved_name (Py.strip h') = Some name) <->
              (i = n /\ resolved_name (Py.strip h) = Some name) \/
              (S n <= i /\ exists h', (c :: rest) !! (i - n) = Some (CStr h')
                                     /\ resolved_name (Py.strip h') = Some name)).
    { intros h ->. split.
      - intros (Hle & h' & Hl & Hr). destruct (decide (i = n)) as [->|Hne].
        + left. split; [reflexivity|]. rewrite Nat.sub_diag in Hl. simpl in Hl.
          now injection Hl as ->.
        + right. split; [lia|]. now exists h'.
      - intros [[-> Hr]|(Hle & h' & Hl & Hr)].
        + split; [lia|]. exists h. rewrite Nat.sub_diag. now split.
        + split; [lia|]. now exists h'. }
    destruct c as [|h|z].
    + rewrite Hrest. split; intros (Hle & h & Hl & Hr).
      * split; [lia|]. now exists h.
      * split; [|now exists h]. destruct (decide (i = n)) as [->|]; [|lia].
        rewrite Nat.sub_diag in Hl. discriminate.
    + rewrite (Hhere h eq_refl).
      destruct (resolved_name (Py.strip h)) as [nm|] eqn:E.
      * rewrite elem_of_cons, Hrest. split; intros [H|H]; auto.
        -- injection H as -> ->. now left.
        -- destruct H as [-> [= ->]]. now left.
      * rewrite Hrest. split; [auto|]. intros [[_ H]|H]; [discriminate|exact H].
    + rewrite Hrest. split; intros (Hle & h & Hl & Hr).
      * split; [lia|]. now exists h.
      * split; [|now exists h]. destruct (decide (i = n)) as [->|]; [|lia].
        rewrite Nat.sub_diag in Hl. discriminate.
Qed.

Lemma resolved_from_sorted header_row : forall n,
  StronglySorted (fun a b : nat * string => a.1 < b.1) (resolved_from n header_row).
Proof.
  induction header_row as [|c rest IH]; intros n; simpl; [constructor|].
  assert (Hcons : forall name,
    StronglySorted (fun a b : nat * string => a.1 < b.1)
                   ((n, name) :: resolved_from (S n) rest)).
  { intros name. constructor; [apply IH|].
    apply Forall_forall. intros [i nm] Hin.
    apply elem_of_resolved_from in Hin as [Hle _]. simpl. lia. }
  destruct c as [|h|z]; try apply IH.
  destruct (resolved_name (Py.strip h)); [apply Hcons | apply IH].
Qed.

(** C5: on a header row of text and blank cells the resolver returns, in
    source column order, exactly the metadata columns under their trimmed
    names and the columns whose trimmed name ends with " Total" and has a
    hyphen before that suffix, under the name without the suffix; so no
    kept name is a bare county aggregate. *)
Theorem get_columns_to_keep_resolves (header_row : list cell) :
  Forall text_or_blank header_row ->
  exists columns_to_keep,
    Processor.get_columns_to_keep header_row = Ok columns_to_keep
    /\ (forall i name,
          (i, name) ∈ columns_to_keep <->
          exists h, header_row !! i = Some (CStr h) /\
            (Py.in_list (Py.strip h) Processor.metadata_columns = true
               /\ name = Py.strip h
             \/ Py.in_list (Py.strip h) Processor.metadata_columns = false
               /\ Py.endswith (Py.strip h) " Total" = true
               /\ Py.contains "-" (Py.drop_last 6 (Py.strip h)) = true
               /\ name = Py.drop_last 6 (Py.strip h)))
    /\ (forall i name,
          (i, name) ∈ columns_to_keep ->
          Py.in_list name Processor.metadata_columns = true
          \/ Py.contains "-" name = true)
    /\ StronglySorted (fun a b : nat * string => a.1 < b.1) columns_to_keep.
Proof.
  intros Hty. exists (resolved_from 0 header_row).
  assert (Hname : forall t name, resolved_name t = Some name <->
            (Py.in_list t Processor.metadata_columns = true /\ name = t
             \/ Py.in_list t Processor.metadata_columns = false
               /\ Py.endswith t " Total" = true
               /\ Py.contains "-" (Py.drop_last 6 t) = true
               /\ name = Py.drop_last 6 t)).
  { intros t name. unfold resolved_name.
    destruct (Py.in_list t Processor.metadata_columns).
    - split; [intros [= <-]; now left | intros [[_ ->]|[[=] _]]; reflexivity].
    - destruct (Py.endswith t " Total"); simpl.
      + destruct (Py.contains "-" (Py.drop_last 6 t)).
        * split; [intros [= <-]; right; now repeat split |].
          intros [[[=] _]|(_ & _ & _ & ->)]. reflexivity.
        * split; [discriminate|]. intros [[[=] _]|(_ & _ & [=] & _)].
      + split; [discriminate|]. intros [[[=] _]|(_ & [=] & _)]. }
  split; [|split; [|split]].
  - unfold Processor.get_columns_to_keep, enumerate.
    now rewrite keep_columns_from.
  - intros i name. rewrite elem_of_resolved_from, Nat.sub_0_r.
    split.
    + intros (_ & h & Hl & Hr). exists h. split; [exact Hl|]. now apply Hname.
    + intros (h & Hl & Hr). split; [lia|]. exists h. split; [exact Hl|].
      now apply Hname.
  - intros i name Hin. apply elem_of_resolved_from in Hin as (_ & h & _ & Hr).
    apply Hname in Hr as [[Hm ->]|(_ & _ & Hc & ->)]; [now left | now right].
  - apply resolved_from_sorted.
Qed.

Lemma get_columns_to_keep_resolves_witness :
  Forall text_or_blank sample_header
  /\ exists columns_to_keep,
       Processor.get_columns_to_keep sample_header = Ok columns_to_keep
       /\ ((3, "Polk-1") ∈ columns_to_keep <->
           exists h, sample_header !! 3 = Some (CStr h) /\
             (Py.in_list (Py.strip h) Processor.metadata_columns = true
                /\ "Polk-1" = Py.strip h
              \/ Py.in_list (Py.strip h) Processor.metadata_columns = false
                /\ Py.endswith (Py.strip h) " Total" = true
                /\ Py.contains "-" (Py.drop_last 6 (Py.strip h)) = true
                /\ "Polk-1" = Py.drop_last 6 (Py.strip h))).
Proof.
  assert (H : Forall text_or_blank sample_header)
    by (repeat constructor).
  split; [exact H|].
  destruct (get_columns_to_keep_resolves sample_header H) as (cols & Hc & Hin & _).
  exists cols. split; [exact Hc | apply Hin].
Defined.

(** ** The positional merge in closed form *)

Lemma precinct_columns_from_bound headers : forall n i name,
  (i, name) ∈ precinct_columns_from n headers ->
  n <= i < n + length headers
  /\ Py.in_list name metadata_cols = false.
Proof.
  induction headers as [|h rest IH]; intros n i name; simpl.
  - intros H. now apply elem_of_nil in H.
  - assert (Hrest : (i, name) ∈ precinct_columns_from (S n) rest ->
              n <= i < n + S (length rest)
              /\ Py.in_list name metadata_cols = false).
    { intros H. apply IH in H. split; [lia | tauto]. }
    destruct h as [|s|z]; try exact Hrest.
    destruct (truthy (CStr s) && negb (Py.in_list (Py.strip s) metadata_cols))
      eqn:E; [|exact Hrest].
    rewrite elem_of_cons. intros [[= -> ->]|H]; [|now apply Hrest].
    apply andb_true_iff in E as [_ E]. apply negb_true_iff in E.
    split; [lia | exact E].
Qed.

Lemma add_precinct_columns_from headers : forall n indices names,
  Forall text_or_blank headers ->
  for_each add_precinct_column (enumerate_from n headers) (indices, names)
  = Ok (indices ++ map fst (precinct_columns_from n headers),
        names ++ map snd (precinct_columns_from n headers)).
Proof.
  induction headers as [|h rest IH]; intros n indices names Hty; simpl.
  - now rewrite !app_nil_r.
  - apply Forall_cons in Hty as [Hh Hrest].
    destruct h as [|s|z]; simpl in *; [now apply IH| |contradiction].
    destruct (negb (s =? "")%string); simpl; [|now apply IH].
    destruct (Py.in_list (Py.strip s) metadata_cols); simpl; [now apply IH|].
    rewrite IH by assumption. now rewrite <- !app_assoc.
Qed.

Lemma add_row_ok county base_rows indices k data problems row m :
  2 <= length row ->
  Forall (fun i => i < length row) indices ->
  data !! k = Some m ->
  add_row county base_rows indices (k, data, problems) row
  = Ok (S k, <[k := m ++ cells_at indices row]> data,
        problems ++ mismatch_at county base_rows (k, row)).
Proof.
  intros Hw Hidx Hm. unfold add_row.
  rewrite (index_nth row 0 CNone) by lia. simpl.
  rewrite (index_nth row 1 CNone) by lia. simpl.
  rewrite (comprehension_pure (index row) (fun i => nth i row CNone)).
  2:{ intros i Hi. apply index_nth.
      rewrite Forall_forall in Hidx. apply Hidx. exact Hi. }
  simpl. rewrite (index_Some _ _ _ Hm). simpl.
  unfold mismatch_at. simpl.
  destruct (base_rows !! k) as [[er ec]|]; [|now rewrite app_nil_r].
  destruct (cell_neqb (nth 0 row CNone) er || cell_neqb (nth 1 row CNone) ec);
    [reflexivity | now rewrite app_nil_r].
Qed.

Lemma add_rows_from county base_rows indices rs : forall k data problems,
  Forall (fun row => 2 <= length row
                     /\ Forall (fun i => i < length row) indices) rs ->
  k + length rs <= length data ->
  exists data',
    for_each (add_row county base_rows indices) rs (k, data, problems)
    = Ok (k + length rs, data',
          problems ++ flat_map (mismatch_at county base_rows)
                               (enumerate_from k rs))
    /\ length data' = length data
    /\ forall j, data' !! j
                 = (fun m => m ++ extra_cells indices k rs j) <$> data !! j.
Proof.
  induction rs as [|row rs IH]; intros k data problems Hrs Hlen.
  - exists data. simpl. rewrite Nat.add_0_r, app_nil_r.
    split; [reflexivity|]. split; [reflexivity|].
    intros j. unfold extra_cells.
    destruct (data !! j); simpl; [|reflexivity].
    destruct (decide (k <= j)); now rewrite app_nil_r.
  - apply Forall_cons in Hrs as [[Hw Hidx] Hrs]. simpl in Hlen.
    destruct (proj2 (lookup_lt_is_Some data k) ltac:(lia)) as [m Hm].
    cbn [for_each]. rewrite (add_row_ok _ _ _ _ _ _ _ m Hw Hidx Hm).
    change (Ok ?a ≫= ?f) with (f a). cbv beta.
    match goal with |- context [for_each _ rs (S k, ?d, ?p)] =>
      destruct (IH (S k) d p Hrs) as (data' & Hrun & Hlen' & Hlook) end.
    { rewrite length_insert. lia. }
    exists data'. rewrite Hrun. rewrite length_insert in Hlen'.
    split; [|split; [exact Hlen'|]].
    + simpl. rewrite <- app_assoc.
      now replace (k + S (length rs)) with (S (k + length rs)) by lia.
    + intros j. rewrite Hlook. unfold extra_cells.
      destruct (decide (j = k)) as [->|Hne].
      * rewrite list_lookup_insert_eq by lia. rewrite Hm. simpl.
        destruct (decide (S k <= k)); [lia|].
        destruct (decide (k <= k)); [|lia].
        rewrite Nat.sub_diag. simpl. now rewrite app_nil_r.
      * rewrite list_lookup_insert_ne by congruence.
        destruct (data !! j); simpl; [|reflexivity].
        destruct (decide (S k <= j)), (decide (k <= j)); try lia; [|reflexivity].
        replace (j - k) with (S (j - S k)) by lia. reflexivity.
Qed.

Lemma extra_cells_votes_at (f : county_file) j :
  extra_cells (map fst (precinct_columns f)) 0 (rows (sheet f)) j = votes_at f j.
Proof.
  unfold extra_cells, votes_at, precinct_votes.
  destruct (decide (0 <= j)); [|lia]. now rewrite Nat.sub_0_r.
Qed.

Lemma well_formed_rows (f : county_file) :
  well_formed_file f ->
  Forall (fun row => 2 <= length row
            /\ Forall (fun i => i < length row) (map fst (precinct_columns f)))
         (rows (sheet f)).
Proof.
  intros (_ & Hrect & Hw). unfold rectangular in Hrect.
  eapply Forall_impl; [exact Hrect|]. intros row Hrow. simpl in Hrow.
  split; [lia|]. apply Forall_forall. intros i Hi.
  apply list_elem_of_fmap in Hi as ([i' name] & -> & Hin).
  apply precinct_columns_from_bound in Hin. simpl. lia.
Qed.

(** One county file, when it is well formed and no longer than the
    table. *)
Lemma add_county_ok base_rows (st : merge_state) (f : county_file) :
  well_formed_file f ->
  length (rows (sheet f)) <= length (merged_data st) ->
  exists data',
    add_county base_rows st f
    = Ok {| merged_headers := merged_headers st ++ map snd (precinct_columns f);
            merged_data := data';
            total_precincts := total_precincts st + length (precinct_columns f);
            problems_found := problems_found st ++ mismatches base_rows f |}
    /\ length data' = length (merged_data st)
    /\ forall j, data' !! j = (fun m => m ++ votes_at f j) <$> merged_data st !! j.
Proof.
  intros Hwf Hlen. unfold add_county, enumerate.
  rewrite add_precinct_columns_from by apply Hwf. simpl.
  change (precinct_columns_from 0 (header (sheet f))) with (precinct_columns f).
  destruct (add_rows_from (county_name f) base_rows
              (map fst (precinct_columns f))
              (rows (sheet f)) 0 (merged_data st) (problems_found st))
    as (data' & Hrun & Hlen' & Hlook).
  { apply (well_formed_rows f Hwf). }
  { simpl. exact Hlen. }
  exists data'. rewrite Hrun. simpl. rewrite length_map.
  split; [reflexivity|]. split; [exact Hlen'|].
  intros j. rewrite Hlook. now rewrite (extra_cells_votes_at f j).
Qed.

(** The loop over the county files. *)
Lemma add_counties_ok base_rows (fs : list county_file) : forall st,
  Forall well_formed_file fs ->
  Forall (fun f => length (rows (sheet f)) <= length (merged_data st)) fs ->
  exists data',
    for_each (add_county base_rows) fs st
    = Ok {| merged_headers :=
              merged_headers st ++ flat_map (fun f => map snd (precinct_columns f)) fs;
            merged_data := data';
            total_precincts :=
              total_precincts st + length (flat_map precinct_columns fs);
            problems_found :=
              problems_found st ++ flat_map (mismatches base_rows) fs |}
    /\ length data' = length (merged_data st)
    /\ forall j, data' !! j
                 = (fun m => m ++ flat_map (fun f => votes_at f j) fs)
                   <$> merged_data st !! j.
Proof.
  induction fs as [|f fs IH]; intros st Hwf Hfit.
  - exists (merged_data st). simpl. rewrite !app_nil_r, Nat.add_0_r.
    split; [now destruct st|]. split; [reflexivity|].
    intros j. destruct (merged_data st !! j); simpl; [|reflexivity].
    now rewrite app_nil_r.
  - apply Forall_cons in Hwf as [Hf Hwf]. apply Forall_cons in Hfit as [Hlf Hfit].
    destruct (add_county_ok base_rows st f Hf Hlf) as (d1 & Hrun1 & Hlen1 & Hlook1).
    cbn [for_each]. rewrite Hrun1.
    change (Ok ?a ≫= ?g) with (g a). cbv beta.
    match goal with |- context [for_each _ fs ?s] =>
      destruct (IH s Hwf) as (d2 & Hrun2 & Hlen2 & Hlook2) end.
    { simpl. rewrite Hlen1. exact Hfit. }
    simpl in Hrun2, Hlen2, Hlook2.
    exists d2. rewrite Hrun2. split; [|split; [congruence|]].
    + simpl. rewrite !length_app, <- !app_assoc. do 2 f_equal. lia.
    + intros j. rewrite Hlook2, Hlook1.
      destruct (merged_data st !! j); simpl; [|reflexivity].
      now rewrite <- app_assoc.
Qed.

(** The first pass over the first file. *)
Lemma initial_merged_data_ok (ws : worksheet) :
  Forall (fun row => 2 <= length row) (rows ws) ->
  initial_merged_data ws
  = Ok (map (fun row => [nth 0 row CNone; nth 1 row CNone]) (rows ws)).
Proof.
  intros Hw. unfold initial_merged_data. apply comprehension_pure.
  intros row Hin. rewrite Forall_forall in Hw. specialize (Hw row Hin).
  rewrite (index_nth row 0 CNone) by lia. simpl.
  rewrite (index_nth row 1 CNone) by lia. reflexivity.
Qed.

(** *** The verification pass *)

Lemma check_columns_from expected (data : list (list cell)) : forall n problems,
  foldl (check_columns expected) problems (enumerate_from n data)
  = problems ++ flat_map (column_finding expected) (enumerate_from n data).
Proof.
  induction data as [|row data IH]; intros n problems; simpl.
  - now rewrite app_nil_r.
  - rewrite IH. unfold column_finding at 2. simpl.
    destruct (bool_decide (length row = expected)); simpl; [reflexivity|].
    now rewrite <- app_assoc.
Qed.

Lemma lowered_title_ok (r0 : cell) :
  text_or_blank r0 -> lowered_title r0 = Ok (title_of r0).
Proof.
  destruct r0 as [|s|z]; simpl; [reflexivity| |contradiction].
  intros _. unfold lowered_title. simpl.
  destruct s; reflexivity.
Qed.

Lemma check_vote_pattern_ok total problems row :
  2 <= length row ->
  text_or_blank (nth 0 row CNone) ->
  check_vote_pattern total problems row
  = Ok (problems ++ pattern_finding total row).
Proof.
  intros Hw Hty. unfold check_vote_pattern, pattern_finding.
  rewrite (index_nth row 0 CNone) by lia. simpl.
  rewrite (lowered_title_ok _ Hty). simpl.
  rewrite (index_nth row 1 CNone) by lia. simpl.
  repeat match goal with
         | |- context [if ?c then problems else problems] =>
             replace (if c then problems else problems) with problems
               by (destruct c; reflexivity)
         end.
  destruct (negb (is_statewide (title_of (nth 0 row CNone)))
            && (count_precincts_with_votes (drop 2 row) =? total));
    [reflexivity | now rewrite app_nil_r].
Qed.

Lemma check_vote_patterns_ok total (data : list (list cell)) : forall problems,
  checkable data ->
  for_each (check_vote_pattern total) data problems
  = Ok (problems ++ flat_map (pattern_finding total) data).
Proof.
  induction data as [|row data IH]; intros problems Hd; simpl.
  - now rewrite app_nil_r.
  - apply Forall_cons in Hd as [[Hw Hty] Hd].
    rewrite check_vote_pattern_ok by assumption. simpl.
    rewrite IH by assumption. now rewrite <- app_assoc.
Qed.

Lemma verify_ok (data : list (list cell)) total problems :
  checkable data ->
  verify data total problems
  = Ok (problems
        ++ flat_map (column_finding (2 + total)) (enumerate data)
        ++ flat_map (pattern_finding total) data).
Proof.
  intros Hd. unfold verify, enumerate.
  rewrite check_columns_from, check_vote_patterns_ok by assumption.
  now rewrite <- app_assoc.
Qed.

(** *** The whole run *)

Lemma merged_rows_lookup first files k :
  merged_rows first files !! k
  = (fun row => [nth 0 row CNone; nth 1 row CNone]
                ++ flat_map (fun f => votes_at f k) files)
    <$> rows (sheet first) !! k.
Proof. unfold merged_rows. apply list_lookup_imap. Qed.

Lemma merged_rows_checkable first files :
  Forall (fun row => text_or_blank (nth 0 row CNone)) (rows (sheet first)) ->
  checkable (merged_rows first files).
Proof.
  intros Hty. apply Forall_lookup. intros k mrow Hk.
  rewrite merged_rows_lookup in Hk.
  destruct (rows (sheet first) !! k) as [row|] eqn:Hrow; [|discriminate].
  injection Hk as <-. split; [simpl; lia|].
  simpl. eapply Forall_lookup_1 in Hty; [exact Hty | exact Hrow].
Qed.

Theorem merge_county_files_closed_form first rest :
  well_formed_run first rest ->
  Processor.merge_county_files (first :: rest)
  = Ok (Some
      {| saved_headers :=
           ["RaceTitle"; "CandidateName"]
           ++ flat_map (fun f => map snd (precinct_columns f)) (first :: rest);
         saved_rows := merged_rows first (first :: rest);
         all_problems := merge_problems first (first :: rest);
         printed_report :=
           report_problems (merge_problems first (first :: rest)) |}).
Proof.
  intros (Hwf & Hfit & Hty).
  assert (Hfirst : well_formed_file first) by (now apply Forall_cons in Hwf).
  pose proof (well_formed_rows first Hfirst) as Hrows.
  unfold Processor.merge_county_files, merge_files_from.
  rewrite initial_merged_data_ok.
  2:{ eapply Forall_impl; [exact Hrows|]. now intros row [H _]. }
  change (Ok ?a ≫= ?g) with (g a). cbv beta.
  match goal with |- context [for_each (add_county ?b) (first :: rest) ?s] =>
    destruct (add_counties_ok b (first :: rest) s Hwf)
      as (data' & Hrun & Hlen & Hlook) end.
  { simpl. rewrite length_map. constructor; [lia | exact Hfit]. }
  rewrite Hrun. clear Hrun.
  change (Ok ?a ≫= ?g) with (g a). cbv beta.
  cbn [merged_data merged_headers total_precincts problems_found] in *.
  assert (Hdata : data' = merged_rows first (first :: rest)).
  { apply list_eq. intros k. rewrite Hlook, merged_rows_lookup, list_lookup_fmap.
    now destruct (rows (sheet first) !! k). }
  subst data'.
  rewrite verify_ok by (apply merged_rows_checkable; exact Hty).
  reflexivity.
Qed.

(** ** Row mismatches *)

Lemma elem_of_mismatches base_rows (f : county_file) K row er ec :
  rows (sheet f) !! K = Some row ->
  base_rows !! K = Some (er, ec) ->
  (nth 0 row CNone, nth 1 row CNone) <> (er, ec) ->
  RowMismatch (county_name f) er ec (nth 0 row CNone) (nth 1 row CNone)
  ∈ mismatches base_rows f.
Proof.
  intros Hrow Hbase Hne. unfold mismatches.
  apply list_elem_of_In, in_flat_map. exists (K, row). split.
  - apply list_elem_of_In, elem_of_enumerate_from.
    split; [lia|]. now rewrite Nat.sub_0_r.
  - unfold mismatch_at. simpl. rewrite Hbase.
    destruct (cell_neqb (nth 0 row CNone) er || cell_neqb (nth 1 row CNone) ec)
      eqn:E; [now left|].
    apply orb_false_iff in E as [E1 E2]. unfold cell_neqb in E1, E2.
    apply negb_false_iff, bool_decide_eq_true in E1, E2. congruence.
Qed.

Lemma report_of_problem p problems :
  p ∈ problems -> exists n, 0 < n /\ head (report_problems problems) = Some (FoundProblems n).
Proof.
  destruct problems as [|q problems]; [intros H; now apply elem_of_nil in H|].
  intros _. exists (length (q :: problems)). split; [simpl; lia | reflexivity].
Qed.

(** C1, as the code has it: on a run on which nothing raises, which
    takes that no later file has more rows than the first, a row [K] of
    a later file that names another (race title, candidate name) pair
    than row [K] of the first file is recorded as a [RowMismatch] in the
    problems of the run, the run completes with its report, and merged
    row [K] still receives that row's precinct votes at the file's
    position. *)
Theorem mismatch_recorded_and_merged_by_position
    first rest j (f : county_file) K row base_row :
  well_formed_run first rest ->
  rest !! j = Some f ->
  rows (sheet f) !! K = Some row ->
  rows (sheet first) !! K = Some base_row ->
  (nth 0 row CNone, nth 1 row CNone)
    <> (nth 0 base_row CNone, nth 1 base_row CNone) ->
  exists out,
    Processor.merge_county_files (first :: rest) = Ok (Some out)
    /\ RowMismatch (county_name f) (nth 0 base_row CNone) (nth 1 base_row CNone)
                   (nth 0 row CNone) (nth 1 row CNone) ∈ all_problems out
    /\ (exists n, 0 < n /\ head (printed_report out) = Some (FoundProblems n))
    /\ saved_rows out !! K
       = Some ([nth 0 base_row CNone; nth 1 base_row CNone]
               ++ flat_map (fun g => votes_at g K) (first :: take j rest)
               ++ precinct_votes f row
               ++ flat_map (fun g => votes_at g K) (drop (S j) rest)).
Proof.
  intros Hrun Hf Hrow Hbase Hne.
  eexists. split; [apply merge_county_files_closed_form; exact Hrun|].
  cbn [all_problems printed_report saved_rows].
  assert (Hin : RowMismatch (county_name f) (nth 0 base_row CNone)
                  (nth 1 base_row CNone) (nth 0 row CNone) (nth 1 row CNone)
                ∈ merge_problems first (first :: rest)).
  { unfold merge_problems. apply elem_of_app. left.
    apply list_elem_of_In, in_flat_map. exists f. split.
    - apply list_elem_of_In. right. eapply list_elem_of_lookup_2. exact Hf.
    - apply list_elem_of_In. apply elem_of_mismatches with (K := K); try assumption.
      unfold base_rows_of. rewrite list_lookup_fmap, Hbase. reflexivity. }
  split; [exact Hin|]. split; [exact (report_of_problem _ _ Hin)|].
  rewrite merged_rows_lookup, Hbase. simpl. do 3 f_equal.
  rewrite <- (take_drop_middle rest j f Hf) at 1.
  rewrite flat_map_app. cbn [flat_map].
  unfold votes_at at 3. rewrite Hrow. now rewrite <- !app_assoc.
Qed.

Lemma adair_polk_well_formed : well_formed_run adair [polk_swapped].
Proof.
  unfold well_formed_run, well_formed_file, rectangular. simpl.
  repeat split; repeat constructor.
Qed.

Lemma mismatch_recorded_and_merged_by_position_witness :
  exists out,
    Processor.merge_county_files [adair; polk_swapped] = Ok (Some out)
    /\ RowMismatch "Polk" (CStr "President") (CStr "A")
                   (CStr "State Rep 1") (CStr "B") ∈ all_problems out
    /\ saved_rows out !! 0
       = Some [CStr "President"; CStr "A"; CInt 5; CInt 7; CInt 1].
Proof.
  destruct (mismatch_recorded_and_merged_by_position
              adair [polk_swapped] 0 polk_swapped 0
              [CStr "State Rep 1"; CStr "B"; CInt 7; CInt 1]
              [CStr "President"; CStr "A"; CStr "REP"; CInt 5]
              adair_polk_well_formed eq_refl eq_refl eq_refl
              ltac:(discriminate))
    as (out & Hout & Hin & _ & Hrow).
  exists out. split; [exact Hout|]. split; [exact Hin | exact Hrow].
Defined.

(** C1 as stated fails: a mismatch does not keep the merge from
    aborting.  The second file is well formed, its row 0 names another
    pair than row 0 of the first file, and it has one row more than the
    first file: the run raises [IndexError] at that row, so no finding is
    reported and nothing is saved. *)
Lemma mismatch_in_longer_file_aborts :
  Forall well_formed_file [adair; polk_swapped_longer]
  /\ (exists row base_row,
        rows (sheet polk_swapped_longer) !! 0 = Some row
        /\ rows (sheet adair) !! 0 = Some base_row
        /\ (nth 0 row CNone, nth 1 row CNone)
           <> (nth 0 base_row CNone, nth 1 base_row CNone))
  /\ Processor.merge_county_files [adair; polk_swapped_longer]
     = Raise IndexError.
Proof.
  split; [|split].
  - unfold well_formed_file, rectangular. simpl.
    repeat constructor.
  - eexists _, _. split; [reflexivity|]. split; [reflexivity | discriminate].
  - reflexivity.
Qed.

(** ** Files longer than the first *)

Lemma initial_merged_data_cases (ws : worksheet) :
  initial_merged_data ws = Raise IndexError
  \/ exists data, initial_merged_data ws = Ok data
                  /\ length data = length (rows ws).
Proof.
  destruct (initial_merged_data ws) as [data|e] eqn:E.
  - right. exists data. split; [reflexivity|].
    exact (comprehension_length _ _ _ E).
  - left. f_equal. unfold initial_merged_data in E.
    eapply comprehension_raises; [|exact E].
    intros row e'. cbv beta.
    destruct (index row 0) as [r0|e0] eqn:E0; simpl.
    + destruct (index row 1) as [r1|e1] eqn:E1; simpl; [discriminate|].
      intros [= <-]. exact (index_raises _ _ _ E1).
    + intros [= <-]. exact (index_raises _ _ _ E0).
Qed.

Lemma add_row_cases county base_rows indices k data problems row :
  add_row county base_rows indices (k, data, problems) row = Raise IndexError
  \/ exists data' problems',
       add_row county base_rows indices (k, data, problems) row
       = Ok (S k, data', problems')
       /\ length data' = length data /\ k < length data.
Proof.
  unfold add_row.
  destruct (index row 0) as [r0|e] eqn:E0; simpl;
    [|left; f_equal; exact (index_raises _ _ _ E0)].
  destruct (index row 1) as [r1|e] eqn:E1; simpl;
    [|left; f_equal; exact (index_raises _ _ _ E1)].
  destruct (comprehension (index row) indices) as [votes|e] eqn:Ev; simpl.
  2:{ left. f_equal. eapply comprehension_raises; [|exact Ev].
      intros i e'. apply index_raises. }
  destruct (index data k) as [m|e] eqn:Em; simpl;
    [|left; f_equal; exact (index_raises _ _ _ Em)].
  right. eexists _, _. split; [reflexivity|]. rewrite length_insert.
  split; [reflexivity|]. unfold index in Em.
  destruct (data !! k) eqn:Hk; [|discriminate].
  eapply lookup_lt_Some. exact Hk.
Qed.

Lemma add_rows_cases county base_rows indices rs : forall k data problems,
  for_each (add_row county base_rows indices) rs (k, data, problems)
  = Raise IndexError
  \/ exists data' problems',
       for_each (add_row county base_rows indices) rs (k, data, problems)
       = Ok (k + length rs, data', problems')
       /\ length data' = length data
       /\ (rs = [] \/ k + length rs <= length data).
Proof.
  induction rs as [|row rs IH]; intros k data problems.
  - right. exists data, problems. simpl. rewrite Nat.add_0_r. auto.
  - cbn [for_each].
    destruct (add_row_cases county base_rows indices k data problems row)
      as [->|(d1 & p1 & -> & Hlen1 & Hk)]; [now left|].
    change (Ok ?a ≫= ?g) with (g a). cbv beta.
    destruct (IH (S k) d1 p1) as [->|(d2 & p2 & -> & Hlen2 & Hfit)];
      [now left|].
    right. exists d2, p2. split; [|split].
    + simpl. now replace (k + S (length rs)) with (S (k + length rs)) by lia.
    + congruence.
    + right. simpl. destruct Hfit as [->|Hfit]; simpl; lia.
Qed.

Lemma add_county_cases base_rows (st : merge_state) (f : county_file) :
  Forall text_or_blank (header (sheet f)) ->
  add_county base_rows st f = Raise IndexError
  \/ exists st', add_county base_rows st f = Ok st'
                 /\ length (merged_data st') = length (merged_data st)
                 /\ length (rows (sheet f)) <= length (merged_data st).
Proof.
  intros Hty. unfold add_county, enumerate.
  rewrite add_precinct_columns_from by exact Hty.
  change (Ok ?a ≫= ?g) with (g a). cbv beta.
  match goal with |- context [for_each (add_row ?c ?b ?i) ?rs (0, ?d, ?p)] =>
    destruct (add_rows_cases c b i rs 0 d p)
      as [->|(d1 & p1 & -> & Hlen & Hfit)] end; [now left|].
  right. eexists. split; [reflexivity|]. simpl. split; [exact Hlen|].
  destruct Hfit as [->|Hfit]; simpl in *; lia.
Qed.

Lemma add_counties_cases base_rows (fs : list county_file) : forall st,
  Forall (fun f => Forall text_or_blank (header (sheet f))) fs ->
  for_each (add_county base_rows) fs st = Raise IndexError
  \/ exists st', for_each (add_county base_rows) fs st = Ok st'
       /\ Forall (fun f => length (rows (sheet f)) <= length (merged_data st)) fs.
Proof.
  induction fs as [|f fs IH]; intros st Hty.
  - right. exists st. split; [reflexivity | constructor].
  - apply Forall_cons in Hty as [Hf Hty]. cbn [for_each].
    destruct (add_county_cases base_rows st f Hf)
      as [->|(st1 & -> & Hlen & Hfit)]; [now left|].
    change (Ok ?a ≫= ?g) with (g a). cbv beta.
    destruct (IH st1 Hty) as [->|(st2 & -> & Hall)]; [now left|].
    right. exists st2. split; [reflexivity|].
    constructor; [exact Hfit|]. rewrite <- Hlen. exact Hall.
Qed.

(** C10: when the header cells are text or blank, a run in which some
    later file has more data rows than the first file raises
    [IndexError]; it returns no merged output. *)
Theorem longer_file_raises_index_error first rest :
  Forall (fun f => Forall text_or_blank (header (sheet f))) (first :: rest) ->
  Exists (fun f => length (rows (sheet first)) < length (rows (sheet f))) rest ->
  Processor.merge_county_files (first :: rest) = Raise IndexError
  /\ forall out, Processor.merge_county_files (first :: rest) <> Ok out.
Proof.
  intros Hty Hlong.
  assert (H : Processor.merge_county_files (first :: rest) = Raise IndexError).
  2:{ split; [exact H|]. intros out. rewrite H. discriminate. }
  unfold Processor.merge_county_files, merge_files_from.
  destruct (initial_merged_data_cases (sheet first))
    as [->|(data & -> & Hlen)]; [reflexivity|].
  change (Ok ?a ≫= ?g) with (g a). cbv beta.
  match goal with |- context [for_each (add_county ?b) ?fs ?s] =>
    destruct (add_counties_cases b fs s Hty) as [->|(st' & _ & Hfit)] end;
    [reflexivity|].
  exfalso. simpl in Hfit. apply Forall_cons in Hfit as [_ Hfit].
  apply Exists_exists in Hlong as (f & Hin & Hlt).
  rewrite Forall_forall in Hfit. specialize (Hfit f Hin). lia.
Qed.

Lemma longer_file_raises_index_error_witness :
  Processor.merge_county_files [adair; polk_longer] = Raise IndexError
  /\ forall out, Processor.merge_county_files [adair; polk_longer] <> Ok out.
Proof.
  apply (longer_file_raises_index_error adair [polk_longer]).
  - repeat constructor.
  - apply Exists_cons_hd. simpl. lia.
Defined.

(** ** The verification pass: vote patterns and the report *)

Lemma has_votes_positive c : positive_count c -> has_votes c = true.
Proof.
  intros (n & -> & Hn). unfold has_votes. simpl.
  apply andb_true_iff. split.
  - apply negb_true_iff, Z.eqb_neq. lia.
  - now apply Z.ltb_lt.
Qed.

Lemma count_from votes : forall n,
  foldl (fun n v => if has_votes v then S n else n) n votes
  = n + length (filter (fun v => has_votes v = true) votes).
Proof.
  induction votes as [|v votes IH]; intros n; [simpl; lia|].
  cbn [foldl]. rewrite IH, filter_cons.
  destruct (decide (has_votes v = true)) as [H|H].
  - rewrite H. simpl. lia.
  - apply not_true_is_false in H. now rewrite H.
Qed.

Lemma count_all_positive votes :
  Forall positive_count votes ->
  count_precincts_with_votes votes = length votes.
Proof.
  intros Hpos. unfold count_precincts_with_votes. rewrite count_from. simpl.
  induction Hpos as [|v votes Hv _ IH]; [reflexivity|].
  rewrite filter_cons, decide_True by (now apply has_votes_positive).
  simpl. now rewrite IH.
Qed.

Lemma shown_problems_map ps : shown_problems (map Problem ps) = ps.
Proof. induction ps as [|p ps IH]; simpl; [reflexivity | now rewrite IH]. Qed.

Lemma shown_problems_report found :
  shown_problems (report_problems found) = take 10 found.
Proof.
  destruct found as [|p found]; [reflexivity|].
  unfold report_problems, shown_problems.
  cbn [flat_map]. rewrite flat_map_app. fold (shown_problems (map Problem (take 10 (p :: found)))).
  rewrite shown_problems_map.
  destruct (10 <? length (p :: found)); simpl; now rewrite app_nil_r.
Qed.

Lemma and_more_report found n :
  AndMore n ∈ report_problems found <->
  10 < length found /\ n = length found - 10.
Proof.
  destruct found as [|p found].
  - simpl. split; [|lia]. intros H. apply list_elem_of_singleton in H. discriminate.
  - unfold report_problems. rewrite elem_of_cons, elem_of_app.
    destruct (10 <? length (p :: found)) eqn:E.
    + apply Nat.ltb_lt in E. split.
      * intros [H|[H|H]]; [discriminate| |].
        -- apply list_elem_of_fmap in H as (q & H & _). discriminate.
        -- apply list_elem_of_singleton in H. injection H as ->. now split.
      * intros [_ ->]. right. right. now apply list_elem_of_singleton.
    + apply Nat.ltb_ge in E. split; [|lia].
      intros [H|[H|H]]; [discriminate| |].
      * apply list_elem_of_fmap in H as (q & H & _). discriminate.
      * now apply elem_of_nil in H.
Qed.

Lemma elem_of_pattern_findings total (data : list (list cell)) p :
  p ∈ flat_map (pattern_finding total) data <->
  exists row, row ∈ data /\ p ∈ pattern_finding total row.
Proof.
  rewrite list_elem_of_In, in_flat_map. split; intros (row & H1 & H2);
    exists row; split; try (now apply list_elem_of_In).
Qed.

Lemma elem_of_pattern_finding total row p :
  p ∈ pattern_finding total row ->
  p = Suspicious (title_of (nth 0 row CNone)) (nth 1 row CNone)
  /\ is_statewide (title_of (nth 0 row CNone)) = false
  /\ count_precincts_with_votes (drop 2 row) = total.
Proof.
  unfold pattern_finding.
  destruct (negb (is_statewide (title_of (nth 0 row CNone)))
            && (count_precincts_with_votes (drop 2 row) =? total)) eqn:E.
  - intros H. apply list_elem_of_singleton in H.
    apply andb_true_iff in E as [E1 E2].
    apply negb_true_iff in E1. apply Nat.eqb_eq in E2. auto.
  - intros H. now apply elem_of_nil in H.
Qed.

Lemma elem_of_column_findings expected (data : list (list cell)) p n :
  p ∈ flat_map (column_finding expected) (enumerate_from n data) ->
  exists i len, p = ColumnCount i len expected /\ len <> expected.
Proof.
  rewrite list_elem_of_In, in_flat_map. intros ([i row] & _ & H).
  unfold column_finding in H. simpl in H.
  destruct (bool_decide (length row = expected)) eqn:E; [contradiction|].
  apply bool_decide_eq_false in E.
  destruct H as [<-|[]]. eauto.
Qed.

(** C7: on a merged table whose rows have their two key cells and a text
    or blank race title, the verification pass returns its findings, and
    (a) every row of a race that is not statewide with a positive count in
    each of the [total_precincts] precinct columns is flagged as
    suspicious; (b) a statewide title is never flagged as suspicious by
    the pass, whatever its coverage; (c) the report displays the first ten
    findings and, when there are more, the count of the remainder. *)
Theorem suspicious_rows_flagged_report_capped
    (data : list (list cell)) total problems :
  checkable data ->
  exists found,
    verify data total problems = Ok found
    /\ (forall r0 candidate votes,
          (r0 :: candidate :: votes) ∈ data ->
          is_statewide (title_of r0) = false ->
          length votes = total ->
          Forall positive_count votes ->
          Suspicious (title_of r0) candidate ∈ found)
    /\ (forall title candidate,
          is_statewide title = true ->
          Suspicious title candidate ∈ found ->
          Suspicious title candidate ∈ problems)
    /\ shown_problems (report_problems found) = take 10 found
    /\ length (shown_problems (report_problems found)) <= 10
    /\ (forall n, AndMore n ∈ report_problems found <->
                  10 < length found /\ n = length found - 10).
Proof.
  intros Hd. eexists. split; [apply verify_ok; exact Hd|].
  split; [|split; [|split; [|split]]].
  - intros r0 candidate votes Hin Hsw Hlen Hpos.
    apply elem_of_app. right. apply elem_of_app. right.
    apply elem_of_pattern_findings. exists (r0 :: candidate :: votes).
    split; [exact Hin|]. unfold pattern_finding.
    change (drop 2 (r0 :: candidate :: votes)) with votes.
    change (nth 0 (r0 :: candidate :: votes) CNone) with r0.
    change (nth 1 (r0 :: candidate :: votes) CNone) with candidate.
    rewrite Hsw, (count_all_positive _ Hpos), Hlen, Nat.eqb_refl. simpl.
    now apply list_elem_of_singleton.
  - intros title candidate Hsw Hin.
    apply elem_of_app in Hin as [Hin|Hin]; [exact Hin|].
    apply elem_of_app in Hin as [Hin|Hin].
    + apply elem_of_column_findings in Hin as (i & len & H & _). discriminate.
    + apply elem_of_pattern_findings in Hin as (row & _ & Hin).
      apply elem_of_pattern_finding in Hin as ([= -> ->] & Hns & _).
      congruence.
  - apply shown_problems_report.
  - rewrite shown_problems_report, length_take. lia.
  - intros n. apply and_more_report.
Qed.

Lemma suspicious_rows_flagged_report_capped_witness :
  exists found,
    verify district_table 2 [] = Ok found
    /\ Suspicious "state rep 1" (CStr "B") ∈ found
    /\ (Suspicious "president" (CStr "A") ∈ found -> False).
Proof.
  destruct (suspicious_rows_flagged_report_capped district_table 2 [])
    as (found & Hv & Hflag & Hstate & _).
  { repeat constructor. }
  exists found. split; [exact Hv|]. split.
  - apply (Hflag (CStr "State Rep 1") (CStr "B") [CInt 3; CInt 9]).
    + apply list_elem_of_here.
    + reflexivity.
    + reflexivity.
    + repeat constructor; eexists; (split; [reflexivity | lia]).
  - intros H. apply (Hstate "president" (CStr "A") eq_refl) in H.
    now apply elem_of_nil in H.
Defined.




(** ** The key-aligned merge *)

Lemma insert_row_perm r l : insert_row r l ≡ₚ r :: l.
Proof.
  induction l as [|r' l IH]; simpl; [reflexivity|].
  destruct (key_leb (TeamA.row_key r) (TeamA.row_key r')); [reflexivity|].
  rewrite IH. apply Permutation_swap.
Qed.

Lemma sort_by_key_perm l : sort_by_key l ≡ₚ l.
Proof.
  induction l as [|r l IH]; simpl; [reflexivity|].
  now rewrite insert_row_perm, IH.
Qed.

Lemma elem_of_drop_duplicates_from (keys : list (cell * cell)) : forall seen key,
  key ∈ foldl (fun seen k => if bool_decide (k ∈ seen) then seen else seen ++ [k])
              seen keys
  <-> key ∈ seen \/ key ∈ keys.
Proof.
  induction keys as [|k keys IH]; intros seen key; simpl.
  - split; [now left | intros [H|H]; [exact H | now apply elem_of_nil in H]].
  - rewrite IH, elem_of_cons. destruct (bool_decide (k ∈ seen)) eqn:E.
    + apply bool_decide_eq_true in E. split; [tauto|].
      intros [H|[->|H]]; auto.
    + rewrite elem_of_app, list_elem_of_singleton. tauto.
Qed.

Lemma elem_of_drop_duplicates keys key :
  key ∈ TeamA.drop_duplicates keys <-> key ∈ keys.
Proof.
  unfold TeamA.drop_duplicates. rewrite elem_of_drop_duplicates_from.
  split; [intros [H|H]; [now apply elem_of_nil in H | exact H] | now right].
Qed.

Lemma left_join_row_spec df left row :
  row ∈ TeamA.left_join_row df left ->
  row.1 = left.1 /\ exists seg, segment_of left.1 df seg /\ row.2 = left.2 ++ seg.
Proof.
  unfold TeamA.left_join_row.
  destruct (filter (fun r => r.1 = left.1) (TeamA.frame_rows df))
    as [|m ms] eqn:E.
  - intros H. apply list_elem_of_singleton in H. subst row. simpl.
    split; [reflexivity|]. eexists. split; [|reflexivity]. left.
    split; [|reflexivity]. intros Hin.
    apply list_elem_of_fmap in Hin as (r & Hk & Hr).
    assert (Hf : r ∈ filter (fun r => r.1 = left.1) (TeamA.frame_rows df))
      by (apply list_elem_of_filter; split; [now symmetry | exact Hr]).
    rewrite E in Hf. now apply elem_of_nil in Hf.
  - intros H. apply list_elem_of_fmap in H as (r & -> & Hr). simpl.
    split; [reflexivity|]. exists r.2. split; [|reflexivity]. right.
    rewrite <- E in Hr. apply list_elem_of_filter in Hr as [Hk Hr].
    exists r. auto.
Qed.

Lemma left_join_row_key df left :
  exists row, row ∈ TeamA.left_join_row df left /\ row.1 = left.1.
Proof.
  unfold TeamA.left_join_row.
  destruct (filter (fun r => r.1 = left.1) (TeamA.frame_rows df)) as [|m ms].
  - eexists. split; [apply list_elem_of_here | reflexivity].
  - eexists. split; [simpl; apply list_elem_of_here | reflexivity].
Qed.

Lemma elem_of_left_join merged df row :
  row ∈ TeamA.left_join merged df <->
  exists left, left ∈ merged /\ row ∈ TeamA.left_join_row df left.
Proof.
  unfold TeamA.left_join. rewrite list_elem_of_join. split.
  - intros (l & Hrow & Hl). apply list_elem_of_fmap in Hl as (left & -> & Hl).
    now exists left.
  - intros (left & Hl & Hrow). exists (TeamA.left_join_row df left).
    split; [exact Hrow|]. apply list_elem_of_fmap. now exists left.
Qed.

Lemma left_join_keys merged df key :
  key ∈ map fst (TeamA.left_join merged df) <-> key ∈ map fst merged.
Proof.
  split.
  - intros H. apply list_elem_of_fmap in H as (row & -> & Hrow).
    apply elem_of_left_join in Hrow as (left & Hl & Hrow).
    apply left_join_row_spec in Hrow as [-> _].
    apply list_elem_of_fmap. now exists left.
  - intros H. apply list_elem_of_fmap in H as (left & -> & Hl).
    destruct (left_join_row_key df left) as (row & Hrow & <-).
    apply list_elem_of_fmap. exists row. split; [reflexivity|].
    apply elem_of_left_join. now exists left.
Qed.

Lemma left_joins_keys (fs : list TeamA.county_frame) : forall merged key,
  key ∈ map fst (foldl TeamA.left_join merged fs) <-> key ∈ map fst merged.
Proof.
  induction fs as [|df fs IH]; intros merged key; simpl; [reflexivity|].
  now rewrite IH, left_join_keys.
Qed.

Lemma left_joins_rows (fs : list TeamA.county_frame) : forall merged row,
  row ∈ foldl TeamA.left_join merged fs ->
  exists vals segs,
    (row.1, vals) ∈ merged
    /\ row.2 = vals ++ concat segs
    /\ Forall2 (segment_of row.1) fs segs.
Proof.
  induction fs as [|df fs IH]; intros merged row; simpl.
  - intros H. exists row.2, []. rewrite app_nil_r.
    split; [now destruct row|]. split; [reflexivity | constructor].
  - intros H. apply IH in H as (vals & segs & Hin & Hvals & Hsegs).
    apply elem_of_left_join in Hin as (left & Hl & Hrow).
    apply left_join_row_spec in Hrow as [Hk (seg & Hseg & Hv)].
    simpl in Hk, Hv. exists left.2, (seg :: segs).
    split; [rewrite Hk; now destruct left|].
    split; [simpl; rewrite Hvals, Hv; now rewrite <- app_assoc|].
    constructor; [rewrite Hk; exact Hseg | exact Hsegs].
Qed.

Lemma in_list_iff x (l : list string) : Py.in_list x l = true <-> x ∈ l.
Proof.
  unfold Py.in_list. rewrite existsb_exists. split.
  - intros (y & Hy & Heq). apply String.eqb_eq in Heq. subst y.
    now apply list_elem_of_In.
  - intros H. exists x. split; [now apply list_elem_of_In | apply String.eqb_refl].
Qed.

Lemma in_list_false x (l : list string) : x ∉ l -> Py.in_list x l = false.
Proof.
  intros H. destruct (Py.in_list x l) eqn:E; [|reflexivity].
  apply in_list_iff in E. contradiction.
Qed.

Lemma suffix_duplicates_same (l : list string) : suffix_duplicates l l = [].
Proof.
  unfold suffix_duplicates.
  assert (H : forall (l : list string) (d : list bool),
            filter (fun x : string * (bool * bool) => x.2.1 && negb x.2.2 = true)
                   (zip l (zip d d)) = []).
  { clear. induction l as [|x l IH]; intros [|b d]; try reflexivity.
    cbn [zip zip_with]. rewrite filter_cons. cbn [fst snd].
    rewrite decide_False by (destruct b; discriminate). apply IH. }
  now rewrite H.
Qed.

Lemma items_overlap_disjoint (left right : list string) :
  (forall x, x ∈ left -> x ∉ right) ->
  items_overlap_with_suffix left right = Ok (left, right).
Proof.
  intros Hdis. unfold items_overlap_with_suffix.
  assert (Hnone : List.filter (fun x => Py.in_list x right) left = []).
  { clear -Hdis. induction left as [|x l IH]; [reflexivity|].
    cbn [List.filter]. rewrite in_list_false by (apply Hdis, list_elem_of_here).
    apply IH. intros y Hy. apply Hdis. now apply list_elem_of_further. }
  rewrite Hnone.
  assert (Hid : forall suffix (l : list string), map (add_suffix [] suffix) l = l).
  { clear. intros suffix. induction l as [|x l IH]; [reflexivity|].
    cbn [map]. now rewrite IH. }
  rewrite !Hid, !suffix_duplicates_same. reflexivity.
Qed.

Lemma left_join_nonempty merged df : merged <> [] -> left_join merged df <> [].
Proof.
  destruct merged as [|left merged]; [congruence|]. intros _ Hnil.
  destruct (left_join_row_key df left) as (row & Hrow & _).
  assert (Hin : row ∈ left_join (left :: merged) df).
  { apply elem_of_left_join. exists left. split; [apply list_elem_of_here | exact Hrow]. }
  rewrite Hnil in Hin. now apply elem_of_nil in Hin.
Qed.

Lemma left_join_text_keys merged df :
  Forall (fun r : (cell * cell) * list cell => text_key r.1) merged ->
  Forall (fun r : (cell * cell) * list cell => text_key r.1) (left_join merged df).
Proof.
  intros Hall. apply Forall_forall. intros row Hrow.
  apply elem_of_left_join in Hrow as (left & Hl & Hrow).
  apply left_join_row_spec in Hrow as [-> _].
  rewrite Forall_forall in Hall. now apply Hall.
Qed.

Lemma text_keys_columns (rows : list ((cell * cell) * list cell)) :
  rows <> [] ->
  Forall (fun r : (cell * cell) * list cell => text_key r.1) rows ->
  Exists (fun c => is_text c = true) (map (fun r => r.1.1) rows)
  /\ Exists (fun c => is_text c = true) (map (fun r => r.1.2) rows).
Proof.
  destruct rows as [|r rows]; [congruence|]. intros _ Hall.
  apply Forall_cons in Hall as [[H1 H2] _].
  split; apply Exists_cons_hd; assumption.
Qed.

Section KeyAlignedMerge.

Variable sort_values : list TeamA.merged_row -> list TeamA.merged_row.
Variable merge_keys_ok : list cell -> list cell -> bool.
Hypothesis sort_values_perm : forall l, sort_values l ≡ₚ l.
Hypothesis merge_keys_ok_text : joins_text_keys merge_keys_ok.

Lemma merge_frame_ok cols (rows : list ((cell * cell) * list cell)) df :
  rows <> [] ->
  Forall (fun r : (cell * cell) * list cell => text_key r.1) rows ->
  text_keyed df ->
  (forall x, x ∈ cols -> x ∉ precinct_cols df) ->
  merge_frame merge_keys_ok (cols, rows) df
  = Ok (cols ++ precinct_cols df, left_join rows df).
Proof.
  intros Hne Hall [Hdf Hkeys] Hdis. unfold merge_frame. cbn [fst snd].
  destruct (text_keys_columns rows Hne Hall) as [Hl1 Hl2].
  destruct (text_keys_columns (frame_rows df) Hdf Hkeys) as [Hr1 Hr2].
  rewrite (merge_keys_ok_text _ _ Hl1 Hr1), (merge_keys_ok_text _ _ Hl2 Hr2).
  cbn [andb]. now rewrite (items_overlap_disjoint cols _ Hdis).
Qed.

Lemma merge_frames_ok (fs : list county_frame) :
  forall cols (rows : list ((cell * cell) * list cell)),
  rows <> [] ->
  Forall (fun r : (cell * cell) * list cell => text_key r.1) rows ->
  Forall text_keyed fs ->
  NoDup (cols ++ mjoin (map precinct_cols fs)) ->
  for_each (merge_frame merge_keys_ok) fs (cols, rows)
  = Ok (cols ++ mjoin (map precinct_cols fs), foldl left_join rows fs).
Proof.
  induction fs as [|df fs IH]; intros cols rows Hne Hall Hfs Hnd.
  - cbn [for_each map mjoin list_join foldl]. now rewrite app_nil_r.
  - apply Forall_cons in Hfs as [Hdf Hfs].
    change (mjoin (map precinct_cols (df :: fs)))
      with (precinct_cols df ++ mjoin (map precinct_cols fs)) in *.
    cbn [for_each]. rewrite merge_frame_ok; try assumption.
    2:{ intros x Hx Hin. apply NoDup_app in Hnd as (_ & Hdis & _).
        apply (Hdis x Hx). apply elem_of_app. now left. }
    change (Ok ?a ≫= ?g) with (g a). cbv beta.
    rewrite IH.
    + now rewrite <- app_assoc.
    + now apply left_join_nonempty.
    + now apply left_join_text_keys.
    + exact Hfs.
    + now rewrite <- app_assoc.
Qed.

(** The run on frames with text keys and distinct labels, in closed
    form. *)
Lemma key_aligned_merge_closed_form (all_data : list TeamA.county_frame) :
  all_data <> [] ->
  Forall text_keyed all_data ->
  distinct_labels all_data ->
  TeamA.merge_county_files sort_values merge_keys_ok all_data
  = Ok (Some
      {| TeamA.columns :=
           ["RaceTitle"; "CandidateName"; "PoliticalPartyName"]
           ++ mjoin (map precinct_cols all_data);
         TeamA.table_rows :=
           sort_values
             (map (fun r : (cell * cell) * list cell =>
                     {| row_key := r.1; party := EmptyString; row_votes := r.2 |})
                  (foldl left_join
                     (map (fun k => (k, []))
                        (drop_duplicates (mjoin (map keys_of all_data))))
                     all_data)) |}).
Proof.
  intros Hne Hkeyed Hnd.
  pose proof (proj1 (Forall_forall _ _) Hkeyed) as Hframes.
  assert (Hkeys : Forall (fun r : (cell * cell) * list cell => text_key r.1)
                    (map (fun k : cell * cell => (k, @nil cell))
                       (drop_duplicates (mjoin (map keys_of all_data))))).
  { apply Forall_forall. intros r Hr.
    apply list_elem_of_fmap in Hr as (k & -> & Hk). cbn [fst].
    apply elem_of_drop_duplicates, list_elem_of_join in Hk as (l & Hk & Hl).
    apply list_elem_of_fmap in Hl as (df & -> & Hdf).
    destruct (Hframes df Hdf) as [_ Hrows].
    apply list_elem_of_fmap in Hk as (r & -> & Hr).
    rewrite Forall_forall in Hrows. now apply Hrows. }
  assert (Hinit : map (fun k : cell * cell => (k, @nil cell))
                    (drop_duplicates (mjoin (map keys_of all_data))) <> []).
  { destruct all_data as [|df0 rest]; [contradiction|].
    destruct (Hframes df0 (list_elem_of_here _ _)) as [Hrows _].
    destruct (frame_rows df0) as [|r rows] eqn:E; [congruence|].
    assert (Hk : r.1 ∈ drop_duplicates (mjoin (map keys_of (df0 :: rest)))).
    { apply elem_of_drop_duplicates, list_elem_of_join. exists (keys_of df0).
      split; [unfold keys_of; rewrite E; apply list_elem_of_here|].
      apply list_elem_of_here. }
    intros Hnil. apply fmap_nil_inv in Hnil. rewrite Hnil in Hk.
    now apply elem_of_nil in Hk. }
  unfold distinct_labels in Hnd.
  apply NoDup_cons in Hnd as [H1 Hnd]. apply NoDup_cons in Hnd as [H2 Hnd].
  apply NoDup_cons in Hnd as [H3 Hnd].
  assert (Hcols : NoDup (["RaceTitle"; "CandidateName"]
                         ++ mjoin (map precinct_cols all_data))).
  { cbn [app]. apply NoDup_cons. split.
    { intros Hin. apply H1. apply elem_of_cons in Hin as [Hin|Hin];
        [discriminate|]. now do 2 apply list_elem_of_further. }
    apply NoDup_cons. split; [|exact Hnd].
    intros Hin. apply H2. now apply list_elem_of_further. }
  pose proof (merge_frames_ok all_data _ _ Hinit Hkeys Hkeyed Hcols) as Hrun.
  unfold TeamA.merge_county_files.
  destruct all_data as [|df0 rest]; [contradiction|].
  rewrite Hrun.
  change (Ok ?a ≫= ?g) with (g a). cbv beta. cbn [fst snd].
  rewrite in_list_false; [reflexivity|].
  intros Hin. apply elem_of_cons in Hin as [Hin|Hin]; [discriminate|].
  apply elem_of_cons in Hin as [Hin|Hin]; [discriminate | contradiction].
Qed.

(** The table of a run on such frames: its keys are the union of the
    frames' keys, the party cell of every row is empty, and the votes of
    a row are one segment per frame, in frame order. *)
Lemma key_aligned_merge_table (all_data : list TeamA.county_frame) :
  all_data <> [] ->
  Forall text_keyed all_data ->
  distinct_labels all_data ->
  exists out,
    TeamA.merge_county_files sort_values merge_keys_ok all_data = Ok (Some out)
    /\ TeamA.columns out
       = ["RaceTitle"; "CandidateName"; "PoliticalPartyName"]
         ++ mjoin (map precinct_cols all_data)
    /\ (forall key, key ∈ map TeamA.row_key (TeamA.table_rows out) <->
                    exists df, df ∈ all_data /\ key ∈ TeamA.keys_of df)
    /\ (forall r, r ∈ TeamA.table_rows out ->
          TeamA.party r = EmptyString
          /\ exists segs, TeamA.row_votes r = concat segs
                          /\ Forall2 (segment_of (TeamA.row_key r)) all_data segs).
Proof.
  intros Hne Hkeyed Hnd.
  eexists. split; [now apply key_aligned_merge_closed_form|].
  cbn [TeamA.columns TeamA.table_rows].
  split; [reflexivity|]. split.
  - intros key. rewrite (sort_values_perm _). split.
    + intros H. apply list_elem_of_fmap in H as (r & -> & Hr).
      apply list_elem_of_fmap in Hr as (row & -> & Hrow). simpl.
      assert (Hk : row.1 ∈ map fst (foldl TeamA.left_join
                     (map (fun k => (k, []))
                        (TeamA.drop_duplicates (mjoin (map TeamA.keys_of all_data))))
                     all_data))
        by (apply list_elem_of_fmap; eauto).
      apply left_joins_keys in Hk.
      apply list_elem_of_fmap in Hk as (x & Hx & Hin).
      apply list_elem_of_fmap in Hin as (k & -> & Hk). simpl in Hx. subst k.
      apply elem_of_drop_duplicates, list_elem_of_join in Hk as (l & Hk & Hl).
      apply list_elem_of_fmap in Hl as (df & -> & Hdf). now exists df.
    + intros (df & Hdf & Hk).
      assert (Hin : key ∈ map fst (foldl TeamA.left_join
                     (map (fun k => (k, []))
                        (TeamA.drop_duplicates (mjoin (map TeamA.keys_of all_data))))
                     all_data)).
      { apply left_joins_keys. apply list_elem_of_fmap. exists (key, []).
        split; [reflexivity|]. apply list_elem_of_fmap. exists key.
        split; [reflexivity|]. apply elem_of_drop_duplicates, list_elem_of_join.
        exists (TeamA.keys_of df). split; [exact Hk|].
        apply list_elem_of_fmap. now exists df. }
      apply list_elem_of_fmap in Hin as (row & -> & Hrow).
      apply list_elem_of_fmap. eexists. split; [|apply list_elem_of_fmap; eauto].
      reflexivity.
  - intros r Hr. rewrite (sort_values_perm _) in Hr.
    apply list_elem_of_fmap in Hr as (row & -> & Hrow). simpl.
    split; [reflexivity|].
    apply left_joins_rows in Hrow as (vals & segs & Hin & Hvals & Hsegs).
    apply list_elem_of_fmap in Hin as (k & [= _ ->] & _).
    exists segs. split; [exact Hvals | exact Hsegs].
Qed.

End KeyAlignedMerge.

Lemma keys_of_one_kind_joins_text : joins_text_keys keys_of_one_kind.
Proof.
  intros left right Hl Hr. unfold keys_of_one_kind.
  assert (H : forall l : list cell,
            Exists (fun c => is_text c = true) l -> existsb is_text l = true).
  { intros l Hex. apply existsb_exists. apply Exists_exists in Hex as (c & Hin & Hc).
    exists c. split; [now apply list_elem_of_In | exact Hc]. }
  now rewrite (H _ Hl), (H _ Hr).
Qed.

Lemma adair_polk_frames_mergeable :
  Forall text_keyed [adair_frame; polk_frame]
  /\ distinct_labels [adair_frame; polk_frame].
Proof.
  split.
  - repeat constructor; discriminate.
  - unfold distinct_labels. apply (bool_decide_unpack _). vm_compute. exact I.
Qed.

(** ** Keys and party labels of the merged tables *)

Lemma merged_rows_keys first files :
  map (take 2) (merged_rows first files)
  = map (fun row => [nth 0 row CNone; nth 1 row CNone]) (rows (sheet first)).
Proof.
  apply list_eq. intros k.
  change (map ?f ?l) with (f <$> l).
  rewrite !list_lookup_fmap, merged_rows_lookup.
  now destruct (rows (sheet first) !! k).
Qed.

(** C2, as the code has it.  On frames with text keys and distinct
    precinct labels the key-aligned merge returns a table whose keys are
    the union of the keys of all frames, and the votes of a row are one
    segment per frame: a row of that frame with the same key, or missing
    values (not zero) under each of the frame's precinct columns when the
    frame has no such row; the positional merge keeps the keys of the
    first file, row by row. *)
Theorem merged_keys_and_missing_cells
    (sort_values : list TeamA.merged_row -> list TeamA.merged_row)
    (merge_keys_ok : list cell -> list cell -> bool)
    (all_data : list TeamA.county_frame) first rest :
  (forall l, sort_values l ≡ₚ l) ->
  joins_text_keys merge_keys_ok ->
  all_data <> [] ->
  Forall text_keyed all_data ->
  distinct_labels all_data ->
  well_formed_run first rest ->
  (exists out,
     TeamA.merge_county_files sort_values merge_keys_ok all_data = Ok (Some out)
     /\ (forall key, key ∈ map TeamA.row_key (TeamA.table_rows out) <->
                     exists df, df ∈ all_data /\ key ∈ TeamA.keys_of df)
     /\ (forall r, r ∈ TeamA.table_rows out ->
           exists segs, TeamA.row_votes r = concat segs
                        /\ Forall2 (segment_of (TeamA.row_key r)) all_data segs))
  /\ (exists out,
        Processor.merge_county_files (first :: rest) = Ok (Some out)
        /\ map (take 2) (saved_rows out)
           = map (fun row => [nth 0 row CNone; nth 1 row CNone])
                 (rows (sheet first))).
Proof.
  intros Hperm Hok Hne Hkeyed Hnd Hrun. split.
  - destruct (key_aligned_merge_table sort_values merge_keys_ok Hperm Hok
                all_data Hne Hkeyed Hnd)
      as (out & Hout & _ & Hkeys & Hrows).
    exists out. split; [exact Hout|]. split; [exact Hkeys|].
    intros r Hr. now destruct (Hrows r Hr) as [_ H].
  - eexists. split; [apply merge_county_files_closed_form; exact Hrun|].
    apply merged_rows_keys.
Qed.

Lemma merged_keys_and_missing_cells_witness :
  (exists out,
     TeamA.merge_county_files sort_by_key keys_of_one_kind
       [adair_frame; polk_frame] = Ok (Some out)
     /\ (forall key, key ∈ map TeamA.row_key (TeamA.table_rows out) <->
                     exists df, df ∈ [adair_frame; polk_frame]
                                /\ key ∈ TeamA.keys_of df)
     /\ (forall r, r ∈ TeamA.table_rows out ->
           exists segs, TeamA.row_votes r = concat segs
                        /\ Forall2 (segment_of (TeamA.row_key r))
                                   [adair_frame; polk_frame] segs))
  /\ (exists out,
        Processor.merge_county_files [adair; polk_swapped] = Ok (Some out)
        /\ map (take 2) (saved_rows out)
           = [[CStr "President"; CStr "A"]; [CStr "State Rep 1"; CStr "B"]]).
Proof.
  apply (merged_keys_and_missing_cells sort_by_key keys_of_one_kind
           [adair_frame; polk_frame] adair [polk_swapped]).
  - exact sort_by_key_perm.
  - exact keys_of_one_kind_joins_text.
  - discriminate.
  - exact (proj1 adair_polk_frames_mergeable).
  - exact (proj2 adair_polk_frames_mergeable).
  - exact adair_polk_well_formed.
Defined.

(** C2 as stated fails.  In the key-aligned merge the row of a candidate
    that the second frame does not list has missing values, not zeros,
    under that frame's columns; in the positional merge a key that only
    the second file names, here (President, Z), is not a key of the
    merged table, which keeps the keys of the first file. *)
Lemma absent_row_is_missing_not_zero :
  (exists out r,
     TeamA.merge_county_files sort_by_key keys_of_one_kind
       [adair_frame; polk_frame] = Ok (Some out)
     /\ r ∈ TeamA.table_rows out
     /\ TeamA.row_key r = (CStr "President", CStr "A")
     /\ ((CStr "President", CStr "A") ∉ TeamA.keys_of polk_frame)
     /\ TeamA.row_votes r = [CInt 5; CNone; CNone]
     /\ TeamA.row_votes r <> [CInt 5; CInt 0; CInt 0])
  /\ (exists out,
        Processor.merge_county_files [adair; polk_other] = Ok (Some out)
        /\ take 2 (nth 0 (rows (sheet polk_other)) [])
           = [CStr "President"; CStr "Z"]
        /\ map (take 2) (saved_rows out)
           = [[CStr "President"; CStr "A"]; [CStr "State Rep 1"; CStr "B"]]
        /\ [CStr "President"; CStr "Z"] ∉ map (take 2) (saved_rows out)).
Proof.
  split.
  - eexists _, _. split; [reflexivity|]. split; [apply list_elem_of_here|].
    split; [reflexivity|]. split; [|split; [reflexivity | discriminate]].
    intros H. apply list_elem_of_singleton in H. discriminate.
  - eexists. split; [reflexivity|]. split; [reflexivity|].
    split; [reflexivity|].
    intros H. repeat (apply elem_of_cons in H as [H|H]; [discriminate|]).
    now apply elem_of_nil in H.
Qed.

(** C9, as the code has it: the file saved by the positional merge starts
    with the race title and candidate name columns, followed by precinct
    columns only, none of which is a metadata column, so the party
    column of the input files is left out; on frames with text keys and
    distinct precinct labels, the table of the key-aligned merge has the
    party column third, empty in every row. *)
Theorem party_column_dropped_or_empty
    (sort_values : list TeamA.merged_row -> list TeamA.merged_row)
    (merge_keys_ok : list cell -> list cell -> bool)
    (all_data : list TeamA.county_frame) first rest :
  (forall l, sort_values l ≡ₚ l) ->
  joins_text_keys merge_keys_ok ->
  all_data <> [] ->
  Forall text_keyed all_data ->
  distinct_labels all_data ->
  well_formed_run first rest ->
  (exists out precincts,
     Processor.merge_county_files (first :: rest) = Ok (Some out)
     /\ saved_headers out = "RaceTitle" :: "CandidateName" :: precincts
     /\ precincts = flat_map (fun f => map snd (precinct_columns f)) (first :: rest)
     /\ Forall (fun name => Py.in_list name metadata_cols = false) precincts
     /\ (forall K merged_row,
           saved_rows out !! K = Some merged_row ->
           exists base_row,
             rows (sheet first) !! K = Some base_row
             /\ merged_row = [nth 0 base_row CNone; nth 1 base_row CNone]
                             ++ flat_map (fun f => votes_at f K) (first :: rest)))
  /\ (exists out,
        TeamA.merge_county_files sort_values merge_keys_ok all_data
        = Ok (Some out)
        /\ take 3 (TeamA.columns out)
           = ["RaceTitle"; "CandidateName"; "PoliticalPartyName"]
        /\ Forall (fun r => TeamA.party r = EmptyString) (TeamA.table_rows out)).
Proof.
  intros Hperm Hok Hne Hkeyed Hnd Hrun. split.
  - eexists _, _. split; [apply merge_county_files_closed_form; exact Hrun|].
    cbn [saved_headers saved_rows]. split; [reflexivity|].
    split; [reflexivity|]. split.
    + apply Forall_forall. intros name Hin.
      apply list_elem_of_In, in_flat_map in Hin as (f & _ & Hin).
      apply list_elem_of_In, list_elem_of_fmap in Hin as ([i nm] & -> & Hin).
      now apply precinct_columns_from_bound in Hin.
    + intros K mrow HK. rewrite merged_rows_lookup in HK.
      destruct (rows (sheet first) !! K) as [base_row|]; [|discriminate].
      injection HK as <-. now exists base_row.
  - destruct (key_aligned_merge_table sort_values merge_keys_ok Hperm Hok
                all_data Hne Hkeyed Hnd)
      as (out & Hout & Hcols & _ & Hrows).
    exists out. split; [exact Hout|]. split; [now rewrite Hcols|].
    apply Forall_forall. intros r Hr. now destruct (Hrows r Hr) as [H _].
Qed.

Lemma party_column_dropped_or_empty_witness :
  (exists out precincts,
     Processor.merge_county_files [adair; polk_swapped] = Ok (Some out)
     /\ saved_headers out = "RaceTitle" :: "CandidateName" :: precincts
     /\ Forall (fun name => Py.in_list name metadata_cols = false) precincts)
  /\ (exists out,
        TeamA.merge_county_files sort_by_key keys_of_one_kind
          [adair_frame; polk_frame] = Ok (Some out)
        /\ Forall (fun r => TeamA.party r = EmptyString) (TeamA.table_rows out)).
Proof.
  destruct (party_column_dropped_or_empty sort_by_key keys_of_one_kind
              [adair_frame; polk_frame] adair [polk_swapped]
              sort_by_key_perm keys_of_one_kind_joins_text ltac:(discriminate)
              (proj1 adair_polk_frames_mergeable)
              (proj2 adair_polk_frames_mergeable)
              adair_polk_well_formed)
    as [(out & precincts & Hout & Hh & _ & Hmeta & _) (out' & Hout' & _ & Hparty)].
  split.
  - exists out, precincts. auto.
  - exists out'. auto.
Defined.

(** C9 as stated fails: the Adair file reports the parties REP and DEM;
    the merged file has no party column and no party label, its third
    column is the first precinct. *)
Lemma party_label_not_attached :
  nth 2 (header (sheet adair)) CNone = CStr "PoliticalPartyName"
  /\ map (fun row => nth 2 row CNone) (rows (sheet adair)) = [CStr "REP"; CStr "DEM"]
  /\ exists out,
       Processor.merge_county_files [adair] = Ok (Some out)
       /\ saved_headers out = ["RaceTitle"; "CandidateName"; "Adair-1"]
       /\ saved_rows out = [[CStr "President"; CStr "A"; CInt 5];
                            [CStr "State Rep 1"; CStr "B"; CInt 3]].
Proof.
  split; [reflexivity|]. split; [reflexivity|].
  eexists. repeat split; reflexivity.
Qed.
Lemma parse_candidates_unfold df col acc :
  parse_candidates df col acc
  = if decide (col < ncols df)
    then match iloc df 1 col with
         | Raise e => Raise e
         | Ok name =>
             if isna name then parse_candidates df (S col) acc
             else match find_total_votes df col lookahead with
                  | Raise e => Raise e
                  | Ok None => parse_candidates df (S col) acc
                  | Ok (Some t) => parse_candidates df (S t) (acc ++ [(name, t)])
                  end
         end
    else Ok acc.
Proof.
  rewrite parse_candidates_equation_1.
  unfold parse_candidates_unfold_clause_1.
  destruct (lt_dec col (ncols df)) as [Hlt|Hge].
  - rewrite decide_True by exact Hlt.
    unfold parse_candidates_unfold_clause_1_clause_2.
    destruct (iloc df 1 col) as [name|e]; [|reflexivity].
    unfold parse_candidates_unfold_clause_1_clause_2_clause_2.
    destruct (isna name); [reflexivity|].
    unfold parse_candidates_unfold_clause_1_clause_2_clause_2_clause_2.
    unfold inspect. cbn beta iota.
    generalize (@eq_refl _ (find_total_votes df col lookahead)).
    generalize (find_total_votes df col lookahead) at 2 3 10.
    intros v e. destruct v as [[t|]|e']; reflexivity.
  - rewrite decide_False by exact Hge. reflexivity.
Qed.

(** ** The multi-sheet parser *)

Lemma iloc_ok df r c :
  rectangular_frame df -> r < length (cells df) -> c < ncols df ->
  iloc df r c = Ok (cell_at df r c).
Proof.
  intros Hrect Hr Hc. unfold iloc, cell_at.
  rewrite (index_nth (cells df) r []) by exact Hr. simpl.
  apply index_nth.
  assert (Hin : nth r (cells df) [] ∈ cells df).
  { apply list_elem_of_In, nth_In. exact Hr. }
  unfold rectangular_frame in Hrect. rewrite Forall_forall in Hrect.
  rewrite (Hrect _ Hin). exact Hc.
Qed.

Lemma find_total_votes_ok df col_idx offsets :
  readable_frame df ->
  find_total_votes df col_idx offsets = Ok (first_total df col_idx offsets).
Proof.
  intros [Hrect Hrows]. induction offsets as [|o rest IH]; simpl; [reflexivity|].
  destruct (col_idx + o <? ncols df) eqn:E; simpl; [|exact IH].
  apply Nat.ltb_lt in E. rewrite iloc_ok by (try assumption; lia). simpl.
  destruct (is_total (cell_at df 2 (col_idx + o))); [reflexivity | exact IH].
Qed.

Lemma first_total_seq_Some df col_idx n : forall a t,
  first_total df col_idx (seq a n) = Some t ->
  col_idx + a <= t < col_idx + a + n
  /\ t < ncols df
  /\ is_total (cell_at df 2 t) = true
  /\ forall t', col_idx + a <= t' < t -> is_total (cell_at df 2 t') = false.
Proof.
  induction n as [|n IH]; intros a t; simpl; [discriminate|].
  destruct ((col_idx + a <? ncols df) && is_total (cell_at df 2 (col_idx + a)))
    eqn:E.
  - intros [= <-]. apply andb_true_iff in E as [E1 E2]. apply Nat.ltb_lt in E1.
    repeat split; try lia; try assumption; intros t' Ht'; lia.
  - intros H. apply IH in H as (Hb & Hlt & Htot & Hfirst).
    split; [lia|]. split; [exact Hlt|]. split; [exact Htot|].
    intros t' Ht'. destruct (decide (t' = col_idx + a)) as [->|Hne].
    + apply andb_false_iff in E as [E|E]; [|exact E].
      apply Nat.ltb_ge in E. lia.
    + apply Hfirst. lia.
Qed.


(** The scan with the reads already done. *)
Lemma parse_candidates_readable df col acc :
  readable_frame df ->
  parse_candidates df col acc
  = if decide (col < ncols df)
    then if isna (cell_at df 1 col)
         then parse_candidates df (S col) acc
         else match first_total df col lookahead with
              | Some t =>
                  parse_candidates df (S t) (acc ++ [(cell_at df 1 col, t)])
              | None => parse_candidates df (S col) acc
              end
    else Ok acc.
Proof.
  intros Hdf. rewrite parse_candidates_unfold.
  destruct (decide (col < ncols df)) as [Hlt|]; [|reflexivity].
  rewrite iloc_ok by (try apply Hdf; try assumption; destruct Hdf; lia).
  now rewrite find_total_votes_ok by exact Hdf.
Qed.

(** The scan returns, and what it adds does not depend on what was
    found before. *)
Lemma parse_candidates_total df :
  readable_frame df ->
  forall n col acc, ncols df - col <= n ->
    exists found,
      parse_candidates df col [] = Ok found
      /\ parse_candidates df col acc = Ok (acc ++ found)
      /\ Forall (fun cc : cell * nat => col <= cc.2 < ncols df) found.
Proof.
  intros Hdf. induction n as [|n IH]; intros col acc Hn.
  - exists [].
    rewrite (parse_candidates_readable df col []),
            (parse_candidates_readable df col acc) by exact Hdf.
    rewrite !decide_False by lia. rewrite app_nil_r. auto.
  - rewrite (parse_candidates_readable df col []),
            (parse_candidates_readable df col acc) by exact Hdf.
    destruct (decide (col < ncols df)) as [Hlt|Hge].
    2:{ exists []. rewrite app_nil_r. auto. }
    assert (Hnext : exists found,
              parse_candidates df (S col) [] = Ok found
              /\ parse_candidates df (S col) acc = Ok (acc ++ found)
              /\ Forall (fun cc : cell * nat => col <= cc.2 < ncols df) found).
    { destruct (IH (S col) acc ltac:(lia)) as (found & H1 & H2 & H3).
      exists found. split; [exact H1|]. split; [exact H2|].
      eapply Forall_impl; [exact H3|]. simpl. intros cc Hcc. lia. }
    destruct (isna (cell_at df 1 col)); [exact Hnext|].
    destruct (first_total df col lookahead) as [t|] eqn:Ht; [|exact Hnext].
    apply first_total_seq_Some in Ht as (Hb & Hlt' & _).
    destruct (IH (S t) ([] ++ [(cell_at df 1 col, t)]) ltac:(lia))
      as (found & H1 & H2 & H3).
    destruct (IH (S t) (acc ++ [(cell_at df 1 col, t)]) ltac:(lia))
      as (found' & H1' & H2' & _).
    assert (found' = found) by congruence. subst found'.
    exists ((cell_at df 1 col, t) :: found).
    split; [exact H2|]. split; [rewrite H2'; now rewrite <- app_assoc|].
    constructor; [simpl; lia|].
    eapply Forall_impl; [exact H3|]. simpl. intros cc Hcc. lia.
Qed.


Lemma ballot_sheet_readable : readable_frame ballot_sheet.
Proof. split; [repeat constructor | simpl; lia]. Qed.


(** *** Records of a sheet *)

Lemma collect_precincts_spec col0 : forall start val r,
  (val, r) ∈ collect_precincts start col0 ->
  start <= r < start + length col0 /\ col0 !! (r - start) = Some val.
Proof.
  induction col0 as [|v rest IH]; intros start val r; simpl.
  - intros H. now apply elem_of_nil in H.
  - destruct (bool_decide (v = CStr "Total:") || isna v);
      [intros H; now apply elem_of_nil in H|].
    rewrite elem_of_cons. intros [[= -> ->]|H].
    + split; [lia|]. now rewrite Nat.sub_diag.
    + apply IH in H as [Hb Hl]. split; [lia|].
      replace (r - start) with (S (r - S start)) by lia. exact Hl.
Qed.

Lemma foldl_append {A B} (f : A -> list B) (l : list A) : forall acc,
  foldl (fun acc a => acc ++ f a) acc l = acc ++ flat_map f l.
Proof.
  induction l as [|a l IH]; intros acc; simpl.
  - now rewrite app_nil_r.
  - rewrite IH. now rewrite <- app_assoc.
Qed.

Lemma emit_records_ok county df race_title precincts all_races cc :
  rectangular_frame df ->
  cc.2 < ncols df ->
  Forall (fun pr : cell * nat => pr.2 < length (cells df)) precincts ->
  emit_records county df race_title precincts all_races cc
  = Ok (all_races ++ map (record_of county df race_title cc) precincts).
Proof.
  intros Hrect Hc Hrows. unfold emit_records.
  rewrite (for_each_pure _
             (fun acc pr => acc ++ [record_of county df race_title cc pr])).
  - rewrite (foldl_append (fun pr => [record_of county df race_title cc pr])).
    assert (H : flat_map (fun pr => [record_of county df race_title cc pr])
                         precincts
                = map (record_of county df race_title cc) precincts)
      by (clear; induction precincts as [|pr l IH]; simpl; congruence).
    now rewrite H.
  - intros acc pr Hin. rewrite Forall_forall in Hrows.
    rewrite iloc_ok by (try assumption; now apply Hrows). reflexivity.
Qed.

Lemma process_sheet_ok county all_races df :
  sheet_frame df ->
  exists precincts candidates,
    process_sheet county all_races df
    = Ok (all_races
          ++ flat_map (fun cc => map (record_of county df (cell_at df 0 0) cc)
                                     precincts) candidates)
    /\ Forall (fun pr : cell * nat => 3 <= pr.2 < length (cells df)) precincts
    /\ Forall (fun cc : cell * nat => 1 <= cc.2 < ncols df) candidates.
Proof.
  intros (Hrect & Hw & Hrows). unfold process_sheet.
  rewrite iloc_ok by assumption. simpl.
  destruct (isna (cell_at df 0 0)).
  { exists [], []. simpl. rewrite app_nil_r. auto. }
  rewrite (comprehension_pure _ (fun row => nth 0 row CNone)).
  2:{ intros row Hin. apply index_nth.
      assert (Hin' : row ∈ cells df).
      { apply list_elem_of_lookup in Hin as [i Hi].
        rewrite lookup_drop in Hi. eapply list_elem_of_lookup_2. exact Hi. }
      unfold rectangular_frame in Hrect. rewrite Forall_forall in Hrect.
      rewrite (Hrect _ Hin'). exact Hw. }
  simpl.
  set (precincts := collect_precincts 3 (map (fun row => nth 0 row CNone)
                                             (drop 3 (cells df)))).
  assert (Hprec : Forall (fun pr : cell * nat => 3 <= pr.2 < length (cells df))
                         precincts).
  { apply Forall_forall. intros [val r] Hin.
    apply collect_precincts_spec in Hin as [Hb _].
    rewrite length_map, length_drop in Hb. simpl. lia. }
  destruct (bool_decide (length precincts = 0)) eqn:E.
  { exists [], []. simpl. rewrite app_nil_r. auto. }
  apply bool_decide_eq_false in E.
  assert (Hdf : readable_frame df).
  { split; [exact Hrect|]. destruct precincts as [|pr ?]; [contradiction|].
    apply Forall_cons in Hprec as [Hpr _]. lia. }
  destruct (parse_candidates_total df Hdf (ncols df) 1 [] ltac:(lia))
    as (found & Hscan & _ & Hcols).
  rewrite Hscan. simpl.
  exists precincts, found.
  split; [|split; [exact Hprec | exact Hcols]].
  rewrite (for_each_pure _
             (fun acc cc => acc ++ map (record_of county df (cell_at df 0 0) cc)
                                       precincts)).
  - now rewrite foldl_append.
  - intros acc cc Hin. rewrite Forall_forall in Hcols.
    apply emit_records_ok; [exact Hrect | now apply Hcols |].
    eapply Forall_impl; [exact Hprec|]. simpl. intros pr Hpr. lia.
Qed.

(** ** The flat parser *)

Lemma process_row_ok columns_to_keep new_sheet kept removed row :
  0 < length row ->
  Forall (fun c : nat * string => c.1 < length row) columns_to_keep ->
  process_row columns_to_keep (new_sheet, kept, removed) row
  = Ok (if wanted row
        then (new_sheet ++ [projected columns_to_keep row], S kept, removed)
        else (new_sheet, kept, S removed)).
Proof.
  intros Hw Hidx. unfold process_row, wanted.
  rewrite (index_nth row 0 CNone) by exact Hw. simpl.
  destruct (is_race_we_want (nth 0 row CNone)); [|reflexivity].
  rewrite (comprehension_pure _ (fun c : nat * string => nth c.1 row CNone)).
  - reflexivity.
  - intros c Hc. apply index_nth. rewrite Forall_forall in Hidx. now apply Hidx.
Qed.

Lemma process_rows_ok columns_to_keep (data : list (list cell)) :
  Forall (fun row => 0 < length row
            /\ Forall (fun c : nat * string => c.1 < length row) columns_to_keep)
         data ->
  forall new_sheet kept removed,
    for_each (process_row columns_to_keep) data (new_sheet, kept, removed)
    = Ok (new_sheet
          ++ map (projected columns_to_keep)
                 (filter (fun row => wanted row = true) data),
          kept + length (filter (fun row => wanted row = true) data),
          removed + length (filter (fun row => wanted row <> true) data)).
Proof.
  induction 1 as [|row data [Hw Hidx] _ IH]; intros new_sheet kept removed.
  - simpl. now rewrite app_nil_r, !Nat.add_0_r.
  - cbn [for_each]. rewrite (process_row_ok _ _ _ _ _ Hw Hidx).
    change (Ok ?a ≫= ?g) with (g a). cbv beta.
    rewrite !filter_cons.
    destruct (wanted row) eqn:E.
    + rewrite IH. rewrite decide_True by reflexivity.
      rewrite decide_False by (intros H; now apply H).
      simpl. rewrite <- app_assoc. simpl.
      now rewrite Nat.add_succ_r.
    + rewrite IH. rewrite decide_False by discriminate.
      rewrite decide_True by discriminate. simpl.
      now rewrite Nat.add_succ_r.
Qed.

Lemma resolved_from_bound header_row i name :
  (i, name) ∈ resolved_from 0 header_row -> i < length header_row.
Proof.
  intros H. apply elem_of_resolved_from in H as (_ & h & Hl & _).
  rewrite Nat.sub_0_r in Hl. eapply lookup_lt_Some. exact Hl.
Qed.



(** ** Further properties of the string model, the resolver and the classifier *)

Lemma substring_split s : forall k,
  k <= String.length s ->
  s = substring 0 k s +:+ substring k (String.length s - k) s.
Proof.
  induction s as [|c s IH]; intros k Hk.
  - simpl in Hk. assert (k = 0) as -> by lia. reflexivity.
  - destruct k as [|k].
    + change (String c s = substring 0 (S (String.length s)) (String c s)).
      cbn [substring]. f_equal.
      specialize (IH 0 ltac:(lia)). rewrite Nat.sub_0_r in IH.
      destruct s; [reflexivity|]. exact IH.
    + simpl in Hk.
      change (String c s = String c (substring 0 k s
                +:+ substring k (String.length s - k) s)).
      f_equal. apply IH. lia.
Qed.

(** [s[:-len(suf)]] is [s] without the suffix that [endswith] found. *)
Lemma endswith_drop_last s suf :
  Py.endswith s suf = true -> s = Py.drop_last (String.length suf) s +:+ suf.
Proof.
  unfold Py.endswith, Py.drop_last. intros H.
  apply andb_true_iff in H as [Hle Heq].
  apply Nat.leb_le in Hle. apply String.eqb_eq in Heq.
  rewrite (substring_split s (String.length s - String.length suf)) at 1 by lia.
  replace (String.length s - (String.length s - String.length suf))
    with (String.length suf) by lia.
  now rewrite Heq.
Qed.

(** A header cell that is a number makes [header.strip()] raise. *)
Lemma keep_columns_numeric header_row : forall n acc z,
  CInt z ∈ header_row ->
  for_each keep_column (enumerate_from n header_row) acc = Raise AttributeError.
Proof.
  induction header_row as [|h rest IH]; intros n acc z Hin.
  - now apply elem_of_nil in Hin.
  - cbn [enumerate_from for_each].
    destruct h as [|s|z']; [| |reflexivity].
    + apply elem_of_cons in Hin as [[=]|Hin]. simpl. now apply (IH _ _ z).
    + apply elem_of_cons in Hin as [[=]|Hin].
      destruct (keep_column acc (n, CStr s)) as [acc'|e] eqn:E.
      * simpl. now apply (IH _ _ z).
      * exfalso. unfold keep_column in E.
        destruct (Py.in_list (Py.strip s) metadata_columns); [discriminate|].
        destruct (Py.endswith (Py.strip s) " Total"); [|discriminate].
        destruct (Py.contains "-" (Py.drop_last 6 (Py.strip s))); discriminate.
Qed.

(** Outside the text-or-blank header rows of C5 the resolver has no
    result: a numeric header cell raises [AttributeError]. *)
Theorem get_columns_to_keep_numeric_header header_row z :
  CInt z ∈ header_row ->
  get_columns_to_keep header_row = Raise AttributeError.
Proof. intros Hin. unfold get_columns_to_keep, enumerate. now apply (keep_columns_numeric _ _ _ z). Qed.

Lemma get_columns_to_keep_numeric_header_witness :
  get_columns_to_keep [CStr "RaceTitle"; CInt 2016] = Raise AttributeError.
Proof.
  apply (get_columns_to_keep_numeric_header _ 2016).
  apply list_elem_of_In. simpl. auto.
Defined.

(** The flat classifier in full: anything that is not text is dropped
    without an exception, a text is kept exactly when its lower-case form
    holds one of the eight keywords, and the empty text is dropped. *)
Theorem is_race_we_want_characterised :
  (forall c, (forall s, c <> CStr s) -> is_race_we_want c = false)
  /\ (forall s, is_race_we_want (CStr s) = true <->
                exists keyword, keyword ∈ races_to_keep
                                /\ Py.contains keyword (Py.lower s) = true)
  /\ is_race_we_want (CStr EmptyString) = false.
Proof.
  split; [exact is_race_we_want_not_text|].
  split; [exact is_race_we_want_iff | reflexivity].
Qed.

Lemma tracked_office_kept_witness :
  is_race_we_want (CStr ("2016 " +:+ "U.S. Representative" +:+ " District 3"))
  = true.
Proof.
  apply (tracked_office_kept "u.s. representative").
  - apply list_elem_of_In. simpl. auto.
  - reflexivity.
Defined.

(** * Further properties *)

(** ** Column counts and structural findings of the positional merge *)

Lemma length_votes_at (f : county_file) K :
  length (votes_at f K)
  = if decide (K < length (rows (sheet f)))
    then length (precinct_columns f) else 0.
Proof.
  unfold votes_at, precinct_votes, cells_at.
  destruct (rows (sheet f) !! K) as [row|] eqn:E.
  - apply lookup_lt_Some in E. rewrite decide_True by exact E.
    now rewrite !length_map.
  - apply lookup_ge_None in E. rewrite decide_False by lia. reflexivity.
Qed.

Lemma length_contributions_le (files : list county_file) K :
  length (flat_map (fun f => votes_at f K) files) <= merged_total files.
Proof.
  unfold merged_total. induction files as [|f files IH]; simpl; [lia|].
  rewrite !length_app, length_votes_at.
  destruct (decide (K < length (rows (sheet f)))); lia.
Qed.

Lemma length_contributions_eq (files : list county_file) K :
  length (flat_map (fun f => votes_at f K) files) = merged_total files
  <-> Forall (fun f => K < length (rows (sheet f)) \/ precinct_columns f = [])
             files.
Proof.
  induction files as [|f files IH].
  - split; [constructor | reflexivity].
  - pose proof (length_contributions_le files K) as Hle.
    unfold merged_total in *. cbn [flat_map].
    rewrite !length_app, length_votes_at, Forall_cons.
    destruct (decide (K < length (rows (sheet f)))) as [Hlt|Hge].
    + split.
      * intros H. split; [now left|]. apply IH. lia.
      * intros [_ H]. apply IH in H. lia.
    + split.
      * intros H. assert (length (precinct_columns f) = 0) by lia.
        split; [right; now apply length_zero_iff_nil|]. apply IH. lia.
      * intros [[H|H] Hrest]; [lia|]. apply IH in Hrest. rewrite H. simpl. lia.
Qed.

Lemma elem_of_mismatches_inv base_rows (f : county_file) p :
  p ∈ mismatches base_rows f ->
  exists K row er ec,
    rows (sheet f) !! K = Some row
    /\ base_rows !! K = Some (er, ec)
    /\ (nth 0 row CNone, nth 1 row CNone) <> (er, ec)
    /\ p = RowMismatch (county_name f) er ec (nth 0 row CNone) (nth 1 row CNone).
Proof.
  unfold mismatches. rewrite list_elem_of_In, in_flat_map.
  intros ([K row] & Hin & Hp).
  apply list_elem_of_In, elem_of_enumerate_from in Hin as [_ Hrow].
  rewrite Nat.sub_0_r in Hrow.
  unfold mismatch_at in Hp. simpl in Hp.
  destruct (base_rows !! K) as [[er ec]|] eqn:Hb; [|contradiction].
  destruct (cell_neqb (nth 0 row CNone) er || cell_neqb (nth 1 row CNone) ec)
    eqn:E; [|contradiction].
  destruct Hp as [<-|[]]. exists K, row, er, ec.
  split; [exact Hrow|]. split; [exact Hb|]. split; [|reflexivity].
  intros [= H0 H1]. unfold cell_neqb in E.
  rewrite !bool_decide_eq_true_2 in E by assumption. discriminate.
Qed.

Lemma elem_of_column_findings_iff expected (data : list (list cell)) K len :
  ColumnCount (K + 2) len expected
    ∈ flat_map (column_finding expected) (enumerate data)
  <-> exists row, data !! K = Some row /\ len = length row /\ len <> expected.
Proof.
  rewrite list_elem_of_In, in_flat_map. split.
  - intros ([i row] & Hin & Hp).
    apply list_elem_of_In, elem_of_enumerate_from in Hin as [_ Hrow].
    rewrite Nat.sub_0_r in Hrow. unfold column_finding in Hp. simpl in Hp.
    destruct (bool_decide (length row = expected)) eqn:E; [contradiction|].
    apply bool_decide_eq_false in E. destruct Hp as [[= Hi <-]|[]].
    assert (i = K) as -> by lia. now exists row.
  - intros (row & Hrow & -> & Hne). exists (K, row). split.
    + apply list_elem_of_In, elem_of_enumerate_from. split; [lia|].
      now rewrite Nat.sub_0_r.
    + unfold column_finding. simpl.
      rewrite bool_decide_eq_false_2 by exact Hne. now left.
Qed.

(** In a completed run, merged row [K] gets a column-count finding
    exactly when some file that has no row [K] has a precinct column:
    check 1 reports the rows that a shorter file left incomplete. *)
Theorem column_count_reports_shorter_files first rest K :
  well_formed_run first rest ->
  K < length (rows (sheet first)) ->
  exists out,
    Processor.merge_county_files (first :: rest) = Ok (Some out)
    /\ ((exists len expected, ColumnCount (K + 2) len expected ∈ all_problems out)
        <-> exists f, f ∈ rest
                      /\ length (rows (sheet f)) <= K
                      /\ precinct_columns f <> []).
Proof.
  intros Hrun HK.
  eexists. split; [apply merge_county_files_closed_form; exact Hrun|].
  cbn [all_problems]. unfold merge_problems.
  destruct (proj2 (lookup_lt_is_Some (rows (sheet first)) K) HK) as [brow Hb].
  assert (Hrow : merged_rows first (first :: rest) !! K
                 = Some ([nth 0 brow CNone; nth 1 brow CNone]
                         ++ flat_map (fun f => votes_at f K) (first :: rest))).
  { now rewrite merged_rows_lookup, Hb. }
  assert (Hlen : forall row, merged_rows first (first :: rest) !! K = Some row ->
            (length row <> 2 + merged_total (first :: rest)
             <-> exists f, f ∈ rest /\ length (rows (sheet f)) <= K
                           /\ precinct_columns f <> [])).
  { intros row Hr. rewrite Hrow in Hr.
    assert (Hl : length row
                 = 2 + length (flat_map (fun f => votes_at f K) (first :: rest)))
      by (injection Hr as <-; reflexivity).
    rewrite Hl. clear Hr Hl.
    pose proof (length_contributions_eq (first :: rest) K) as Heq.
    split.
    - intros Hne.
      destruct (decide (Exists (fun f => length (rows (sheet f)) <= K
                                         /\ precinct_columns f <> []) rest))
        as [Hex|Hnex].
      + apply Exists_exists in Hex as (f & Hin & H). now exists f.
      + exfalso. apply Hne. apply (f_equal (Nat.add 2)). apply Heq. constructor; [now left|].
        apply Forall_forall. intros f Hin.
        destruct (decide (K < length (rows (sheet f)))) as [|Hge]; [now left|].
        right. destruct (precinct_columns f) as [|c l] eqn:E; [reflexivity|].
        exfalso. apply Hnex. apply Exists_exists. exists f.
        split; [exact Hin|]. split; [lia|]. rewrite E. discriminate.
    - intros (f & Hin & Hshort & Hpc) Hlen.
      assert (Hall : Forall (fun f => K < length (rows (sheet f))
                                      \/ precinct_columns f = [])
                            (first :: rest)) by (apply Heq; lia).
      rewrite Forall_forall in Hall.
      destruct (Hall f ltac:(now right)) as [H|H]; [lia | contradiction]. }
  split.
  - intros (len & expected & Hin).
    apply elem_of_app in Hin as [Hin|Hin].
    { apply list_elem_of_In, in_flat_map in Hin as (f & _ & Hin).
      apply list_elem_of_In, elem_of_mismatches_inv in Hin
        as (? & ? & ? & ? & _ & _ & _ & H). discriminate. }
    apply elem_of_app in Hin as [Hin|Hin].
    + pose proof (elem_of_column_findings _ _ _ _ Hin)
        as (i & l & [= _ _ Hexp] & _).
      subst expected.
      apply elem_of_column_findings_iff in Hin as (row & Hr & -> & Hne).
      now apply (Hlen row Hr).
    + apply elem_of_pattern_findings in Hin as (row & _ & Hin).
      apply elem_of_pattern_finding in Hin as (H & _). discriminate.
  - intros Hex. eexists _, _.
    apply elem_of_app. right. apply elem_of_app. left.
    apply elem_of_column_findings_iff. eexists. split; [exact Hrow|].
    split; [reflexivity|]. now apply (Hlen _ Hrow).
Qed.

Lemma adair_polk_short_well_formed : well_formed_run adair [polk_short].
Proof.
  unfold well_formed_run, well_formed_file, rectangular. simpl.
  repeat split; repeat constructor.
Qed.

Lemma column_count_reports_shorter_files_witness :
  exists out,
    Processor.merge_county_files [adair; polk_short] = Ok (Some out)
    /\ exists len expected, ColumnCount 3 len expected ∈ all_problems out.
Proof.
  destruct (column_count_reports_shorter_files adair [polk_short] 1
              adair_polk_short_well_formed ltac:(simpl; lia))
    as (out & Hout & Hiff).
  exists out. split; [exact Hout|]. apply Hiff.
  exists polk_short. split; [apply list_elem_of_here|].
  split; [simpl; lia | discriminate].
Defined.

Lemma mismatches_aligned base_rows (f : county_file) :
  map (fun row => (nth 0 row CNone, nth 1 row CNone)) (rows (sheet f))
  = base_rows ->
  mismatches base_rows f = [].
Proof.
  intros Hkeys.
  destruct (mismatches base_rows f) as [|p l] eqn:E; [reflexivity|].
  exfalso.
  assert (Hin : p ∈ mismatches base_rows f) by (rewrite E; apply list_elem_of_here).
  apply elem_of_mismatches_inv in Hin as (K & row & er & ec & Hrow & Hb & Hne & _).
  apply Hne. rewrite <- Hkeys in Hb.
  change (map ?g ?l) with (g <$> l) in Hb.
  rewrite list_lookup_fmap, Hrow in Hb. simpl in Hb. congruence.
Qed.

(** When every file lists the same (race title, candidate name) pairs in
    the same order as the first, a completed run records no row mismatch
    and no column-count finding: its problems are suspicious vote
    patterns only, the saved table has one row per row of the first file,
    and every saved row is as long as the header row. *)
Theorem aligned_files_merge_without_structural_findings first rest :
  well_formed_run first rest ->
  Forall (fun f => map (fun row => (nth 0 row CNone, nth 1 row CNone))
                       (rows (sheet f))
                   = base_rows_of (sheet first)) rest ->
  exists out,
    Processor.merge_county_files (first :: rest) = Ok (Some out)
    /\ length (saved_rows out) = length (rows (sheet first))
    /\ Forall (fun row => length row = length (saved_headers out))
              (saved_rows out)
    /\ Forall (fun p => exists title candidate, p = Suspicious title candidate)
              (all_problems out).
Proof.
  intros Hrun Hkeys.
  eexists. split; [apply merge_county_files_closed_form; exact Hrun|].
  cbn [saved_rows saved_headers all_problems].
  assert (Hall : Forall (fun f => map (fun row => (nth 0 row CNone, nth 1 row CNone))
                                      (rows (sheet f))
                                  = base_rows_of (sheet first)) (first :: rest))
    by (constructor; [reflexivity | exact Hkeys]).
  assert (Hlen : forall K, K < length (rows (sheet first)) ->
            length (flat_map (fun f => votes_at f K) (first :: rest))
            = merged_total (first :: rest)).
  { intros K HK. apply length_contributions_eq.
    eapply Forall_impl; [exact Hall|]. intros f Hf. left.
    apply (f_equal length) in Hf. unfold base_rows_of in Hf.
    rewrite !length_map in Hf. lia. }
  assert (Hhead : length (["RaceTitle"; "CandidateName"]
                          ++ flat_map (fun f => map snd (precinct_columns f))
                                      (first :: rest))
                  = 2 + merged_total (first :: rest)).
  { rewrite length_app. cbn [length]. f_equal. unfold merged_total.
    generalize (first :: rest). intros l.
    induction l as [|f l IH]; [reflexivity|].
    cbn [flat_map]. rewrite !length_app, length_map. now rewrite IH. }
  assert (Hrows : Forall (fun row => length row = 2 + merged_total (first :: rest))
                         (merged_rows first (first :: rest))).
  { apply Forall_lookup. intros K row HK. rewrite merged_rows_lookup in HK.
    destruct (rows (sheet first) !! K) as [brow|] eqn:Hb; [|discriminate].
    injection HK as <-. apply lookup_lt_Some in Hb.
    change (length ([nth 0 brow CNone; nth 1 brow CNone]
                    ++ flat_map (fun f => votes_at f K) (first :: rest))
            = 2 + merged_total (first :: rest)).
    rewrite length_app, (Hlen K Hb). reflexivity. }
  split; [unfold merged_rows; now rewrite length_imap|].
  split; [rewrite Hhead; exact Hrows|].
  unfold merge_problems.
  assert (H1 : flat_map (mismatches (base_rows_of (sheet first))) (first :: rest)
               = []).
  { clear -Hall. induction Hall as [|f l Hf _ IH]; [reflexivity|].
    cbn [flat_map]. now rewrite (mismatches_aligned _ f Hf), IH. }
  assert (H2 : forall n,
            flat_map (column_finding (2 + merged_total (first :: rest)))
                     (enumerate_from n (merged_rows first (first :: rest))) = []).
  { induction Hrows as [|row l Hr _ IH]; intros n; [reflexivity|].
    cbn [enumerate_from flat_map]. rewrite IH. unfold column_finding. cbn [snd].
    now rewrite bool_decide_eq_true_2 by exact Hr. }
  unfold enumerate. rewrite H1, H2. cbn [app].
  apply Forall_forall. intros p Hin.
  apply elem_of_pattern_findings in Hin as (row & _ & Hin).
  apply elem_of_pattern_finding in Hin as (-> & _). eauto.
Qed.

Lemma aligned_files_merge_without_structural_findings_witness :
  exists out,
    Processor.merge_county_files [adair; polk_aligned] = Ok (Some out)
    /\ length (saved_rows out) = 2
    /\ Forall (fun row => length row = length (saved_headers out))
              (saved_rows out).
Proof.
  destruct (aligned_files_merge_without_structural_findings adair [polk_aligned])
    as (out & Hout & Hlen & Hrect & _).
  - unfold well_formed_run, well_formed_file, rectangular. simpl.
    repeat split; repeat constructor.
  - repeat constructor.
  - exists out. auto.
Defined.

(** ** Exceptions of the verification pass *)

Lemma check_vote_pattern_numeric_title total problems row n :
  2 <= length row ->
  nth 0 row CNone = CInt n -> n <> 0%Z ->
  check_vote_pattern total problems row = Raise AttributeError.
Proof.
  intros Hw Hn Hnz. unfold check_vote_pattern.
  rewrite (index_nth row 0 CNone) by lia. rewrite Hn. simpl.
  unfold lowered_title. simpl.
  destruct (n =? 0)%Z eqn:E; [apply Z.eqb_eq in E; contradiction|].
  reflexivity.
Qed.

Lemma check_vote_pattern_cases total problems row :
  2 <= length row ->
  check_vote_pattern total problems row = Raise AttributeError
  \/ exists problems', check_vote_pattern total problems row = Ok problems'.
Proof.
  intros Hw. unfold check_vote_pattern.
  rewrite (index_nth row 0 CNone) by lia. simpl.
  destruct (lowered_title (nth 0 row CNone)) as [title|e] eqn:E; simpl.
  - rewrite (index_nth row 1 CNone) by lia. simpl. right.
    match goal with |- context [if ?c then Ok ?a else Ok ?b] =>
      destruct c; eauto end.
  - left. f_equal. unfold lowered_title in E.
    destruct (truthy (nth 0 row CNone)); [|discriminate].
    destruct (nth 0 row CNone); congruence.
Qed.

Lemma check_vote_patterns_numeric_title total (data : list (list cell)) :
  Forall (fun row => 2 <= length row) data ->
  Exists (fun row => exists n, nth 0 row CNone = CInt n /\ n <> 0%Z) data ->
  forall problems,
    for_each (check_vote_pattern total) data problems = Raise AttributeError.
Proof.
  intros Hw Hex. induction Hex as [row data (n & Hn & Hnz)|row data Hex IH];
    intros problems; apply Forall_cons in Hw as [Hrow Hw]; cbn [for_each].
  - now rewrite (check_vote_pattern_numeric_title _ _ _ n Hrow Hn Hnz).
  - destruct (check_vote_pattern_cases total problems row Hrow)
      as [->|(p' & ->)]; [reflexivity|].
    change (Ok ?a ≫= ?g) with (g a). cbv beta. now apply IH.
Qed.

(** A race title of the first file that is a number other than zero
    makes the run raise [AttributeError] in the verification pass, after
    all files have been merged: nothing is saved. *)
Theorem numeric_race_title_aborts_run first rest :
  Forall well_formed_file (first :: rest) ->
  Forall (fun f => length (rows (sheet f)) <= length (rows (sheet first))) rest ->
  Exists (fun row => exists n, nth 0 row CNone = CInt n /\ n <> 0%Z)
         (rows (sheet first)) ->
  Processor.merge_county_files (first :: rest) = Raise AttributeError.
Proof.
  intros Hwf Hfit Hnum.
  assert (Hfirst : well_formed_file first) by (now apply Forall_cons in Hwf).
  pose proof (well_formed_rows first Hfirst) as Hrows.
  unfold Processor.merge_county_files, merge_files_from.
  rewrite initial_merged_data_ok.
  2:{ eapply Forall_impl; [exact Hrows|]. now intros row [H _]. }
  change (Ok ?a ≫= ?g) with (g a). cbv beta.
  match goal with |- context [for_each (add_county ?b) (first :: rest) ?s] =>
    destruct (add_counties_ok b (first :: rest) s Hwf)
      as (data' & Hrun & Hlen & Hlook) end.
  { simpl. rewrite length_map. constructor; [lia | exact Hfit]. }
  rewrite Hrun. clear Hrun.
  change (Ok ?a ≫= ?g) with (g a). cbv beta.
  cbn [merged_data merged_headers total_precincts problems_found] in *.
  assert (Hdata : data' = merged_rows first (first :: rest)).
  { apply list_eq. intros k. rewrite Hlook, merged_rows_lookup, list_lookup_fmap.
    now destruct (rows (sheet first) !! k). }
  subst data'. unfold verify.
  rewrite check_vote_patterns_numeric_title; [reflexivity| |].
  - apply Forall_lookup. intros k row Hk. rewrite merged_rows_lookup in Hk.
    destruct (rows (sheet first) !! k); [|discriminate].
    injection Hk as <-. simpl. lia.
  - apply Exists_exists in Hnum as (brow & Hin & n & Hn & Hnz).
    apply list_elem_of_lookup in Hin as [k Hk].
    apply Exists_exists. eexists. split.
    + eapply list_elem_of_lookup_2. rewrite merged_rows_lookup, Hk. reflexivity.
    + exists n. split; [exact Hn | exact Hnz].
Qed.

Lemma numeric_race_title_aborts_run_witness :
  Processor.merge_county_files [year_titled] = Raise AttributeError.
Proof.
  apply (numeric_race_title_aborts_run year_titled []).
  - unfold well_formed_file, rectangular. simpl. repeat constructor.
  - constructor.
  - apply Exists_cons_hd. exists 2016%Z. split; [reflexivity | discriminate].
Defined.

(** ** Soundness of the suspicious flag *)

Lemma has_votes_iff v : has_votes v = true <-> counts_as_votes v.
Proof.
  unfold has_votes, counts_as_votes. split.
  - intros H. apply andb_true_iff in H as [Ht Hn].
    destruct v as [|s|n]; simpl in *; [discriminate| |].
    + destruct (Py.int_of_str s) as [n|] eqn:E; [|discriminate].
      apply Z.ltb_lt in Hn. exists n. split; [exact Hn|]. right. now exists s.
    + apply Z.ltb_lt in Hn. exists n. auto.
  - intros (n & Hn & [->|(s & -> & Hs)]); simpl.
    + apply andb_true_iff. split; [apply negb_true_iff, Z.eqb_neq; lia|].
      now apply Z.ltb_lt.
    + rewrite Hs. apply andb_true_iff. split; [|now apply Z.ltb_lt].
      destruct s; [discriminate | reflexivity].
Qed.

Lemma count_le_length votes : count_precincts_with_votes votes <= length votes.
Proof.
  unfold count_precincts_with_votes. rewrite count_from. simpl.
  apply length_filter.
Qed.

Lemma count_eq_length votes :
  count_precincts_with_votes votes = length votes ->
  Forall counts_as_votes votes.
Proof.
  unfold count_precincts_with_votes. rewrite count_from. simpl.
  induction votes as [|v votes IH]; [constructor|].
  rewrite filter_cons. destruct (decide (has_votes v = true)) as [Hv|Hv].
  - simpl. intros H. constructor; [now apply has_votes_iff|]. apply IH. lia.
  - intros H. pose proof (length_filter (fun v => has_votes v = true) votes).
    simpl in H. lia.
Qed.

(** Every suspicious finding that the verification pass adds comes from a
    row of a race that is not statewide, with at least [total_precincts]
    cells after the two key cells; when the row has exactly that many,
    each of them counts as votes, so a row with a blank, zero or negative
    precinct cell is not flagged. *)
Theorem suspicious_finding_has_full_coverage
    (data : list (list cell)) total problems :
  checkable data ->
  exists found,
    verify data total problems = Ok found
    /\ forall title candidate,
         Suspicious title candidate ∈ found ->
         Suspicious title candidate ∈ problems
         \/ exists row,
              row ∈ data
              /\ title = title_of (nth 0 row CNone)
              /\ candidate = nth 1 row CNone
              /\ is_statewide title = false
              /\ 2 + total <= length row
              /\ (length row = 2 + total -> Forall counts_as_votes (drop 2 row)).
Proof.
  intros Hd. eexists. split; [apply verify_ok; exact Hd|].
  intros title candidate Hin.
  apply elem_of_app in Hin as [Hin|Hin]; [now left|].
  apply elem_of_app in Hin as [Hin|Hin].
  { apply elem_of_column_findings in Hin as (i & len & H & _). discriminate. }
  right. apply elem_of_pattern_findings in Hin as (row & Hrow & Hin).
  apply elem_of_pattern_finding in Hin as ([= -> ->] & Hns & Hcount).
  exists row. split; [exact Hrow|]. split; [reflexivity|]. split; [reflexivity|].
  split; [exact Hns|].
  pose proof (count_le_length (drop 2 row)) as Hle. rewrite length_drop in Hle.
  unfold checkable in Hd. rewrite Forall_forall in Hd.
  destruct (Hd row Hrow) as [Hw _].
  split; [lia|]. intros Hlen. apply count_eq_length.
  rewrite length_drop. lia.
Qed.

Lemma suspicious_finding_has_full_coverage_witness :
  exists found,
    verify district_table 2 [] = Ok found
    /\ forall title candidate,
         Suspicious title candidate ∈ found ->
         exists row, row ∈ district_table
                     /\ title = title_of (nth 0 row CNone)
                     /\ is_statewide title = false.
Proof.
  destruct (suspicious_finding_has_full_coverage district_table 2 [])
    as (found & Hv & Hsound).
  { repeat constructor. }
  exists found. split; [exact Hv|].
  intros title candidate Hin.
  destruct (Hsound title candidate Hin) as [H|(row & Hrow & Ht & _ & Hns & _)].
  - now apply elem_of_nil in H.
  - exists row. auto.
Defined.

(** With no precinct column at all ([total_precincts = 0], rows of two
    key cells), check 2 flags every row whose race is not statewide,
    rows with a blank race title included: zero precincts with votes
    equals all zero precincts. *)
Theorem no_precinct_columns_flags_every_district_row
    (data : list (list cell)) problems :
  Forall (fun row => length row = 2 /\ text_or_blank (nth 0 row CNone)) data ->
  verify data 0 problems
  = Ok (problems
        ++ map (fun row => Suspicious (title_of (nth 0 row CNone)) (nth 1 row CNone))
               (filter (fun row => is_statewide (title_of (nth 0 row CNone)) = false)
                       data)).
Proof.
  intros Hd. rewrite verify_ok.
  2:{ eapply Forall_impl; [exact Hd|]. intros row [H1 H2]. split; [lia | exact H2]. }
  f_equal. f_equal.
  assert (H1 : forall n, flat_map (column_finding (2 + 0))
                                  (enumerate_from n data) = []).
  { induction Hd as [|row l [Hr _] _ IH]; intros n; [reflexivity|].
    cbn [enumerate_from flat_map]. rewrite IH. unfold column_finding. cbn [snd].
    now rewrite bool_decide_eq_true_2 by exact Hr. }
  unfold enumerate. rewrite H1. cbn [app]. clear H1.
  induction Hd as [|row l [Hr _] _ IH]; [reflexivity|].
  cbn [flat_map]. rewrite IH, filter_cons. unfold pattern_finding.
  assert (Hc : count_precincts_with_votes (drop 2 row) = 0).
  { pose proof (count_le_length (drop 2 row)) as H. rewrite length_drop in H. lia. }
  rewrite Hc. cbn [Nat.eqb].
  destruct (decide (is_statewide (title_of (nth 0 row CNone)) = false)) as [E|E].
  - now rewrite E.
  - apply not_false_is_true in E. now rewrite E.
Qed.

Lemma no_precinct_columns_flags_every_district_row_witness :
  verify keys_only_table 0 []
  = Ok ([] ++ map (fun row => Suspicious (title_of (nth 0 row CNone))
                                         (nth 1 row CNone))
                  (filter (fun row => is_statewide (title_of (nth 0 row CNone))
                                      = false)
                          keys_only_table)).
Proof.
  apply (no_precinct_columns_flags_every_district_row keys_only_table []).
  repeat constructor.
Defined.

(** ** Row counts of the flat parser *)

Lemma length_filter_split {A} (P : A -> Prop) `{forall x, Decision (P x)}
    (l : list A) :
  length (filter P l) + length (filter (fun x => ~ P x) l) = length l.
Proof.
  induction l as [|x l IH]; [reflexivity|].
  rewrite !filter_cons. destruct (decide (P x)) as [Hp|Hp].
  - rewrite decide_False by tauto. simpl. lia.
  - rewrite decide_True by exact Hp. simpl. lia.
Qed.

(** On a rectangular sheet with text or blank headers the flat parser
    accounts for every data row, as kept or as removed, and writes a
    rectangular sheet: as many rows as it counted as kept, each as long as
    the new header row. *)
Theorem process_election_file_counts (ws : worksheet) :
  Forall text_or_blank (header ws) ->
  rectangular ws ->
  0 < length (header ws) ->
  exists out,
    process_election_file ws = Ok out
    /\ rows_kept out + rows_removed out = length (rows ws)
    /\ length (new_rows out) = rows_kept out
    /\ rows_removed out
       = length (filter (fun row => is_race_we_want (nth 0 row CNone) <> true)
                        (rows ws))
    /\ Forall (fun row => length row = length (new_headers out)) (new_rows out).
Proof.
  intros Hty Hrect Hw.
  assert (Hcols : get_columns_to_keep (header ws)
                  = Ok (resolved_from 0 (header ws))).
  { unfold get_columns_to_keep, enumerate. now rewrite keep_columns_from. }
  unfold process_election_file. rewrite Hcols.
  change (Ok ?a ≫= ?g) with (g a). cbv beta.
  rewrite process_rows_ok.
  2:{ eapply Forall_impl; [exact Hrect|]. intros row Hrow. simpl in Hrow.
      split; [lia|]. apply Forall_forall. intros [i name] Hin.
      apply resolved_from_bound in Hin. simpl. lia. }
  eexists. split; [reflexivity|].
  cbn [new_headers new_rows rows_kept rows_removed fst snd app].
  split; [apply (length_filter_split (fun row => wanted row = true))|].
  split; [now rewrite length_map|]. split; [reflexivity|].
  apply Forall_forall. intros row Hin.
  apply list_elem_of_fmap in Hin as (src & -> & _).
  unfold projected. now rewrite !length_map.
Qed.

Lemma process_election_file_counts_witness :
  exists out,
    process_election_file flat_sheet = Ok out
    /\ rows_kept out + rows_removed out = 3
    /\ length (new_rows out) = rows_kept out.
Proof.
  destruct (process_election_file_counts flat_sheet)
    as (out & Hout & Hsum & Hlen & _).
  - repeat constructor.
  - repeat constructor.
  - simpl. lia.
  - exists out. auto.
Defined.

(** ** The precinct axis of a race sheet *)

(** The precinct scan returns the longest run of cells at the top of the
    column that are neither blank nor the ["Total:"] marker, each with
    its row number. *)
Theorem collect_precincts_is_longest_prefix start (col0 : list cell) :
  exists k,
    k <= length col0
    /\ collect_precincts start col0 = zip (take k col0) (seq start k)
    /\ Forall (fun v => v <> CStr "Total:" /\ v <> CNone) (take k col0)
    /\ (forall v, col0 !! k = Some v -> v = CStr "Total:" \/ v = CNone).
Proof.
  revert start. induction col0 as [|v rest IH]; intros start.
  - exists 0. simpl. repeat split; [lia | constructor | discriminate].
  - cbn [collect_precincts].
    destruct (bool_decide (v = CStr "Total:") || isna v) eqn:E.
    + exists 0. simpl. repeat split; [lia | constructor |].
      intros v' [= <-]. apply orb_true_iff in E as [E|E].
      * left. now apply bool_decide_eq_true in E.
      * right. now destruct v.
    + destruct (IH (S start)) as (k & Hk & Hzip & Hall & Hstop).
      exists (S k). simpl. rewrite Hzip.
      apply orb_false_iff in E as [E1 E2]. apply bool_decide_eq_false in E1.
      repeat split; [lia | | exact Hstop].
      constructor; [|exact Hall]. split; [exact E1|]. now destruct v.
Qed.

(** ** Candidates, records and sheets of the multi-sheet parser *)

Lemma parse_candidates_found df :
  readable_frame df ->
  forall n col, ncols df - col <= n ->
    exists found,
      parse_candidates df col [] = Ok found
      /\ Forall (found_candidate df col) found
      /\ StronglySorted (fun a b : cell * nat => a.2 < b.2) found.
Proof.
  intros Hdf. induction n as [|n IH]; intros col Hn.
  - exists []. rewrite (parse_candidates_readable df col []) by exact Hdf.
    rewrite decide_False by lia. repeat split; constructor.
  - rewrite (parse_candidates_readable df col []) by exact Hdf.
    destruct (decide (col < ncols df)) as [Hlt|Hge].
    2:{ exists []. repeat split; constructor. }
    assert (Hnext : exists found,
              parse_candidates df (S col) [] = Ok found
              /\ Forall (found_candidate df col) found
              /\ StronglySorted (fun a b : cell * nat => a.2 < b.2) found).
    { destruct (IH (S col) ltac:(lia)) as (found & H1 & H2 & H3).
      exists found. split; [exact H1|]. split; [|exact H3].
      eapply Forall_impl; [exact H2|].
      intros cc (Hname & c & Hc & Hrest). split; [exact Hname|].
      exists c. split; [lia | exact Hrest]. }
    destruct (isna (cell_at df 1 col)) eqn:Hname; [exact Hnext|].
    destruct (first_total df col lookahead) as [t|] eqn:Ht; [|exact Hnext].
    apply first_total_seq_Some in Ht as (Hb & Hlt' & Htot & _).
    destruct (parse_candidates_total df Hdf (ncols df) (S t)
                ([] ++ [(cell_at df 1 col, t)]) ltac:(lia))
      as (rest & H1 & H2 & H3).
    destruct (IH (S t) ltac:(lia)) as (rest' & H1' & H2' & H3').
    assert (rest' = rest) by congruence. subst rest'.
    exists ((cell_at df 1 col, t) :: rest).
    split; [exact H2|]. split.
    + constructor.
      * split; [exact Hname|]. exists col. simpl. repeat split; try lia.
        exact Htot.
      * eapply Forall_impl; [exact H2'|].
        intros cc (Hn' & c & Hc & Hrest). split; [exact Hn'|].
        exists c. split; [lia | exact Hrest].
    + constructor; [exact H3'|].
      eapply Forall_impl; [exact H3|]. simpl. intros cc Hcc. lia.
Qed.

(** On a readable sheet the candidate scan returns candidates with
    non-blank names taken from row 1, each with a vote column that row 2
    labels as a total, at most four columns right of the name; the vote
    columns increase strictly, so no column serves two candidates. *)
Theorem parse_candidates_result df :
  readable_frame df ->
  exists found,
    parse_candidates df 1 [] = Ok found
    /\ Forall (found_candidate df 1) found
    /\ StronglySorted (fun a b : cell * nat => a.2 < b.2) found.
Proof.
  intros Hdf. exact (parse_candidates_found df Hdf (ncols df) 1 ltac:(lia)).
Qed.

Lemma parse_candidates_result_witness :
  exists found,
    parse_candidates ballot_sheet 1 [] = Ok found
    /\ Forall (found_candidate ballot_sheet 1) found.
Proof.
  destruct (parse_candidates_result ballot_sheet ballot_sheet_readable)
    as (found & H1 & H2 & _).
  exists found. auto.
Defined.

Lemma column0_ok df :
  rectangular_frame df -> 0 < ncols df ->
  comprehension (fun row : list cell => index row 0) (drop 3 (cells df))
  = Ok (map (fun row => nth 0 row CNone) (drop 3 (cells df))).
Proof.
  intros Hrect Hw. apply comprehension_pure. intros row Hin.
  apply index_nth.
  assert (Hin' : row ∈ cells df).
  { apply list_elem_of_lookup in Hin as [i Hi].
    rewrite lookup_drop in Hi. eapply list_elem_of_lookup_2. exact Hi. }
  unfold rectangular_frame in Hrect. rewrite Forall_forall in Hrect.
  rewrite (Hrect _ Hin'). exact Hw.
Qed.

Lemma process_sheet_scan county all_races df :
  sheet_frame df ->
  isna (cell_at df 0 0) = false ->
  precinct_rows df <> [] ->
  exists candidates,
    parse_candidates df 1 [] = Ok candidates
    /\ process_sheet county all_races df
       = Ok (all_races
             ++ flat_map (fun cc => map (record_of county df (cell_at df 0 0) cc)
                                        (precinct_rows df)) candidates).
Proof.
  intros (Hrect & Hw & Hrows) Htitle Hsome. unfold process_sheet.
  rewrite iloc_ok by assumption. simpl. rewrite Htitle.
  rewrite (column0_ok df Hrect Hw). simpl.
  fold (precinct_rows df).
  assert (Hprec : Forall (fun pr : cell * nat => 3 <= pr.2 < length (cells df))
                         (precinct_rows df)).
  { apply Forall_forall. intros [val r] Hin.
    apply collect_precincts_spec in Hin as [Hb _].
    rewrite length_map, length_drop in Hb. simpl. lia. }
  rewrite bool_decide_eq_false_2.
  2:{ intros Hlen. apply Hsome. now apply length_zero_iff_nil. }
  assert (Hdf : readable_frame df).
  { split; [exact Hrect|]. destruct (precinct_rows df) as [|pr ?]; [contradiction|].
    apply Forall_cons in Hprec as [Hpr _]. lia. }
  destruct (parse_candidates_total df Hdf (ncols df) 1 [] ltac:(lia))
    as (found & Hscan & _ & Hcols).
  rewrite Hscan. simpl.
  exists found. split; [reflexivity|].
  rewrite (for_each_pure _
             (fun acc cc => acc ++ map (record_of county df (cell_at df 0 0) cc)
                                       (precinct_rows df))).
  - now rewrite foldl_append.
  - intros acc cc Hin. rewrite Forall_forall in Hcols.
    apply emit_records_ok; [exact Hrect | now apply Hcols |].
    eapply Forall_impl; [exact Hprec|]. simpl. intros pr Hpr. lia.
Qed.

(** A sheet with a race title and at least one precinct row gives one
    record per scanned candidate and precinct row, candidate by
    candidate: the records carry the sheet's title, the candidate's
    name and the precinct's label, and no record has a blank vote
    value. *)
Theorem process_sheet_records county all_races df :
  sheet_frame df ->
  isna (cell_at df 0 0) = false ->
  precinct_rows df <> [] ->
  exists candidates,
    parse_candidates df 1 [] = Ok candidates
    /\ process_sheet county all_races df
       = Ok (all_races
             ++ flat_map (fun cc => map (record_of county df (cell_at df 0 0) cc)
                                        (precinct_rows df)) candidates)
    /\ length (flat_map (fun cc => map (record_of county df (cell_at df 0 0) cc)
                                       (precinct_rows df)) candidates)
       = length candidates * length (precinct_rows df)
    /\ Forall (fun rec => Votes rec <> CNone)
              (flat_map (fun cc => map (record_of county df (cell_at df 0 0) cc)
                                       (precinct_rows df)) candidates).
Proof.
  intros Hdf Htitle Hsome.
  destruct (process_sheet_scan county all_races df Hdf Htitle Hsome)
    as (found & Hscan & Hrun).
  exists found. split; [exact Hscan|]. split; [exact Hrun|]. split.
  - clear. induction found as [|cc l IH]; [reflexivity|].
    cbn [flat_map]. rewrite length_app, length_map, IH. simpl. lia.
  - apply Forall_forall. intros rec Hin.
    apply list_elem_of_In, in_flat_map in Hin as (cc & Hcc & Hin).
    apply list_elem_of_In, list_elem_of_fmap in Hin as (pr & -> & Hpr).
    unfold record_of, votes_or_zero. simpl.
    now destruct (cell_at df pr.2 cc.2).
Qed.

Lemma process_sheet_records_witness :
  exists candidates,
    parse_candidates ballot_sheet 1 [] = Ok candidates
    /\ process_sheet "Adair" [] ballot_sheet
       = Ok ([] ++ flat_map (fun cc => map (record_of "Adair" ballot_sheet
                                              (cell_at ballot_sheet 0 0) cc)
                                           (precinct_rows ballot_sheet))
                            candidates).
Proof.
  destruct (process_sheet_records "Adair" [] ballot_sheet)
    as (candidates & H1 & H2 & _).
  - split; [repeat constructor | simpl; lia].
  - reflexivity.
  - discriminate.
  - exists candidates. auto.
Defined.

Lemma flat_map_nil_inv {A B} (f : A -> list B) (l : list A) :
  flat_map f l = [] -> Forall (fun a => f a = []) l.
Proof.
  induction l as [|a l IH]; simpl; intros H; constructor.
  - now apply app_eq_nil in H.
  - apply IH. now apply app_eq_nil in H.
Qed.

Lemma flat_map_all_nil {A B} (f : A -> list B) (l : list A) :
  Forall (fun a => f a = []) l -> flat_map f l = [].
Proof.
  induction 1 as [|a l Ha _ IH]; simpl; [reflexivity|]. now rewrite Ha, IH.
Qed.

Lemma precinct_rows_bound df :
  Forall (fun pr : cell * nat => 3 <= pr.2 < length (cells df))
         (precinct_rows df).
Proof.
  apply Forall_forall. intros [val r] Hin.
  apply collect_precincts_spec in Hin as [Hb _].
  rewrite length_map, length_drop in Hb. simpl. lia.
Qed.

Lemma process_sheet_closed county all_races df :
  sheet_frame df ->
  process_sheet county all_races df
  = Ok (all_races ++ sheet_records county df).
Proof.
  intros Hdf. unfold sheet_records.
  destruct (isna (cell_at df 0 0)) eqn:Htitle.
  - destruct Hdf as (Hrect & Hw & Hrows). unfold process_sheet.
    rewrite iloc_ok by assumption. simpl. rewrite Htitle.
    now rewrite app_nil_r.
  - destruct (precinct_rows df) as [|pr prs] eqn:Hprec.
    + destruct Hdf as (Hrect & Hw & Hrows). unfold process_sheet.
      rewrite iloc_ok by assumption. simpl. rewrite Htitle.
      rewrite (column0_ok df Hrect Hw). simpl.
      fold (precinct_rows df). rewrite Hprec. simpl.
      rewrite flat_map_all_nil; [now rewrite app_nil_r|].
      apply Forall_forall. reflexivity.
    + destruct (process_sheet_scan county all_races df Hdf Htitle)
        as (candidates & Hscan & Hrun).
      { rewrite Hprec. discriminate. }
      unfold candidates_of. rewrite Hscan, Hrun, Hprec. reflexivity.
Qed.

(** A sheet that can be read leaves the records as they are exactly when
    its title cell is blank, it has no precinct row under the three
    header rows, or the scan of row 1 finds no candidate. *)
Theorem sheets_without_records county all_races df :
  sheet_frame df ->
  (process_sheet county all_races df = Ok all_races
   <-> isna (cell_at df 0 0) = true
       \/ precinct_rows df = []
       \/ parse_candidates df 1 [] = Ok []).
Proof.
  intros Hdf. rewrite (process_sheet_closed county all_races df Hdf).
  unfold sheet_records.
  destruct (isna (cell_at df 0 0)) eqn:Htitle.
  { rewrite app_nil_r. split; auto. }
  destruct (precinct_rows df) as [|pr prs] eqn:Hprec.
  { rewrite flat_map_all_nil by (apply Forall_forall; reflexivity).
    rewrite app_nil_r. split; auto. }
  assert (Hread : readable_frame df).
  { destruct Hdf as (Hrect & _). split; [exact Hrect|].
    pose proof (precinct_rows_bound df) as Hb. rewrite Hprec in Hb.
    apply Forall_cons in Hb as [Hb _]. lia. }
  destruct (parse_candidates_total df Hread (ncols df) 1 [] ltac:(lia))
    as (found & Hscan & _).
  unfold candidates_of. rewrite Hscan. split.
  - intros [= H]. right. right. f_equal.
    rewrite <- (app_nil_r all_races) in H at 2.
    apply app_inv_head in H.
    apply flat_map_nil_inv in H. destruct found as [|cc ?]; [reflexivity|].
    apply Forall_cons in H as [H _]. discriminate.
  - intros [H|[H|H]]; try discriminate.
    injection H as ->. simpl. now rewrite app_nil_r.
Qed.

Lemma sheets_without_records_witness :
  process_sheet "Adair" []
    {| ncols := 1; cells := [[CStr "Governor"]; [CNone]; [CNone]; [CNone]] |}
  = Ok []
  <-> isna (CStr "Governor") = true
      \/ precinct_rows {| ncols := 1;
                          cells := [[CStr "Governor"]; [CNone]; [CNone]; [CNone]] |}
         = []
      \/ parse_candidates
           {| ncols := 1; cells := [[CStr "Governor"]; [CNone]; [CNone]; [CNone]] |}
           1 [] = Ok [].
Proof.
  apply (sheets_without_records "Adair" []
           {| ncols := 1;
              cells := [[CStr "Governor"]; [CNone]; [CNone]; [CNone]] |}).
  split; [repeat constructor | simpl; lia].
Defined.

(** ** Workbooks *)

Lemma process_sheets_closed county sheets : forall all_races,
  Forall sheet_frame sheets ->
  for_each (process_sheet county) sheets all_races
  = Ok (all_races ++ flat_map (sheet_records county) sheets).
Proof.
  induction sheets as [|df rest IH]; intros acc Hall; simpl.
  - now rewrite app_nil_r.
  - apply Forall_cons in Hall as [Hdf Hrest].
    rewrite (process_sheet_closed county acc df Hdf). simpl.
    rewrite (IH _ Hrest). now rewrite <- app_assoc.
Qed.

Lemma process_sheet_empty county all_races df :
  rectangular_frame df -> empty_frame df ->
  process_sheet county all_races df = Raise IndexError.
Proof.
  intros Hrect Hempty. unfold process_sheet, iloc.
  destruct (cells df) as [|row rest] eqn:E; [reflexivity|].
  destruct Hempty as [H|Hw]; [congruence|].
  unfold rectangular_frame in Hrect. rewrite E in Hrect.
  apply Forall_cons in Hrect as [Hlen _]. rewrite Hw in Hlen.
  destruct row; [reflexivity | discriminate].
Qed.

Lemma sheet_or_empty df :
  rectangular_frame df -> sheet_frame df \/ empty_frame df.
Proof.
  intros Hrect. unfold sheet_frame, empty_frame.
  destruct (cells df) as [|row rest] eqn:E; [right; now left|].
  destruct (ncols df) as [|w] eqn:Ew; [right; now right|].
  left. rewrite <- E. split; [exact Hrect|]. rewrite E. simpl. lia.
Qed.

Lemma sheet_not_empty df : sheet_frame df -> ~ empty_frame df.
Proof.
  intros (_ & Hw & Hrows) [H|H]; [rewrite H in Hrows; simpl in Hrows|]; lia.
Qed.

Lemma process_sheets_cases county sheets : forall all_races,
  Forall rectangular_frame sheets ->
  (Forall sheet_frame sheets
   /\ for_each (process_sheet county) sheets all_races
      = Ok (all_races ++ flat_map (sheet_records county) sheets))
  \/ (Exists empty_frame sheets
      /\ for_each (process_sheet county) sheets all_races = Raise IndexError).
Proof.
  induction sheets as [|df rest IH]; intros acc Hall.
  - left. split; [constructor|]. simpl. now rewrite app_nil_r.
  - apply Forall_cons in Hall as [Hrect Hrest].
    destruct (sheet_or_empty df Hrect) as [Hdf|Hempty].
    + cbn [for_each]. rewrite (process_sheet_closed county acc df Hdf).
      change (Ok ?a ≫= ?g) with (g a). cbv beta.
      destruct (IH (acc ++ sheet_records county df) Hrest)
        as [(Hok & Hrun)|(Hex & Hrun)].
      * left. split; [now constructor|]. rewrite Hrun. simpl.
        now rewrite <- app_assoc.
      * right. split; [now apply Exists_cons_tl | exact Hrun].
    + right. split; [now apply Exists_cons_hd|].
      cbn [for_each]. now rewrite (process_sheet_empty county acc df Hrect Hempty).
Qed.

(** One data sheet with no cell loses the whole county file: on
    rectangular sheets the run raises [IndexError] exactly when a sheet
    other than the two skipped ones is empty; an empty sheet under a
    skipped name is never read. *)
Theorem empty_sheet_aborts_file county workbook :
  Forall (fun s => rectangular_frame s.2) workbook ->
  (process_2018_2020_file county workbook = Raise IndexError
   <-> Exists (fun s => Py.in_list s.1 skipped_sheets = false
                        /\ empty_frame s.2) workbook).
Proof.
  intros Hrect. unfold process_2018_2020_file.
  fold (data_sheets workbook).
  assert (Hdata : Forall rectangular_frame (map snd (data_sheets workbook))).
  { apply Forall_fmap. unfold data_sheets.
    apply Forall_forall. intros s Hs. apply list_elem_of_filter in Hs as [_ Hs].
    rewrite Forall_forall in Hrect. now apply Hrect. }
  assert (Hiff : Exists empty_frame (map snd (data_sheets workbook))
                 <-> Exists (fun s => Py.in_list s.1 skipped_sheets = false
                                      /\ empty_frame s.2) workbook).
  { rewrite !Exists_exists. split.
    - intros (df & Hin & Hempty).
      apply list_elem_of_fmap in Hin as (s & -> & Hs).
      apply list_elem_of_filter in Hs as [Hname Hs]. now exists s.
    - intros (s & Hs & Hname & Hempty). exists s.2. split; [|exact Hempty].
      apply list_elem_of_fmap. exists s. split; [reflexivity|].
      apply list_elem_of_filter. auto. }
  rewrite <- Hiff.
  destruct (process_sheets_cases county (map snd (data_sheets workbook)) [] Hdata)
    as [(Hok & Hrun)|(Hex & Hrun)]; rewrite Hrun; simpl.
  - split.
    + destruct (bool_decide _); [discriminate|].
      unfold filter_races.
      destruct (flat_map _ _) as [|r all]; [discriminate|].
      destruct (existsb _ _); [|discriminate].
      change (Ok ?a ≫= ?g) with (g a). cbv beta.
      destruct (bool_decide _); discriminate.
    + intros Hex. exfalso. apply Exists_exists in Hex as (df & Hin & Hempty).
      rewrite Forall_forall in Hok. exact (sheet_not_empty df (Hok df Hin) Hempty).
  - split; auto.
Qed.

Lemma empty_sheet_aborts_file_witness :
  process_2018_2020_file "Adair"
    [("Registered Voters", {| ncols := 0; cells := [] |});
     ("Governor", ballot_sheet);
     ("Sheriff", {| ncols := 0; cells := [] |})]
  = Raise IndexError
  <-> Exists (fun s => Py.in_list s.1 skipped_sheets = false /\ empty_frame s.2)
        [("Registered Voters", {| ncols := 0; cells := [] |});
         ("Governor", ballot_sheet);
         ("Sheriff", {| ncols := 0; cells := [] |})].
Proof.
  apply (empty_sheet_aborts_file "Adair").
  repeat constructor.
Defined.




Lemma elem_of_sheet_records county df rec :
  rec ∈ sheet_records county df ->
  RaceTitle rec = cell_at df 0 0
  /\ (PrecinctName rec).1 = county
  /\ Votes rec <> CNone
  /\ (exists pr, pr ∈ precinct_rows df /\ (PrecinctName rec).2 = pr.1)
  /\ (exists cc, cc ∈ candidates_of df /\ CandidateName rec = cc.1).
Proof.
  unfold sheet_records. destruct (isna (cell_at df 0 0)).
  { intros H. now apply elem_of_nil in H. }
  intros Hin.
  apply list_elem_of_In, in_flat_map in Hin as (cc & Hcc & Hin).
  apply list_elem_of_In, list_elem_of_fmap in Hin as (pr & -> & Hpr).
  apply list_elem_of_In in Hcc.
  unfold record_of, votes_or_zero. simpl.
  split; [reflexivity|]. split; [reflexivity|].
  split; [now destruct (cell_at df pr.2 cc.2)|].
  split; [now exists pr | now exists cc].
Qed.



(** A workbook whose race sheets all have a number as their title
    cannot be filtered: as soon as one of its sheets gives a record, the
    title column of the collected records holds numbers only and
    [filter_races] raises [AttributeError], so the county file is lost. *)
Theorem numeric_titles_abort_county_file county workbook :
  Forall (fun s => sheet_frame s.2) (data_sheets workbook) ->
  Forall (fun s => forall t, cell_at s.2 0 0 <> CStr t) (data_sheets workbook) ->
  Exists (fun s => isna (cell_at s.2 0 0) = false
                   /\ precinct_rows s.2 <> []
                   /\ candidates_of s.2 <> []) (data_sheets workbook) ->
  process_2018_2020_file county workbook = Raise AttributeError.
Proof.
  intros Hsheets Hnum Hex. unfold process_2018_2020_file.
  fold (data_sheets workbook).
  rewrite process_sheets_closed by (now apply Forall_fmap).
  change (Ok ?a ≫= ?g) with (g a). cbv beta. rewrite app_nil_l.
  set (all := flat_map (sheet_records county) (map snd (data_sheets workbook))).
  assert (Hne : all <> []).
  { apply Exists_exists in Hex as (s & Hs & Hna & Hprec & Hcand).
    destruct (precinct_rows s.2) as [|pr prs] eqn:Ep; [congruence|].
    destruct (candidates_of s.2) as [|cc ccs] eqn:Ec; [congruence|].
    assert (Hin : record_of county s.2 (cell_at s.2 0 0) cc pr ∈ all).
    { apply list_elem_of_In, in_flat_map. exists s.2. split.
      - apply list_elem_of_In, list_elem_of_fmap. now exists s.
      - apply list_elem_of_In. unfold sheet_records.
        rewrite Hna, Ec, Ep. simpl. apply list_elem_of_here. }
    intros Hnil. rewrite Hnil in Hin. now apply elem_of_nil in Hin. }
  assert (Hnone : existsb (fun r => match RaceTitle r with
                                    | CStr _ => true
                                    | _ => false
                                    end) all = false).
  { destruct (existsb _ all) eqn:E; [|reflexivity]. exfalso.
    apply existsb_exists in E as (rec & Hin & Htext).
    apply in_flat_map in Hin as (df & Hdf & Hin).
    apply list_elem_of_In, list_elem_of_fmap in Hdf as (s & -> & Hs).
    apply list_elem_of_In, elem_of_sheet_records in Hin as (Htitle & _).
    rewrite Forall_forall in Hnum. specialize (Hnum s Hs).
    rewrite Htitle in Htext.
    destruct (cell_at s.2 0 0) as [|t|n]; try discriminate.
    now apply (Hnum t). }
  destruct all as [|r all']; [congruence|].
  rewrite bool_decide_eq_false_2 by discriminate.
  unfold filter_races. now rewrite Hnone.
Qed.

Lemma numeric_titles_abort_county_file_witness :
  process_2018_2020_file "Adair" year_workbook = Raise AttributeError.
Proof.
  apply (numeric_titles_abort_county_file "Adair" year_workbook).
  - repeat constructor.
  - repeat constructor. intros t. discriminate.
  - apply Exists_cons_hd. split; [reflexivity|].
    split; intros H; vm_compute in H; discriminate.
Defined.






(** ** The two race filters side by side *)

(** [filter_races] and [is_race_we_want] select the same titles, except
    for titles that hold, in any letter case, one of five wordings that
    only one of the two keyword lists has: on every other cell the two
    filters agree. *)
Theorem race_filters_agree_outside_unshared_keywords (race_title : cell) :
  (forall s, race_title = CStr s ->
     Forall (fun k => Py.contains k (Py.lower s) = false) unshared_keywords) ->
  race_matches race_title = is_race_we_want race_title.
Proof.
  destruct race_title as [|s|n]; [reflexivity| |reflexivity].
  intros H. specialize (H s eq_refl).
  unfold unshared_keywords in H.
  repeat match goal with
         | H : Forall _ (_ :: _) |- _ =>
             apply Forall_cons in H as [? H]
         end.
  unfold race_matches, is_race_we_want, race_patterns, races_to_keep.
  cbn [existsb].
  change (Py.lower "President") with "president".
  change (Py.lower "US Senator") with "us senator".
  change (Py.lower "United States Senator") with "united states senator".
  change (Py.lower "US Rep") with "us rep".
  change (Py.lower "United States Representative")
    with "united states representative".
  change (Py.lower "State Rep") with "state rep".
  change (Py.lower "Governor") with "governor".
  repeat match goal with
         | H : Py.contains _ _ = false |- _ => rewrite H; clear H
         end.
  cbv zeta.
  destruct (Py.contains "president" (Py.lower s)),
           (Py.contains "governor" (Py.lower s)),
           (Py.contains "us senator" (Py.lower s)),
           (Py.contains "us rep" (Py.lower s)),
           (Py.contains "state rep" (Py.lower s)); reflexivity.
Qed.

Lemma race_filters_agree_outside_unshared_keywords_witness :
  race_matches (CStr "Governor/Lieutenant Governor")
  = is_race_we_want (CStr "Governor/Lieutenant Governor").
Proof.
  apply race_filters_agree_outside_unshared_keywords.
  intros s [= <-]. repeat constructor.
Defined.

(** ** Shape of the key-aligned table *)

Lemma count_left_join_row key df (left : (cell * cell) * list cell) :
  length (filter (fun r : (cell * cell) * list cell => r.1 = key)
                 (left_join_row df left))
  = if decide (left.1 = key) then Nat.max 1 (occurrences key df) else 0.
Proof.
  assert (Hall : forall (l : list ((cell * cell) * list cell)),
            Forall (fun r => r.1 = left.1) l ->
            length (filter (fun r : (cell * cell) * list cell => r.1 = key) l)
            = if decide (left.1 = key) then length l else 0).
  { induction 1 as [|r l Hr _ IH]; [now destruct (decide _)|].
    rewrite filter_cons. destruct (decide (r.1 = key)) as [Hk|Hk];
      destruct (decide (left.1 = key)) as [Hl|Hl]; simpl; try congruence. }
  unfold left_join_row, occurrences.
  destruct (filter (fun r => r.1 = left.1) (frame_rows df)) as [|m ms] eqn:E.
  - rewrite Hall by (repeat constructor).
    destruct (decide (left.1 = key)) as [Hl|Hl]; [|reflexivity].
    rewrite <- Hl, E. reflexivity.
  - rewrite Hall.
    2:{ apply Forall_forall. intros r Hr.
        apply list_elem_of_fmap in Hr as (r' & -> & _). reflexivity. }
    destruct (decide (left.1 = key)) as [Hl|Hl]; [|reflexivity].
    rewrite <- Hl, E, length_map. simpl. lia.
Qed.

Lemma count_left_join key df merged :
  length (filter (fun r : (cell * cell) * list cell => r.1 = key)
                 (left_join merged df))
  = length (filter (fun r : (cell * cell) * list cell => r.1 = key) merged)
    * Nat.max 1 (occurrences key df).
Proof.
  unfold left_join. induction merged as [|left merged IH]; [reflexivity|].
  change (mjoin (map (left_join_row df) (left :: merged)))
    with (left_join_row df left ++ mjoin (map (left_join_row df) merged)).
  rewrite filter_app, length_app, IH.
  rewrite count_left_join_row, filter_cons.
  destruct (decide (left.1 = key)); simpl; lia.
Qed.

Lemma count_left_joins key (fs : list county_frame) : forall merged,
  length (filter (fun r : (cell * cell) * list cell => r.1 = key)
                 (foldl left_join merged fs))
  = length (filter (fun r : (cell * cell) * list cell => r.1 = key) merged)
    * row_copies key fs.
Proof.
  induction fs as [|df fs IH]; intros merged; simpl; [lia|].
  rewrite IH, count_left_join. lia.
Qed.

Lemma drop_duplicates_from_NoDup (keys : list (cell * cell)) : forall seen,
  NoDup seen ->
  NoDup (foldl (fun seen k => if bool_decide (k ∈ seen) then seen else seen ++ [k])
               seen keys).
Proof.
  induction keys as [|k keys IH]; intros seen Hseen; simpl; [exact Hseen|].
  apply IH. destruct (bool_decide (k ∈ seen)) eqn:E; [exact Hseen|].
  apply bool_decide_eq_false in E.
  apply NoDup_app. split; [exact Hseen|]. split.
  - intros x Hx Hin. apply list_elem_of_singleton in Hin. now subst x.
  - apply NoDup_singleton.
Qed.

Lemma drop_duplicates_NoDup keys : NoDup (drop_duplicates keys).
Proof. apply drop_duplicates_from_NoDup. constructor. Qed.

Lemma count_NoDup {A} `{EqDecision A} (l : list A) (x : A) :
  NoDup l -> x ∈ l -> length (filter (fun y => y = x) l) = 1.
Proof.
  induction 1 as [|y l Hy Hl IH]; intros Hin; [now apply elem_of_nil in Hin|].
  rewrite filter_cons. destruct (decide (y = x)) as [->|Hne].
  - simpl. f_equal. apply length_zero_iff_nil.
    destruct (filter (fun y => y = x) l) as [|z zs] eqn:E; [reflexivity|].
    exfalso. assert (Hz : z ∈ filter (fun y => y = x) l)
      by (rewrite E; apply list_elem_of_here).
    apply list_elem_of_filter in Hz as [-> Hz]. contradiction.
  - apply IH. apply elem_of_cons in Hin as [->|Hin]; [contradiction | exact Hin].
Qed.

Lemma count_le_NoDup {A} `{EqDecision A} (l : list A) :
  (forall x, x ∈ l -> length (filter (fun y => y = x) l) <= 1) -> NoDup l.
Proof.
  induction l as [|y l IH]; intros H; constructor.
  - intros Hin. specialize (H y (list_elem_of_here _ _)).
    rewrite filter_cons, decide_True in H by reflexivity. simpl in H.
    assert (Hy : y ∈ filter (fun z => z = y) l)
      by (apply list_elem_of_filter; auto).
    destruct (filter (fun z => z = y) l); [now apply elem_of_nil in Hy|].
    simpl in H. lia.
  - apply IH. intros x Hx. specialize (H x (list_elem_of_further _ _ _ Hx)).
    rewrite filter_cons in H. destruct (decide (y = x)); simpl in H; lia.
Qed.

Lemma count_map {A B} (f : A -> B) (P : B -> Prop) (Q : A -> Prop)
    `{forall b, Decision (P b)} `{forall a, Decision (Q a)} (l : list A) :
  (forall a, P (f a) <-> Q a) ->
  length (filter P (map f l)) = length (filter Q l).
Proof.
  intros HPQ. induction l as [|a l IH]; [reflexivity|].
  cbn [map]. rewrite !filter_cons.
  destruct (decide (P (f a))) as [HP|HP], (decide (Q a)) as [HQ|HQ];
    simpl; rewrite ?IH; try reflexivity; exfalso.
  - apply HQ, HPQ, HP.
  - apply HP, HPQ, HQ.
Qed.

Lemma occurrences_keys key df :
  occurrences key df = length (filter (fun k => k = key) (keys_of df)).
Proof.
  unfold occurrences, keys_of. symmetry.
  now apply (count_map fst (fun k => k = key) (fun r => r.1 = key)).
Qed.

Section TableShape.

Variable sort_values : list merged_row -> list merged_row.
Variable merge_keys_ok : list cell -> list cell -> bool.
Hypothesis sort_values_perm : forall l, sort_values l ≡ₚ l.
Hypothesis merge_keys_ok_text : joins_text_keys merge_keys_ok.

Lemma count_table_rows (all_data : list county_frame) out key :
  all_data <> [] ->
  Forall text_keyed all_data ->
  distinct_labels all_data ->
  TeamA.merge_county_files sort_values merge_keys_ok all_data = Ok (Some out) ->
  (exists df, df ∈ all_data /\ key ∈ keys_of df) ->
  length (filter (fun r => row_key r = key) (table_rows out))
  = row_copies key all_data.
Proof.
  intros Hne Hkeyed Hnd Hout (df & Hdf & Hkey).
  rewrite (key_aligned_merge_closed_form sort_values merge_keys_ok
             merge_keys_ok_text all_data Hne Hkeyed Hnd) in Hout.
  injection Hout as <-. cbn [table_rows].
  rewrite (sort_values_perm _).
  rewrite (count_map _ (fun r => row_key r = key)
             (fun r : (cell * cell) * list cell => r.1 = key))
    by (intros a; reflexivity).
  rewrite count_left_joins.
  rewrite (count_map _ (fun r : (cell * cell) * list cell => r.1 = key)
             (fun k : cell * cell => k = key))
    by (intros a; reflexivity).
  rewrite count_NoDup; [lia | apply drop_duplicates_NoDup |].
  apply elem_of_drop_duplicates, list_elem_of_join.
  exists (keys_of df). split; [exact Hkey|].
  apply list_elem_of_fmap. now exists df.
Qed.

End TableShape.

(** Duplicate keys multiply rows.  On frames with text keys and distinct
    precinct labels the merged table has, for a key that some frame
    carries, one row per combination of the rows that carry it in each
    frame, a frame without the key counting once; so when no frame
    repeats a key, the table has one row per key. *)
Theorem duplicate_keys_multiply_rows
    (sort_values : list merged_row -> list merged_row)
    (merge_keys_ok : list cell -> list cell -> bool)
    (all_data : list county_frame) :
  (forall l, sort_values l ≡ₚ l) ->
  joins_text_keys merge_keys_ok ->
  all_data <> [] ->
  Forall text_keyed all_data ->
  distinct_labels all_data ->
  exists out,
    TeamA.merge_county_files sort_values merge_keys_ok all_data = Ok (Some out)
    /\ (forall key df, df ∈ all_data -> key ∈ keys_of df ->
          length (filter (fun r => row_key r = key) (table_rows out))
          = row_copies key all_data)
    /\ (Forall (fun df => NoDup (keys_of df)) all_data ->
        NoDup (map row_key (table_rows out))).
Proof.
  intros Hperm Hok Hne Hkeyed Hnd.
  destruct (key_aligned_merge_table sort_values merge_keys_ok Hperm Hok
              all_data Hne Hkeyed Hnd)
    as (out & Hout & _ & Hkeys & _).
  exists out. split; [exact Hout|]. split.
  - intros key df Hdf Hkey.
    apply (count_table_rows sort_values merge_keys_ok Hperm Hok all_data out key
             Hne Hkeyed Hnd Hout).
    now exists df.
  - intros Huniq. apply count_le_NoDup. intros key Hin.
    rewrite (count_map row_key (fun k => k = key) (fun r => row_key r = key))
      by (intros a; reflexivity).
    rewrite (count_table_rows sort_values merge_keys_ok Hperm Hok all_data out
               key Hne Hkeyed Hnd Hout)
      by (now apply Hkeys).
    clear -Huniq. induction Huniq as [|df fs Hdf _ IH]; simpl; [lia|].
    assert (Hocc : occurrences key df <= 1).
    { rewrite occurrences_keys.
      destruct (decide (key ∈ keys_of df)) as [Hin|Hnot].
      - now rewrite count_NoDup.
      - destruct (filter (fun k => k = key) (keys_of df)) as [|z zs] eqn:E;
          [simpl; lia|].
        exfalso. assert (Hz : z ∈ filter (fun k => k = key) (keys_of df))
          by (rewrite E; apply list_elem_of_here).
        apply list_elem_of_filter in Hz as [-> Hz]. contradiction. }
    nia.
Qed.

Lemma duplicate_keys_multiply_rows_witness :
  exists out,
    TeamA.merge_county_files sort_by_key keys_of_one_kind
      [polk_twice; adair_frame; story_twice] = Ok (Some out)
    /\ length (filter (fun r => row_key r = (CStr "President", CStr "A"))
                      (table_rows out)) = 4.
Proof.
  destruct (duplicate_keys_multiply_rows sort_by_key keys_of_one_kind
              [polk_twice; adair_frame; story_twice] sort_by_key_perm
              keys_of_one_kind_joins_text)
    as (out & Hout & Hcount & _).
  - discriminate.
  - repeat constructor; discriminate.
  - unfold distinct_labels. apply (bool_decide_unpack _). vm_compute. exact I.
  - exists out. split; [exact Hout|].
    rewrite (Hcount (CStr "President", CStr "A") adair_frame).
    + reflexivity.
    + apply list_elem_of_In. simpl. auto.
    + apply list_elem_of_here.
Defined.

Lemma length_segment key df seg :
  rectangular_county_frame df -> segment_of key df seg ->
  length seg = length (precinct_cols df).
Proof.
  intros Hrect [[_ ->]|(r & Hr & _ & ->)].
  - apply length_replicate.
  - unfold rectangular_county_frame in Hrect. rewrite Forall_forall in Hrect.
    now apply Hrect.
Qed.

(** The merged table is rectangular.  On frames with text keys and
    distinct precinct labels that have one value under each of their
    precinct columns, the table has the precinct labels of all frames,
    unchanged and in frame order, after the three key labels, and every
    row has one value under each of them, whether the value comes from a
    frame or is missing. *)
Theorem merged_table_is_rectangular
    (sort_values : list merged_row -> list merged_row)
    (merge_keys_ok : list cell -> list cell -> bool)
    (all_data : list county_frame) :
  (forall l, sort_values l ≡ₚ l) ->
  joins_text_keys merge_keys_ok ->
  all_data <> [] ->
  Forall text_keyed all_data ->
  distinct_labels all_data ->
  Forall rectangular_county_frame all_data ->
  exists out,
    TeamA.merge_county_files sort_values merge_keys_ok all_data = Ok (Some out)
    /\ drop 3 (columns out) = mjoin (map precinct_cols all_data)
    /\ Forall (fun r => length (row_votes r) = length (drop 3 (columns out)))
              (table_rows out).
Proof.
  intros Hperm Hok Hne Hkeyed Hnd Hrect.
  destruct (key_aligned_merge_table sort_values merge_keys_ok Hperm Hok
              all_data Hne Hkeyed Hnd)
    as (out & Hout & Hcols & _ & Hrows).
  exists out. split; [exact Hout|].
  assert (Hdrop : drop 3 (columns out) = mjoin (map precinct_cols all_data))
    by (now rewrite Hcols).
  split; [exact Hdrop|]. rewrite Hdrop.
  apply Forall_forall. intros r Hr.
  destruct (Hrows r Hr) as (_ & segs & -> & Hsegs).
  clear -Hrect Hsegs. induction Hsegs as [|df seg fs segs Hseg _ IH]; [reflexivity|].
  apply Forall_cons in Hrect as [Hdf Hfs].
  cbn [concat map mjoin list_join]. rewrite !length_app, (IH Hfs).
  now rewrite (length_segment _ df seg Hdf Hseg).
Qed.

Lemma merged_table_is_rectangular_witness :
  exists out,
    TeamA.merge_county_files sort_by_key keys_of_one_kind
      [adair_frame; polk_frame] = Ok (Some out)
    /\ drop 3 (columns out) = ["Adair-1"; "Polk-1"; "Polk-2"]
    /\ Forall (fun r => length (row_votes r) = length (drop 3 (columns out)))
              (table_rows out).
Proof.
  apply (merged_table_is_rectangular sort_by_key keys_of_one_kind
           [adair_frame; polk_frame]).
  - exact sort_by_key_perm.
  - exact keys_of_one_kind_joins_text.
  - discriminate.
  - exact (proj1 adair_polk_frames_mergeable).
  - exact (proj2 adair_polk_frames_mergeable).
  - repeat constructor.
Defined.

Lemma duplicated_from_NoDup (l : list string) : forall seen,
  NoDup l -> (forall x, x ∈ l -> x ∉ seen) ->
  Forall (fun d => d = false) (duplicated_from seen l).
Proof.
  induction l as [|x l IH]; intros seen Hnd Hdis; [constructor|].
  apply NoDup_cons in Hnd as [Hx Hnd]. cbn [duplicated_from]. constructor.
  - apply in_list_false. apply Hdis, list_elem_of_here.
  - apply IH; [exact Hnd|]. intros y Hy Hin.
    apply elem_of_cons in Hin as [->|Hin]; [contradiction|].
    apply (Hdis y); [now apply list_elem_of_further | exact Hin].
Qed.

Lemma suffix_duplicates_NoDup (labels renamed : list string) :
  NoDup renamed -> suffix_duplicates labels renamed = [].
Proof.
  intros Hnd. unfold suffix_duplicates, duplicated.
  pose proof (duplicated_from_NoDup renamed [] Hnd
                ltac:(intros x _ H; now apply elem_of_nil in H)) as Hd.
  revert Hd. generalize (duplicated_from [] renamed) (duplicated_from [] labels).
  clear. intros d1 d0 Hd. revert d1 d0 Hd.
  induction renamed as [|x l IH]; intros [|b1 d1] d0 Hd; try reflexivity.
  destruct d0 as [|b0 d0]; [reflexivity|].
  apply Forall_cons in Hd as [-> Hd].
  cbn [zip zip_with]. rewrite filter_cons. cbn [fst snd andb].
  rewrite decide_False by discriminate. now apply IH.
Qed.

Section SharedLabels.

Variable sort_values : list merged_row -> list merged_row.
Variable merge_keys_ok : list cell -> list cell -> bool.
Hypothesis merge_keys_ok_text : joins_text_keys merge_keys_ok.

Lemma two_frames_columns (df1 df2 : county_frame) :
  text_keyed df1 -> text_keyed df2 ->
  Forall (fun key => (key ∉ precinct_cols df1) /\ (key ∉ precinct_cols df2))
         ["RaceTitle"; "CandidateName"] ->
  NoDup ("RaceTitle" :: "CandidateName"
         :: map (add_suffix (shared_labels df1 df2) "_x") (precinct_cols df1)) ->
  NoDup (map (add_suffix (shared_labels df1 df2) "_y") (precinct_cols df2)) ->
  "PoliticalPartyName"
    ∉ (map (add_suffix (shared_labels df1 df2) "_x") (precinct_cols df1)
       ++ map (add_suffix (shared_labels df1 df2) "_y") (precinct_cols df2)) ->
  exists out,
    TeamA.merge_county_files sort_values merge_keys_ok [df1; df2] = Ok (Some out)
    /\ columns out
       = ["RaceTitle"; "CandidateName"; "PoliticalPartyName"]
         ++ map (add_suffix (shared_labels df1 df2) "_x") (precinct_cols df1)
         ++ map (add_suffix (shared_labels df1 df2) "_y") (precinct_cols df2).
Proof.
  intros Hdf1 Hdf2 Hkeys Hleft Hright Hparty.
  apply Forall_cons in Hkeys as [[Hr1 Hr2] Hkeys].
  apply Forall_cons in Hkeys as [[Hc1 Hc2] _].
  set (init := map (fun k : cell * cell => (k, @nil cell))
                   (drop_duplicates (mjoin (map keys_of [df1; df2])))).
  assert (Hall : Forall (fun r : (cell * cell) * list cell => text_key r.1) init).
  { apply Forall_forall. intros r Hr.
    apply list_elem_of_fmap in Hr as (k & -> & Hk). cbn [fst].
    apply elem_of_drop_duplicates, list_elem_of_join in Hk as (l & Hk & Hl).
    apply list_elem_of_fmap in Hl as (df & -> & Hdf).
    assert (Hkeyed : text_keyed df).
    { apply elem_of_cons in Hdf as [->|Hdf]; [exact Hdf1|].
      apply list_elem_of_singleton in Hdf. now subst df. }
    destruct Hkeyed as [_ Hrows].
    apply list_elem_of_fmap in Hk as (r & -> & Hr).
    rewrite Forall_forall in Hrows. now apply Hrows. }
  assert (Hne : init <> []).
  { destruct Hdf1 as [Hrows _].
    destruct (frame_rows df1) as [|r rows] eqn:E; [congruence|].
    assert (Hk : r.1 ∈ drop_duplicates (mjoin (map keys_of [df1; df2]))).
    { apply elem_of_drop_duplicates, list_elem_of_join. exists (keys_of df1).
      split; [unfold keys_of; rewrite E; apply list_elem_of_here|].
      apply list_elem_of_here. }
    intros Hnil. apply fmap_nil_inv in Hnil. rewrite Hnil in Hk.
    now apply elem_of_nil in Hk. }
  unfold TeamA.merge_county_files. fold init. cbn [for_each].
  rewrite (merge_frame_ok merge_keys_ok merge_keys_ok_text
             ["RaceTitle"; "CandidateName"] init df1 Hne Hall Hdf1).
  2:{ intros x Hx. apply elem_of_cons in Hx as [->|Hx]; [exact Hr1|].
      apply list_elem_of_singleton in Hx. now subst x. }
  change (Ok ?a ≫= ?g) with (g a). cbv beta.
  unfold merge_frame at 1. cbn [fst snd].
  destruct (text_keys_columns (left_join init df1)
              (left_join_nonempty init df1 Hne)
              (left_join_text_keys init df1 Hall)) as [Hl1 Hl2].
  destruct Hdf2 as [Hrows2 Hkeys2].
  destruct (text_keys_columns (frame_rows df2) Hrows2 Hkeys2) as [Hk1 Hk2].
  rewrite (merge_keys_ok_text _ _ Hl1 Hk1), (merge_keys_ok_text _ _ Hl2 Hk2).
  cbn [andb]. unfold items_overlap_with_suffix.
  change (["RaceTitle"; "CandidateName"] ++ precinct_cols df1)
    with ("RaceTitle" :: "CandidateName" :: precinct_cols df1).
  cbn [List.filter map].
  rewrite (in_list_false "RaceTitle" _ Hr2), (in_list_false "CandidateName" _ Hc2).
  fold (shared_labels df1 df2).
  assert (Hkeep : forall key suffix,
            key ∉ precinct_cols df1 ->
            add_suffix (shared_labels df1 df2) suffix key = key).
  { intros key suffix Hkey. unfold add_suffix. rewrite in_list_false; [reflexivity|].
    unfold shared_labels. intros Hin.
    apply list_elem_of_In, filter_In in Hin as [Hin _].
    apply Hkey. now apply list_elem_of_In. }
  rewrite (Hkeep "RaceTitle" "_x" Hr1), (Hkeep "CandidateName" "_x" Hc1).
  rewrite (suffix_duplicates_NoDup _ _ Hleft), (suffix_duplicates_NoDup _ _ Hright).
  cbn [app]. change (Ok ?a ≫= ?g) with (g a). cbv beta. cbn [fst snd for_each].
  repeat (change (Ok ?a ≫= ?g) with (g a); cbv beta). cbn [fst snd app].
  rewrite in_list_false.
  - eexists. split; reflexivity.
  - intros Hin. apply elem_of_cons in Hin as [Hin|Hin]; [discriminate|].
    apply elem_of_cons in Hin as [Hin|Hin]; [discriminate | contradiction].
Qed.

End SharedLabels.

(** A precinct label that two frames share is saved under two other
    names.  In the merge of two frames with text keys, every precinct
    label of the first frame that the second has too gets the suffix
    ["_x"], its namesake in the second frame the suffix ["_y"], and the
    other labels stay as they are, provided the labels so renamed are
    distinct on each side and none is a key label. *)
Theorem shared_precinct_labels_get_suffixes
    (sort_values : list merged_row -> list merged_row)
    (merge_keys_ok : list cell -> list cell -> bool)
    (df1 df2 : county_frame) :
  joins_text_keys merge_keys_ok ->
  text_keyed df1 -> text_keyed df2 ->
  Forall (fun key => (key ∉ precinct_cols df1) /\ (key ∉ precinct_cols df2))
         ["RaceTitle"; "CandidateName"] ->
  NoDup ("RaceTitle" :: "CandidateName"
         :: map (add_suffix (shared_labels df1 df2) "_x") (precinct_cols df1)) ->
  NoDup (map (add_suffix (shared_labels df1 df2) "_y") (precinct_cols df2)) ->
  "PoliticalPartyName"
    ∉ (map (add_suffix (shared_labels df1 df2) "_x") (precinct_cols df1)
       ++ map (add_suffix (shared_labels df1 df2) "_y") (precinct_cols df2)) ->
  exists out,
    TeamA.merge_county_files sort_values merge_keys_ok [df1; df2] = Ok (Some out)
    /\ columns out
       = ["RaceTitle"; "CandidateName"; "PoliticalPartyName"]
         ++ map (add_suffix (shared_labels df1 df2) "_x") (precinct_cols df1)
         ++ map (add_suffix (shared_labels df1 df2) "_y") (precinct_cols df2).
Proof.
  intros Hok Hdf1 Hdf2 Hkeys Hleft Hright Hparty.
  exact (two_frames_columns sort_values merge_keys_ok Hok df1 df2
           Hdf1 Hdf2 Hkeys Hleft Hright Hparty).
Qed.

Lemma shared_precinct_labels_get_suffixes_witness :
  exists out,
    TeamA.merge_county_files sort_by_key keys_of_one_kind [polk_frame; polk_late]
    = Ok (Some out)
    /\ columns out
       = ["RaceTitle"; "CandidateName"; "PoliticalPartyName";
          "Polk-1_x"; "Polk-2"; "Polk-1_y"; "Polk-3"].
Proof.
  apply (shared_precinct_labels_get_suffixes sort_by_key keys_of_one_kind
           polk_frame polk_late).
  - exact keys_of_one_kind_joins_text.
  - repeat constructor; discriminate.
  - repeat constructor; discriminate.
  - repeat constructor; intros H;
      repeat (apply elem_of_cons in H as [H|H]; [discriminate|]);
      now apply elem_of_nil in H.
  - apply (bool_decide_unpack _). vm_compute. exact I.
  - apply (bool_decide_unpack _). vm_compute. exact I.
  - apply (bool_decide_unpack _). vm_compute. exact I.
Defined.

Section PartyColumn.

Variable sort_values : list merged_row -> list merged_row.
Variable merge_keys_ok : list cell -> list cell -> bool.
Hypothesis merge_keys_ok_text : joins_text_keys merge_keys_ok.

Lemma party_label_taken (all_data : list county_frame) :
  Forall text_keyed all_data ->
  NoDup ("RaceTitle" :: "CandidateName" :: mjoin (map precinct_cols all_data)) ->
  "PoliticalPartyName" ∈ mjoin (map precinct_cols all_data) ->
  TeamA.merge_county_files sort_values merge_keys_ok all_data = Raise ValueError.
Proof.
  intros Hkeyed Hnd Hin.
  pose proof (proj1 (Forall_forall _ _) Hkeyed) as Hframes.
  assert (Hkeys : Forall (fun r : (cell * cell) * list cell => text_key r.1)
                    (map (fun k : cell * cell => (k, @nil cell))
                       (drop_duplicates (mjoin (map keys_of all_data))))).
  { apply Forall_forall. intros r Hr.
    apply list_elem_of_fmap in Hr as (k & -> & Hk). cbn [fst].
    apply elem_of_drop_duplicates, list_elem_of_join in Hk as (l & Hk & Hl).
    apply list_elem_of_fmap in Hl as (df & -> & Hdf).
    destruct (Hframes df Hdf) as [_ Hrows].
    apply list_elem_of_fmap in Hk as (r & -> & Hr).
    rewrite Forall_forall in Hrows. now apply Hrows. }
  destruct all_data as [|df0 rest]; [now apply elem_of_nil in Hin|].
  assert (Hinit : map (fun k : cell * cell => (k, @nil cell))
                    (drop_duplicates (mjoin (map keys_of (df0 :: rest)))) <> []).
  { destruct (Hframes df0 (list_elem_of_here _ _)) as [Hrows _].
    destruct (frame_rows df0) as [|r rows] eqn:E; [congruence|].
    assert (Hk : r.1 ∈ drop_duplicates (mjoin (map keys_of (df0 :: rest)))).
    { apply elem_of_drop_duplicates, list_elem_of_join. exists (keys_of df0).
      split; [unfold keys_of; rewrite E; apply list_elem_of_here|].
      apply list_elem_of_here. }
    intros Hnil. apply fmap_nil_inv in Hnil. rewrite Hnil in Hk.
    now apply elem_of_nil in Hk. }
  unfold TeamA.merge_county_files.
  rewrite (merge_frames_ok merge_keys_ok merge_keys_ok_text (df0 :: rest)
             ["RaceTitle"; "CandidateName"] _ Hinit Hkeys Hkeyed Hnd).
  change (Ok ?a ≫= ?g) with (g a). cbv beta. cbn [fst snd].
  replace (Py.in_list "PoliticalPartyName"
             (["RaceTitle"; "CandidateName"]
              ++ mjoin (map precinct_cols (df0 :: rest)))) with true;
    [reflexivity|].
  symmetry. apply in_list_iff. now do 2 apply list_elem_of_further.
Qed.

End PartyColumn.

(** A precinct column under the name of the party column stops the
    merge.  On frames with text keys whose precinct labels differ from
    one another and from the two key labels, the run raises [ValueError]
    at [insert(2, 'PoliticalPartyName', '')] when some frame has a
    precinct column named [PoliticalPartyName]: nothing is saved. *)
Theorem party_named_column_aborts_merge
    (sort_values : list merged_row -> list merged_row)
    (merge_keys_ok : list cell -> list cell -> bool)
    (all_data : list county_frame) :
  joins_text_keys merge_keys_ok ->
  Forall text_keyed all_data ->
  NoDup ("RaceTitle" :: "CandidateName" :: mjoin (map precinct_cols all_data)) ->
  Exists (fun df => "PoliticalPartyName" ∈ precinct_cols df) all_data ->
  TeamA.merge_county_files sort_values merge_keys_ok all_data = Raise ValueError.
Proof.
  intros Hok Hkeyed Hnd Hex.
  apply (party_label_taken sort_values merge_keys_ok Hok all_data Hkeyed Hnd).
  apply Exists_exists in Hex as (df & Hdf & Hin).
  apply list_elem_of_join. exists (precinct_cols df). split; [exact Hin|].
  apply list_elem_of_fmap. now exists df.
Qed.

Lemma party_named_column_aborts_merge_witness :
  TeamA.merge_county_files sort_by_key keys_of_one_kind
    [adair_frame; party_frame] = Raise ValueError.
Proof.
  apply (party_named_column_aborts_merge sort_by_key keys_of_one_kind
           [adair_frame; party_frame]).
  - exact keys_of_one_kind_joins_text.
  - repeat constructor; discriminate.
  - apply (bool_decide_unpack _). vm_compute. exact I.
  - apply Exists_cons_tl, Exists_cons_hd.
    apply list_elem_of_further, list_elem_of_here.
Defined.

(** * The 2016 parser *)

Lemma select_pure {A} (p : A -> TeamA2016.outcome bool) (q : A -> bool)
    (l : list A) :
  (forall a, a ∈ l -> p a = TeamA2016.Return (q a)) ->
  TeamA2016.select p l = TeamA2016.Return (List.filter q l).
Proof.
  induction l as [|a l IH]; intros H; simpl; [reflexivity|].
  rewrite (H a) by apply list_elem_of_here. simpl.
  rewrite IH by (intros b Hb; apply H; now apply list_elem_of_further).
  simpl. now destruct (q a).
Qed.

Lemma select_throws {A} (p : A -> TeamA2016.outcome bool) (e : TeamA2016.error)
    (l : list A) :
  (forall a, a ∈ l -> (exists b, p a = TeamA2016.Return b)
                      \/ p a = TeamA2016.Throw e) ->
  Exists (fun a => p a = TeamA2016.Throw e) l ->
  TeamA2016.select p l = TeamA2016.Throw e.
Proof.
  induction l as [|a l IH]; intros H Hex; [now apply Exists_nil in Hex|].
  simpl. destruct (H a (list_elem_of_here _ _)) as [[b Hb]|Ht].
  - rewrite Hb. simpl. rewrite IH; [reflexivity | |].
    + intros x Hx. apply H. now apply list_elem_of_further.
    + apply Exists_cons in Hex as [Hex|Hex]; [congruence | exact Hex].
  - now rewrite Ht.
Qed.

Lemma texts_all_text (l : list cell) :
  Forall (fun c => is_text c = true) l -> map CStr (texts l) = l.
Proof.
  induction 1 as [|c l Hc _ IH]; [reflexivity|].
  destruct c as [|s|n]; try discriminate.
  change (texts (CStr s :: l)) with (s :: texts l).
  cbn [map]. now rewrite IH.
Qed.

Lemma elem_of_texts (l : list cell) s : s ∈ texts l <-> CStr s ∈ l.
Proof.
  unfold texts. rewrite list_elem_of_omap. split.
  - intros (c & Hc & Hs). destruct c; try discriminate. now injection Hs as ->.
  - intros H. now exists (CStr s).
Qed.

Lemma column_Return df label :
  CStr label ∈ TeamA2016.labels df ->
  TeamA2016.column df label = TeamA2016.Return (values_of df label).
Proof.
  intros Hin. unfold values_of, TeamA2016.column.
  destruct (list_find (fun l => l = CStr label) (TeamA2016.labels df))
    as [[i c]|] eqn:E; [reflexivity|].
  exfalso. apply list_find_None in E. rewrite Forall_forall in E.
  now apply (E _ Hin).
Qed.

Lemma column_Throw df label :
  CStr label ∉ TeamA2016.labels df ->
  TeamA2016.column df label = TeamA2016.Throw TeamA2016.KeyError.
Proof.
  intros Hin. unfold TeamA2016.column.
  destruct (list_find (fun l => l = CStr label) (TeamA2016.labels df))
    as [[i c]|] eqn:E; [|reflexivity].
  exfalso. apply list_find_Some in E as (Hi & -> & _).
  apply Hin. eapply list_elem_of_lookup_2. exact Hi.
Qed.

Lemma candidate_label_present df :
  CStr " CandidateName" ∈ TeamA2016.labels df
  \/ CStr "CandidateName" ∈ TeamA2016.labels df ->
  CStr (candidate_label df) ∈ TeamA2016.labels df.
Proof.
  unfold candidate_label. intros [H|H].
  - now rewrite bool_decide_eq_true_2.
  - destruct (bool_decide _) eqn:E; [now apply bool_decide_eq_true in E | exact H].
Qed.

Lemma candidate_label_absent df :
  ~ (CStr " CandidateName" ∈ TeamA2016.labels df
     \/ CStr "CandidateName" ∈ TeamA2016.labels df) ->
  CStr (candidate_label df) ∉ TeamA2016.labels df.
Proof.
  unfold candidate_label. intros H.
  destruct (bool_decide _) eqn:E.
  - apply bool_decide_eq_true in E. tauto.
  - tauto.
Qed.

Lemma precinct_cols_cases df :
  (Forall (fun c => is_text c = true) (TeamA2016.labels df)
   /\ exists cols, TeamA2016.precinct_cols df = TeamA2016.Return cols)
  \/ (Exists (fun c => is_text c = false) (TeamA2016.labels df)
      /\ TeamA2016.precinct_cols df = TeamA2016.Throw TeamA2016.TypeError).
Proof.
  unfold TeamA2016.precinct_cols.
  set (p := fun col : cell => _).
  induction (TeamA2016.labels df) as [|c l IH].
  - left. split; [constructor|]. now eexists.
  - destruct c as [|s|n].
    + right. split; [now apply Exists_cons_hd | reflexivity].
    + destruct IH as [(Hall & cols & Hc)|(Hex & Ht)].
      * left. split; [now constructor|].
        cbn [TeamA2016.select]. rewrite Hc. subst p. simpl. now eexists.
      * right. split; [now apply Exists_cons_tl|].
        cbn [TeamA2016.select]. rewrite Ht. subst p. reflexivity.
    + right. split; [now apply Exists_cons_hd | reflexivity].
Qed.

Lemma total_cols_text df :
  Forall (fun c => is_text c = true) (TeamA2016.labels df) ->
  TeamA2016.total_cols df = TeamA2016.Return (map CStr (total_labels df)).
Proof.
  intros Hall. unfold TeamA2016.total_cols, total_labels.
  rewrite <- (texts_all_text _ Hall) at 1.
  generalize (texts (TeamA2016.labels df)). clear.
  induction l as [|s l IH]; [reflexivity|].
  simpl. rewrite IH. simpl. fold (is_total_label s).
  now destruct (is_total_label s).
Qed.

Lemma elem_of_total_labels df s :
  s ∈ total_labels df <->
  CStr s ∈ TeamA2016.labels df /\ is_total_label s = true.
Proof.
  unfold total_labels.
  rewrite list_elem_of_In, filter_In, <- list_elem_of_In, elem_of_texts.
  reflexivity.
Qed.

Lemma add_precinct_ok df idx d s :
  CStr s ∈ TeamA2016.labels df ->
  TeamA2016.add_precinct df idx d (CStr s)
  = TeamA2016.Return
      (TeamA2016.assign (TeamA2016.precinct_name s)
         (map (fun i => nth i (values_of df s) CNone) idx) d).
Proof.
  intros Hs. unfold TeamA2016.add_precinct.
  now rewrite (column_Return df s Hs).
Qed.

Lemma add_precincts_ok df idx (ts : list string) : forall d,
  Forall (fun s => CStr s ∈ TeamA2016.labels df) ts ->
  TeamA2016.loop (TeamA2016.add_precinct df idx) (map CStr ts) d
  = TeamA2016.Return
      (foldl (fun d s =>
                TeamA2016.assign (TeamA2016.precinct_name s)
                  (map (fun i => nth i (values_of df s) CNone) idx) d)
             d ts).
Proof.
  induction ts as [|s ts IH]; intros d Hall; [reflexivity|].
  apply Forall_cons in Hall as [Hs Hts].
  cbn [map TeamA2016.loop]. rewrite (add_precinct_ok df idx d s Hs).
  cbn [foldl]. rewrite <- (IH _ Hts). reflexivity.
Qed.

Lemma has_str_accessor_matches (titles : list cell) :
  Exists (fun t => race_matches t = true) titles ->
  TeamA2016.has_str_accessor titles = true.
Proof.
  intros Hex. unfold TeamA2016.has_str_accessor.
  apply orb_true_iff. right. apply existsb_exists.
  apply Exists_exists in Hex as (t & Hin & Hm).
  exists t. split; [now apply list_elem_of_In|].
  destruct t; [discriminate | reflexivity | discriminate].
Qed.

Lemma length_values_of df l1 l2 :
  CStr l1 ∈ TeamA2016.labels df -> CStr l2 ∈ TeamA2016.labels df ->
  length (values_of df l1) = length (values_of df l2).
Proof.
  intros H1 H2. unfold values_of, TeamA2016.column.
  destruct (list_find _ _) as [[i c]|] eqn:E1.
  2:{ apply list_find_None in E1. rewrite Forall_forall in E1.
      now destruct (E1 _ H1). }
  destruct (list_find (fun l => l = CStr l2) _) as [[j c']|] eqn:E2.
  2:{ apply list_find_None in E2. rewrite Forall_forall in E2.
      now destruct (E2 _ H2). }
  now rewrite !length_map.
Qed.

Lemma kept_from_nil (ts : list cell) : forall (cs : list cell) n,
  length ts = length cs ->
  (filter (fun r : nat * (cell * cell) => race_matches r.2.1 = true)
          (enumerate_from n (zip ts cs)) = []
   <-> Forall (fun t => race_matches t = false) ts).
Proof.
  induction ts as [|t ts IH]; intros [|c cs] n Hlen; try discriminate.
  - split; [constructor | reflexivity].
  - cbn [zip zip_with enumerate_from]. rewrite filter_cons. cbn [fst snd].
    destruct (decide (race_matches t = true)) as [Hm|Hm].
    + split; [discriminate|]. intros H. apply Forall_cons in H as [H _].
      congruence.
    + rewrite (IH cs (S n)) by (simpl in Hlen; lia).
      split; [intros H; constructor; [now destruct (race_matches t) | exact H]|].
      intros H. now apply Forall_cons in H as [_ H].
Qed.

Lemma kept_rows_nil df :
  has_key_columns df ->
  (kept_rows df = []
   <-> Forall (fun t => race_matches t = false) (values_of df "RaceTitle")).
Proof.
  intros [Ht Hc]. apply candidate_label_present in Hc.
  apply kept_from_nil. exact (length_values_of df _ _ Ht Hc).
Qed.

Lemma titles_of_enumerate (ts : list cell) : forall (cs : list cell) n,
  length ts = length cs ->
  map (fun r : nat * (cell * cell) => r.2.1) (enumerate_from n (zip ts cs)) = ts.
Proof.
  induction ts as [|t ts IH]; intros [|c cs] n Hlen; try discriminate;
    [reflexivity|].
  cbn [zip zip_with enumerate_from map fst snd]. f_equal.
  apply IH. simpl in Hlen. lia.
Qed.

Lemma process_2016_file_cases (df : TeamA2016.table) :
  TeamA2016.process_2016_file df
  = if decide (has_key_columns df)
    then if TeamA2016.has_str_accessor (values_of df "RaceTitle")
         then if decide (kept_rows df = [])
              then TeamA2016.Return None
              else if forallb is_text (TeamA2016.labels df)
                   then TeamA2016.Return (Some (result_frame df))
                   else TeamA2016.Throw TeamA2016.TypeError
         else TeamA2016.Throw TeamA2016.AttributeError
    else TeamA2016.Throw TeamA2016.KeyError.
Proof.
  unfold TeamA2016.process_2016_file. fold (candidate_label df).
  destruct (decide (has_key_columns df)) as [[Ht Hc]|Hkeys].
  2:{ destruct (decide (CStr "RaceTitle" ∈ TeamA2016.labels df)) as [Ht|Ht].
      - rewrite (column_Return df "RaceTitle" Ht). simpl.
        rewrite (column_Throw df (candidate_label df)); [reflexivity|].
        apply candidate_label_absent. intros Hc. apply Hkeys. now split.
      - now rewrite (column_Throw df "RaceTitle" Ht). }
  pose proof (candidate_label_present df Hc) as Hc'.
  rewrite (column_Return df "RaceTitle" Ht).
  change (TeamA2016.Return ?a ≫= ?g) with (g a). cbv beta.
  rewrite (column_Return df _ Hc').
  change (TeamA2016.Return ?a ≫= ?g) with (g a). cbv beta.
  unfold TeamA2016.filter_races, enumerate.
  rewrite (titles_of_enumerate _ _ 0 (length_values_of df _ _ Ht Hc')).
  destruct (TeamA2016.has_str_accessor (values_of df "RaceTitle"));
    [|reflexivity].
  change (TeamA2016.Return ?a ≫= ?g) with (g a). cbv beta.
  change (filter _ (enumerate_from 0 _)) with (kept_rows df).
  destruct (decide (kept_rows df = [])) as [Hnil|Hkept].
  { now rewrite Hnil. }
  rewrite bool_decide_eq_false_2.
  2:{ intros Hlen. apply Hkept. now apply length_zero_iff_nil. }
  destruct (precinct_cols_cases df) as [(Hall & cols & Hcols)|(Hex & Hthrow)].
  - rewrite Hcols.
    change (TeamA2016.Return ?a ≫= ?g) with (g a). cbv beta.
    rewrite (total_cols_text df Hall).
    change (TeamA2016.Return ?a ≫= ?g) with (g a). cbv beta.
    rewrite add_precincts_ok.
    2:{ apply Forall_forall. intros s Hs. now apply elem_of_total_labels in Hs. }
    change (TeamA2016.Return ?a ≫= ?g) with (g a). cbv beta.
    assert (Hf : forallb is_text (TeamA2016.labels df) = true).
    { apply forallb_forall. intros c Hin. rewrite Forall_forall in Hall.
      apply Hall. now apply list_elem_of_In. }
    rewrite Hf. reflexivity.
  - rewrite Hthrow.
    assert (Hf : forallb is_text (TeamA2016.labels df) = false).
    { apply Exists_exists in Hex as (c & Hin & Hc0).
      destruct (forallb is_text (TeamA2016.labels df)) eqn:E; [|reflexivity].
      rewrite forallb_forall in E. rewrite E in Hc0; [discriminate|].
      now apply list_elem_of_In. }
    rewrite Hf. reflexivity.
Qed.

Lemma no_match_or_match (titles : list cell) :
  (Forall (fun t => race_matches t = false) titles
   /\ ~ Exists (fun t => race_matches t = true) titles)
  \/ (Exists (fun t => race_matches t = true) titles
      /\ ~ Forall (fun t => race_matches t = false) titles).
Proof.
  induction titles as [|t ts IH].
  - left. split; [constructor|]. intros H. now apply Exists_nil in H.
  - destruct (race_matches t) eqn:E.
    + right. split; [now apply Exists_cons_hd|].
      intros H. apply Forall_cons in H as [H _]. congruence.
    + destruct IH as [[Hall Hno]|[Hex Hno]].
      * left. split; [now constructor|].
        intros H. apply Exists_cons in H as [H|H]; [congruence | tauto].
      * right. split; [now apply Exists_cons_tl|].
        intros H. apply Forall_cons in H as [_ H]. tauto.
Qed.

Lemma all_text_or_not (l : list cell) :
  (forallb is_text l = true
   /\ Forall (fun c => is_text c = true) l
   /\ ~ Exists (fun c => is_text c = false) l)
  \/ (forallb is_text l = false
      /\ Exists (fun c => is_text c = false) l
      /\ ~ Forall (fun c => is_text c = true) l).
Proof.
  induction l as [|c l IH].
  - left. split; [reflexivity|]. split; [constructor|].
    intros H. now apply Exists_nil in H.
  - cbn [forallb]. destruct (is_text c) eqn:E.
    + destruct IH as [(Hf & Hall & Hno)|(Hf & Hex & Hno)].
      * left. rewrite Hf. split; [reflexivity|]. split; [now constructor|].
        intros H. apply Exists_cons in H as [H|H]; [congruence | tauto].
      * right. rewrite Hf. split; [reflexivity|].
        split; [now apply Exists_cons_tl|].
        intros H. apply Forall_cons in H as [_ H]. tauto.
    + right. split; [reflexivity|]. split; [now apply Exists_cons_hd|].
      intros H. apply Forall_cons in H as [H _]. congruence.
Qed.

(** What a county sheet of 2016 gives, case by case.  Without the race
    title column or a candidate column the call raises [KeyError]; with
    them, a title column of numbers and blanks only raises
    [AttributeError]; a sheet with no row of a wanted race gives [None],
    whatever its other labels; a header cell that is not text raises
    [TypeError] once some row is of a wanted race; in every other case
    the call returns a frame. *)
Theorem process_2016_file_outcomes (df : TeamA2016.table) :
  (TeamA2016.process_2016_file df = TeamA2016.Throw TeamA2016.KeyError
   <-> ~ has_key_columns df)
  /\ (TeamA2016.process_2016_file df = TeamA2016.Throw TeamA2016.AttributeError
      <-> has_key_columns df
          /\ TeamA2016.has_str_accessor (values_of df "RaceTitle") = false)
  /\ (TeamA2016.process_2016_file df = TeamA2016.Return None
      <-> has_key_columns df
          /\ TeamA2016.has_str_accessor (values_of df "RaceTitle") = true
          /\ Forall (fun t => race_matches t = false) (values_of df "RaceTitle"))
  /\ (TeamA2016.process_2016_file df = TeamA2016.Throw TeamA2016.TypeError
      <-> has_key_columns df
          /\ Exists (fun t => race_matches t = true) (values_of df "RaceTitle")
          /\ Exists (fun c => is_text c = false) (TeamA2016.labels df))
  /\ ((exists result_df,
         TeamA2016.process_2016_file df = TeamA2016.Return (Some result_df))
      <-> has_key_columns df
          /\ Exists (fun t => race_matches t = true) (values_of df "RaceTitle")
          /\ Forall (fun c => is_text c = true) (TeamA2016.labels df)).
Proof.
  rewrite (process_2016_file_cases df).
  destruct (decide (has_key_columns df)) as [Hkeys|Hkeys].
  2:{ split; [tauto|].
      split; [split; [discriminate | tauto]|].
      split; [split; [discriminate | tauto]|].
      split; [split; [discriminate | tauto]|].
      split; [intros [? ?]; discriminate | tauto]. }
  split; [split; [|tauto]|].
  { destruct (TeamA2016.has_str_accessor _); [|discriminate].
    destruct (decide _); [discriminate|].
    destruct (forallb _ _); discriminate. }
  destruct (no_match_or_match (values_of df "RaceTitle"))
    as [[Hnone Hno]|[Hsome Hno]].
  - assert (Hnil : kept_rows df = []) by (now apply kept_rows_nil).
    rewrite decide_True by exact Hnil.
    destruct (TeamA2016.has_str_accessor (values_of df "RaceTitle")) eqn:Hstr.
    + split; [split; [discriminate | intros [_ ?]; discriminate]|].
      split; [tauto|].
      split; [split; [discriminate | tauto]|].
      split; [intros [? ?]; discriminate | tauto].
    + split; [tauto|].
      split; [split; [discriminate | intros (_ & ? & _); discriminate]|].
      split; [split; [discriminate | tauto]|].
      split; [intros [? ?]; discriminate | tauto].
  - assert (Hkept : kept_rows df <> []).
    { intros Hnil. now apply kept_rows_nil in Hnil. }
    rewrite decide_False by exact Hkept.
    rewrite (has_str_accessor_matches _ Hsome).
    split; [split; [|intros [_ ?]; discriminate]|].
    { destruct (forallb _ _); discriminate. }
    split; [split; [|tauto]|].
    { destruct (forallb _ _); discriminate. }
    destruct (all_text_or_not (TeamA2016.labels df))
      as [(Hf & Hall & Hnot)|(Hf & Hex & Hnot)]; rewrite Hf.
    + split; [split; [discriminate | tauto]|].
      split; [tauto | intros _; now eexists].
    + split; [tauto|].
      split; [intros [? ?]; discriminate | tauto].
Qed.

(** ** Column labels of the 2016 sheets *)

Lemma append_cons c s t : String c s +:+ t = String c (s +:+ t).
Proof. reflexivity. Qed.

Lemma append_nil_r s : s +:+ EmptyString = s.
Proof. induction s as [|c s IH]; [reflexivity|]. now rewrite append_cons, IH. Qed.

Lemma length_append s t :
  String.length (s +:+ t) = String.length s + String.length t.
Proof.
  induction s as [|c s IH]; [reflexivity|].
  rewrite append_cons. simpl. now rewrite IH.
Qed.

Lemma append_inv_tail a : forall c b, a +:+ b = c +:+ b -> a = c.
Proof.
  induction a as [|x a IH]; intros [|y c] b H.
  - reflexivity.
  - exfalso. apply (f_equal String.length) in H.
    change (EmptyString +:+ b) with b in H.
    rewrite append_cons in H. simpl in H. rewrite length_append in H. lia.
  - exfalso. apply (f_equal String.length) in H.
    change (EmptyString +:+ b) with b in H.
    rewrite append_cons in H. simpl in H. rewrite length_append in H. lia.
  - rewrite !append_cons in H. injection H as -> H. f_equal. now apply (IH c b).
Qed.

Lemma substring_all s : substring 0 (String.length s) s = s.
Proof. induction s as [|c s IH]; [reflexivity|]. simpl. now rewrite IH. Qed.

Lemma substring_skip p : forall s,
  substring (String.length p) (String.length s) (p +:+ s) = s.
Proof.
  induction p as [|c p IH]; intros s.
  - apply substring_all.
  - rewrite append_cons. simpl. apply IH.
Qed.

Lemma endswith_iff s suf :
  Py.endswith s suf = true <-> exists p, s = p +:+ suf.
Proof.
  split.
  - intros H. eexists. now apply endswith_drop_last.
  - intros [p ->]. unfold Py.endswith. rewrite length_append.
    apply andb_true_iff. split; [apply Nat.leb_le; lia|].
    replace (String.length p + String.length suf - String.length suf)
      with (String.length p) by lia.
    rewrite substring_skip. apply String.eqb_refl.
Qed.

Lemma endswith_app_tail a c b :
  Py.endswith (a +:+ b) (c +:+ b) = Py.endswith a c.
Proof.
  destruct (Py.endswith a c) eqn:E.
  - apply endswith_iff in E as [p ->]. apply endswith_iff. exists p.
    now rewrite append_assoc.
  - destruct (Py.endswith (a +:+ b) (c +:+ b)) eqn:E'; [|reflexivity].
    apply endswith_iff in E' as [p Hp]. rewrite <- append_assoc in Hp.
    apply append_inv_tail in Hp. rewrite <- E. symmetry.
    apply endswith_iff. now exists p.
Qed.

Lemma lstrip_space pre s :
  all_space pre = true -> Py.lstrip (pre +:+ s) = Py.lstrip s.
Proof.
  induction pre as [|c pre IH]; intros H; [reflexivity|].
  simpl in H. apply andb_true_iff in H as [Hc Hpre].
  rewrite append_cons. simpl. rewrite Hc. now apply IH.
Qed.

Lemma length_lstrip s : String.length (Py.lstrip s) <= String.length s.
Proof.
  induction s as [|c s IH]; [reflexivity|]. simpl.
  destruct (Py.is_space c); simpl; lia.
Qed.

Lemma lstrip_fixed_app s t :
  s <> EmptyString -> Py.lstrip s = s -> Py.lstrip (s +:+ t) = s +:+ t.
Proof.
  destruct s as [|c s]; [congruence|]. intros _ H.
  rewrite append_cons. simpl in *.
  destruct (Py.is_space c); [|reflexivity].
  exfalso. pose proof (length_lstrip s) as Hlen. rewrite H in Hlen.
  simpl in Hlen. lia.
Qed.

Lemma rstrip_space post :
  all_space post = true -> Py.rstrip post = EmptyString.
Proof.
  induction post as [|c post IH]; intros H; [reflexivity|].
  simpl in H. apply andb_true_iff in H as [Hc Hpost].
  simpl. now rewrite (IH Hpost), Hc.
Qed.

Lemma rstrip_app_space s post :
  all_space post = true -> Py.rstrip (s +:+ post) = Py.rstrip s.
Proof.
  intros H. induction s as [|c s IH].
  - now apply rstrip_space.
  - rewrite append_cons. simpl. now rewrite IH.
Qed.

Lemma rstrip_fixed_app s t :
  t <> EmptyString -> Py.rstrip t = t -> Py.rstrip (s +:+ t) = s +:+ t.
Proof.
  intros Hne Ht. induction s as [|c s IH]; [exact Ht|].
  rewrite append_cons. simpl. rewrite IH.
  destruct (s +:+ t) eqn:E; [|reflexivity].
  exfalso. destruct s; [|discriminate].
  change (EmptyString +:+ t) with t in E. congruence.
Qed.

Lemma strip_label pre name post :
  all_space pre = true -> all_space post = true ->
  name <> EmptyString -> Py.lstrip name = name ->
  Py.strip (pre +:+ name +:+ " Total" +:+ post) = name +:+ " Total".
Proof.
  intros Hpre Hpost Hne Hl. unfold Py.strip.
  rewrite (lstrip_space pre _ Hpre), (lstrip_fixed_app name _ Hne Hl).
  rewrite <- append_assoc, (rstrip_app_space _ post Hpost).
  apply rstrip_fixed_app; [discriminate | reflexivity].
Qed.

Lemma prefix_total_app s :
  s <> EmptyString ->
  String.prefix " Total" s = false ->
  String.prefix " Total" (s +:+ " Total") = false.
Proof.
  intros Hne H.
  destruct s as [|c1 s]; [congruence|]. clear Hne.
  rewrite append_cons. cbn [String.prefix] in *.
  destruct (ascii_dec " " c1); [|reflexivity].
  destruct s as [|c2 s]; [reflexivity|].
  rewrite append_cons. cbn [String.prefix] in *.
  destruct (ascii_dec "T" c2); [|reflexivity].
  destruct s as [|c3 s]; [reflexivity|].
  rewrite append_cons. cbn [String.prefix] in *.
  destruct (ascii_dec "o" c3); [|reflexivity].
  destruct s as [|c4 s]; [reflexivity|].
  rewrite append_cons. cbn [String.prefix] in *.
  destruct (ascii_dec "t" c4); [|reflexivity].
  destruct s as [|c5 s]; [reflexivity|].
  rewrite append_cons. cbn [String.prefix] in *.
  destruct (ascii_dec "a" c5); [|reflexivity].
  destruct s as [|c6 s]; [reflexivity|].
  rewrite append_cons. cbn [String.prefix] in *.
  destruct (ascii_dec "l" c6); [|reflexivity].
  destruct s; discriminate.
Qed.

Lemma replace_total name :
  Py.contains " Total" name = false ->
  TeamA2016.replace (name +:+ " Total") " Total" EmptyString = name.
Proof.
  unfold TeamA2016.replace. induction name as [|c name IH]; intros H.
  - reflexivity.
  - change (Py.contains " Total" (String c name))
      with (String.prefix " Total" (String c name)
            || Py.contains " Total" name) in H.
    apply orb_false_iff in H as [Hp Hc].
    pose proof (prefix_total_app (String c name) ltac:(discriminate) Hp) as Hp'.
    rewrite append_cons in *.
    change (TeamA2016.replace_from 0 " Total" EmptyString
              (String c (name +:+ " Total")))
      with (if String.prefix " Total" (String c (name +:+ " Total"))
            then EmptyString +:+
                 TeamA2016.replace_from (String.length " Total" - 1) " Total"
                   EmptyString (name +:+ " Total")
            else String c (TeamA2016.replace_from 0 " Total" EmptyString
                             (name +:+ " Total"))).
    rewrite Hp'. f_equal. now apply IH.
Qed.

(** The label of a precinct total gives back the precinct name.  For a
    name with no white space at either end and without the text
    [" Total"] inside, the label made of the name and [" Total"], with
    any white space around, is cleaned to the name; it is taken as a
    total column exactly when the name does not end in ["Adair"], so
    the total column of any other county is read as one more precinct. *)
Theorem total_label_gives_precinct_name pre name post :
  all_space pre = true -> all_space post = true ->
  name <> EmptyString ->
  Py.lstrip name = name -> Py.rstrip name = name ->
  Py.contains " Total" name = false ->
  TeamA2016.precinct_name (pre +:+ name +:+ " Total" +:+ post) = name
  /\ is_total_label (pre +:+ name +:+ " Total" +:+ post)
     = negb (Py.endswith name "Adair").
Proof.
  intros Hpre Hpost Hne Hl Hr Hc.
  unfold TeamA2016.precinct_name, is_total_label.
  rewrite (strip_label pre name post Hpre Hpost Hne Hl).
  split.
  - rewrite (replace_total name Hc). unfold Py.strip. now rewrite Hl, Hr.
  - assert (H1 : Py.endswith (name +:+ " Total") "Total" = true).
    { apply endswith_iff. exists (name +:+ " "). now rewrite append_assoc. }
    rewrite H1.
    change "Adair Total" with ("Adair" +:+ " Total").
    now rewrite endswith_app_tail.
Qed.

Lemma total_label_gives_precinct_name_witness :
  TeamA2016.precinct_name (" " +:+ "Polk" +:+ " Total" +:+ " ") = "Polk"
  /\ is_total_label (" " +:+ "Polk" +:+ " Total" +:+ " ")
     = negb (Py.endswith "Polk" "Adair").
Proof.
  apply (total_label_gives_precinct_name " " "Polk" " ");
    solve [reflexivity | discriminate].
Defined.

(** ** The frame of the 2016 parser *)

Lemma keys_assign {V} k (v : V) (d : list (string * V)) :
  map fst (TeamA2016.assign k v d)
  = if bool_decide (k ∈ map fst d) then map fst d else map fst d ++ [k].
Proof.
  induction d as [|[k' v'] d IH]; [reflexivity|].
  cbn [TeamA2016.assign]. destruct (String.eqb k' k) eqn:E.
  - apply String.eqb_eq in E. subst k'. cbn [map fst].
    rewrite bool_decide_eq_true_2 by apply list_elem_of_here. reflexivity.
  - apply String.eqb_neq in E. cbn [map fst]. rewrite IH.
    destruct (bool_decide (k ∈ map fst d)) eqn:Hin.
    + apply bool_decide_eq_true in Hin.
      rewrite bool_decide_eq_true_2 by (now apply list_elem_of_further).
      reflexivity.
    + apply bool_decide_eq_false in Hin.
      rewrite bool_decide_eq_false_2; [reflexivity|].
      intros H. apply elem_of_cons in H as [H|H]; [congruence | contradiction].
Qed.

Lemma assign_fresh {V} k (v : V) (d : list (string * V)) :
  k ∉ map fst d -> TeamA2016.assign k v d = d ++ [(k, v)].
Proof.
  induction d as [|[k' v'] d IH]; intros Hk; [reflexivity|].
  cbn [TeamA2016.assign]. destruct (String.eqb k' k) eqn:E.
  - apply String.eqb_eq in E. subst k'. exfalso. apply Hk.
    apply list_elem_of_here.
  - cbn [app]. f_equal. apply IH. intros H. apply Hk.
    now apply list_elem_of_further.
Qed.

Lemma assign_NoDup {V} k (v : V) (d : list (string * V)) :
  NoDup (map fst d) -> NoDup (map fst (TeamA2016.assign k v d)).
Proof.
  intros Hd. rewrite keys_assign.
  destruct (bool_decide (k ∈ map fst d)) eqn:E; [exact Hd|].
  apply bool_decide_eq_false in E. apply NoDup_app. split; [exact Hd|].
  split; [|apply NoDup_singleton].
  intros x Hx Hin. apply list_elem_of_singleton in Hin. now subst x.
Qed.

Lemma assigns_fresh {V} (kvs : list (string * V)) : forall d,
  NoDup (map fst d ++ map fst kvs) ->
  foldl (fun d (kv : string * V) => TeamA2016.assign kv.1 kv.2 d) d kvs
  = d ++ kvs.
Proof.
  induction kvs as [|[k v] kvs IH]; intros d Hd; [now rewrite app_nil_r|].
  cbn [foldl fst snd]. cbn [map fst] in Hd.
  assert (Hk : k ∉ map fst d).
  { apply NoDup_app in Hd as (_ & Hdis & _). intros Hin.
    apply (Hdis k Hin). apply list_elem_of_here. }
  rewrite (assign_fresh k v d Hk), IH.
  - now rewrite <- app_assoc.
  - rewrite map_app, <- app_assoc. exact Hd.
Qed.

Lemma assigns_NoDup {V} (kvs : list (string * V)) : forall d,
  NoDup (map fst d) ->
  NoDup (map fst (foldl (fun d (kv : string * V) =>
                           TeamA2016.assign kv.1 kv.2 d) d kvs)).
Proof.
  induction kvs as [|[k v] kvs IH]; intros d Hd; [exact Hd|].
  cbn [foldl]. apply IH. now apply assign_NoDup.
Qed.

Lemma foldl_fmap {A B C} (f : A -> C -> A) (g : B -> C) (l : list B) : forall a,
  foldl (fun a b => f a (g b)) a l = foldl f a (map g l).
Proof. induction l as [|b l IH]; intros a; [reflexivity|]. simpl. apply IH. Qed.

Lemma precinct_data_columns df :
  foldl (fun d s =>
           TeamA2016.assign (TeamA2016.precinct_name s)
             (map (fun i => nth i (values_of df s) CNone)
                  (map fst (kept_rows df))) d)
        [] (total_labels df)
  = foldl (fun d (kv : string * list cell) => TeamA2016.assign kv.1 kv.2 d)
          [] (map (precinct_column df) (total_labels df)).
Proof.
  rewrite <- (foldl_fmap (fun d (kv : string * list cell) =>
                            TeamA2016.assign kv.1 kv.2 d) (precinct_column df)).
  generalize (@nil (string * list cell)).
  induction (total_labels df) as [|s ts IH]; intros d; [reflexivity|].
  cbn [foldl]. rewrite <- IH. unfold precinct_column at 2. cbn [fst snd].
  now rewrite map_map.
Qed.

Lemma exists_match_kept df :
  has_key_columns df ->
  Exists (fun t => race_matches t = true) (values_of df "RaceTitle") ->
  kept_rows df <> [].
Proof.
  intros Hkeys Hex Hnil. apply kept_rows_nil in Hnil; [|exact Hkeys].
  apply Exists_exists in Hex as (t & Hin & Ht).
  rewrite Forall_forall in Hnil. specialize (Hnil t Hin). congruence.
Qed.

Lemma process_2016_file_returns df :
  has_key_columns df ->
  Forall (fun c => is_text c = true) (TeamA2016.labels df) ->
  Exists (fun t => race_matches t = true) (values_of df "RaceTitle") ->
  TeamA2016.process_2016_file df = TeamA2016.Return (Some (result_frame df)).
Proof.
  intros Hkeys Hall Hex. rewrite process_2016_file_cases.
  rewrite decide_True by exact Hkeys.
  rewrite (has_str_accessor_matches _ Hex).
  rewrite decide_False by (now apply exists_match_kept).
  replace (forallb is_text (TeamA2016.labels df)) with true; [reflexivity|].
  symmetry. apply forallb_forall. intros c Hin.
  rewrite Forall_forall in Hall. apply Hall. now apply list_elem_of_In.
Qed.

(** The frame of a county sheet.  When the labels are text, some row is
    of a wanted race and the cleaned names of the total columns differ
    from one another and from the two key labels, the call returns the
    race titles and candidate names of the rows of wanted races, in
    sheet order, and one column per total column, in label order, named
    by its precinct and holding that column's cells at those rows as
    they are, blank cells included. *)
Theorem process_2016_file_frame (df : TeamA2016.table) :
  has_key_columns df ->
  Forall (fun c => is_text c = true) (TeamA2016.labels df) ->
  Exists (fun t => race_matches t = true) (values_of df "RaceTitle") ->
  NoDup ("RaceTitle" :: "CandidateName"
         :: map TeamA2016.precinct_name (total_labels df)) ->
  TeamA2016.process_2016_file df
  = TeamA2016.Return
      (Some (key_columns df ++ map (precinct_column df) (total_labels df))).
Proof.
  intros Hkeys Hall Hex Hnd.
  rewrite (process_2016_file_returns df Hkeys Hall Hex).
  do 2 f_equal. unfold result_frame. rewrite precinct_data_columns.
  fold (key_columns df).
  assert (Hnames : map fst (map (precinct_column df) (total_labels df))
                   = map TeamA2016.precinct_name (total_labels df)).
  { rewrite map_map. reflexivity. }
  rewrite (assigns_fresh (map (precinct_column df) (total_labels df)) []).
  2:{ rewrite Hnames. simpl. apply NoDup_cons in Hnd as [_ Hnd].
      now apply NoDup_cons in Hnd as [_ Hnd]. }
  rewrite app_nil_l. apply assigns_fresh.
  rewrite Hnames. exact Hnd.
Qed.

Lemma adair_2016_keys : has_key_columns adair_2016.
Proof.
  split; [apply list_elem_of_here|]. left.
  apply list_elem_of_further, list_elem_of_here.
Qed.

Lemma process_2016_file_frame_witness :
  TeamA2016.process_2016_file adair_2016
  = TeamA2016.Return
      (Some [("RaceTitle", [CStr "President/Vice President"; CStr "US Rep Dist 3"]);
             ("CandidateName", [CStr "A"; CStr "B"]);
             ("Adair-1NW", [CInt 5; CInt 6]);
             ("Adair-2NE", [CNone; CInt 1])]).
Proof.
  apply (process_2016_file_frame adair_2016).
  - exact adair_2016_keys.
  - repeat constructor.
  - apply Exists_cons_hd. reflexivity.
  - vm_compute. repeat constructor; intros H;
      repeat (apply elem_of_cons in H as [H|H]; [discriminate|]);
      now apply elem_of_nil in H.
Defined.

Lemma column_of_assign {V} k k' (v : V) (d : list (string * V)) :
  column_of k (TeamA2016.assign k' v d)
  = if String.eqb k' k then Some v else column_of k d.
Proof.
  induction d as [|[k0 v0] d IH]; cbn [TeamA2016.assign column_of].
  - reflexivity.
  - destruct (String.eqb k0 k') eqn:E0.
    + apply String.eqb_eq in E0. subst k0. cbn [column_of].
      now destruct (String.eqb k' k).
    + cbn [column_of]. rewrite IH.
      destruct (String.eqb k0 k) eqn:E1; [|reflexivity].
      apply String.eqb_eq in E1. subst k0.
      now rewrite String.eqb_sym, E0.
Qed.

Lemma column_of_None {V} k (d : list (string * V)) :
  k ∉ map fst d -> column_of k d = None.
Proof.
  induction d as [|[k0 v0] d IH]; intros Hk; [reflexivity|].
  cbn [column_of]. destruct (String.eqb k0 k) eqn:E.
  - apply String.eqb_eq in E. subst k0. exfalso. apply Hk, list_elem_of_here.
  - apply IH. intros H. apply Hk. now apply list_elem_of_further.
Qed.

Lemma column_of_assigns {V} k (kvs : list (string * V)) : forall d,
  NoDup (map fst kvs) ->
  column_of k (foldl (fun d (kv : string * V) =>
                        TeamA2016.assign kv.1 kv.2 d) d kvs)
  = match column_of k kvs with
    | Some v => Some v
    | None => column_of k d
    end.
Proof.
  induction kvs as [|[k0 v0] kvs IH]; intros d Hnd; [reflexivity|].
  cbn [map fst] in Hnd. apply NoDup_cons in Hnd as [Hk0 Hnd].
  cbn [foldl fst snd column_of]. rewrite (IH _ Hnd), column_of_assign.
  destruct (String.eqb k0 k) eqn:E; [|reflexivity].
  apply String.eqb_eq in E. subst k0. now rewrite (column_of_None k kvs Hk0).
Qed.

Lemma column_of_last_write {A V} (g : A -> string) (f : A -> V) k (ts : list A) :
  forall d,
  column_of k (foldl (fun d s => TeamA2016.assign (g s) (f s) d) d ts)
  = match last (List.filter (fun s => String.eqb (g s) k) ts) with
    | Some s => Some (f s)
    | None => column_of k d
    end.
Proof.
  induction ts as [|s ts IH]; intros d; [reflexivity|].
  cbn [foldl List.filter]. rewrite IH, column_of_assign.
  destruct (String.eqb (g s) k) eqn:E; [|reflexivity].
  destruct (List.filter (fun s => String.eqb (g s) k) ts) as [|s' l] eqn:El;
    [reflexivity|].
  change (last (s :: s' :: l)) with (last (s' :: l)).
  destruct (last (s' :: l)) eqn:Hlast; [reflexivity|].
  apply last_None in Hlast. discriminate.
Qed.

(** When two total columns are cleaned to the same name, the later one
    wins.  The frame has one column per label; the column under a name
    holds the cells of the last total column that is cleaned to that
    name, also when the name is one of the two key labels, and a key
    column that no total column is cleaned to holds the keys. *)
Theorem later_total_column_wins (df : TeamA2016.table) :
  has_key_columns df ->
  Forall (fun c => is_text c = true) (TeamA2016.labels df) ->
  Exists (fun t => race_matches t = true) (values_of df "RaceTitle") ->
  exists result_df,
    TeamA2016.process_2016_file df = TeamA2016.Return (Some result_df)
    /\ NoDup (map fst result_df)
    /\ forall name,
         column_of name result_df
         = match last (List.filter
                         (fun s => String.eqb (TeamA2016.precinct_name s) name)
                         (total_labels df)) with
           | Some s => Some (precinct_column df s).2
           | None => column_of name (key_columns df)
           end.
Proof.
  intros Hkeys Hall Hex.
  exists (result_frame df).
  split; [now apply process_2016_file_returns|].
  unfold result_frame. fold (key_columns df).
  set (dict := foldl _ [] (total_labels df)).
  assert (Hdict : NoDup (map fst dict)).
  { unfold dict. rewrite precinct_data_columns.
    apply assigns_NoDup. constructor. }
  split.
  - apply assigns_NoDup. unfold key_columns. cbn [map fst].
    repeat constructor; intros H;
      repeat (apply elem_of_cons in H as [H|H]; [discriminate|]);
      now apply elem_of_nil in H.
  - intros name. rewrite (column_of_assigns name dict _ Hdict).
    unfold dict.
    rewrite (column_of_last_write TeamA2016.precinct_name
               (fun s => map (fun i => nth i (values_of df s) CNone)
                             (map fst (kept_rows df)))).
    destruct (last _) as [s|]; [|reflexivity].
    unfold precinct_column. cbn [snd]. now rewrite map_map.
Qed.

Lemma later_total_column_wins_witness :
  exists result_df,
    TeamA2016.process_2016_file adair_2016_twice
    = TeamA2016.Return (Some result_df)
    /\ column_of "Adair-1" result_df = Some [CInt 2].
Proof.
  destruct (later_total_column_wins adair_2016_twice)
    as (result_df & Hrun & _ & Hcol).
  - split; [apply list_elem_of_here|]. right.
    apply list_elem_of_further, list_elem_of_here.
  - repeat constructor.
  - apply Exists_cons_hd. reflexivity.
  - exists result_df. split; [exact Hrun|]. rewrite Hcol. reflexivity.
Defined.
